(** * CloudPaste virtual file system: facade and file-system service

    A shallow embedding of the two JavaScript modules that carry the
    file-system logic of the backend:

    - the [FileSystem] class (capability-gated dispatch to storage drivers,
      batch coordination, search), and
    - the file-system service ([listDirectory], [getFileInfo],
      [createDirectory], [uploadFile], [removeItem], [renameItem],
      [batchRemoveItems], [updateFile]) that talks to S3 directly.

    JavaScript values are embedded as follows.  A string is a [string]; one
    [ascii] stands for one UTF-16 code unit, so the string layer covers the
    code units below 256 (message literals are opaque).  A number that the
    code uses as an index, a length, a size or an HTTP status is a [Z].
    Asynchronous calls are sequenced in program order: the code awaits every
    promise before it continues.  Exceptions, the S3 endpoint, the database
    and the module-level directory cache are threaded explicitly through a
    state-and-exception monad. *)

From Stdlib Require Import ZArith Ascii String List Bool Lia.
From stdpp Require Import base tactics option list gmap strings sorting.

Local Open Scope Z_scope.

(* ===================================================================== *)
(** * JavaScript strings *)
(* ===================================================================== *)

Module JS.

Definition length (s : string) : Z := Z.of_nat (String.length s).

Fixpoint drop (n : nat) (s : string) : string :=
  match n, s with
  | O, _ => s
  | S n', String _ s' => drop n' s'
  | S _, EmptyString => EmptyString
  end.

Fixpoint take (n : nat) (s : string) : string :=
  match n, s with
  | O, _ => EmptyString
  | S n', String c s' => String c (take n' s')
  | S _, EmptyString => EmptyString
  end.

(** [s.startsWith(p)] *)
Definition startsWith (s p : string) : bool := String.prefix p s.

(** [s.endsWith(p)] *)
Definition endsWith (s p : string) : bool :=
  (String.length p <=? String.length s)%nat
  && String.eqb (drop (String.length s - String.length p) s) p.

(** [s.includes(p)] *)
Fixpoint includes (s p : string) : bool :=
  String.prefix p s
  || match s with
     | EmptyString => false
     | String _ s' => includes s' p
     end.

(** Index arguments are clamped to [0, s.length]. *)
Definition clamp (s : string) (i : Z) : nat :=
  Z.to_nat (Z.max 0 (Z.min i (length s))).

(** [s.substring(a, b)]: the arguments are clamped and swapped when
    [a > b]. *)
Definition substring (s : string) (a b : Z) : string :=
  let a' := clamp s a in
  let b' := clamp s b in
  take (Nat.max a' b' - Nat.min a' b') (drop (Nat.min a' b') s).

(** [s.substring(a)] *)
Definition substringFrom (s : string) (a : Z) : string :=
  substring s a (length s).

Fixpoint lastIndexOf_go (s p : string) (i pos acc : Z) : Z :=
  let acc' := if (i <=? pos) && String.prefix p s then i else acc in
  match s with
  | EmptyString => acc'
  | String _ s' => lastIndexOf_go s' p (i + 1) pos acc'
  end.

(** [s.lastIndexOf(p, pos)]: the greatest index [i <= max(pos, 0)] at which
    [p] occurs in [s], or [-1]. *)
Definition lastIndexOf (s p : string) (pos : Z) : Z :=
  lastIndexOf_go s p 0 (Z.max 0 pos) (-1).

(** [s.lastIndexOf(p)] *)
Definition lastIndexOfEnd (s p : string) : Z := lastIndexOf s p (length s).

Fixpoint split_go (sep : ascii) (s cur : string) : list string :=
  match s with
  | EmptyString => [String.rev cur]
  | String c s' =>
      if Ascii.eqb c sep then String.rev cur :: split_go sep s' EmptyString
      else split_go sep s' (String c cur)
  end.

(** [s.split(sep)] for a separator of one code unit. *)
Definition split (s : string) (sep : ascii) : list string :=
  split_go sep s EmptyString.

(** A string is truthy when it is not empty. *)
Definition truthy (s : string) : bool := negb (String.eqb s "").

(** [a.filter(Boolean)] on an array of strings. *)
Definition filterBoolean (l : list string) : list string :=
  List.filter truthy l.

(** [a.pop()] read as an expression: the last element, if any. *)
Definition pop (l : list string) : option string := last l.

(** [x || d] for a string [x]. *)
Definition orElse (x d : string) : string := if truthy x then x else d.

(** [x || d] where [x] may be [undefined]. *)
Definition orElseOpt (x : option string) (d : string) : string :=
  match x with
  | Some s => orElse s d
  | None => d
  end.

(** White space removed by [trim]: TAB, LF, VT, FF, CR, SPACE and
    NO-BREAK SPACE are the white-space code units below 256. *)
Definition isWhiteSpace (c : ascii) : bool :=
  let n := N_of_ascii c in
  (((9 <=? n) && (n <=? 13)) || (n =? 32) || (n =? 160))%N.

Fixpoint trimStart (s : string) : string :=
  match s with
  | EmptyString => EmptyString
  | String c s' => if isWhiteSpace c then trimStart s' else s
  end.

(** [s.trim()] *)
Definition trim (s : string) : string :=
  String.rev (trimStart (String.rev (trimStart s))).

(** The ETag clean-up: every double-quote code unit (34) is removed. *)
Fixpoint stripQuotes (s : string) : string :=
  match s with
  | EmptyString => EmptyString
  | String c s' =>
      if Ascii.eqb c (ascii_of_N 34) then stripQuotes s'
      else String c (stripQuotes s')
  end.

End JS.

(* ===================================================================== *)
(** * Exceptions and the state-and-exception monad *)
(* ===================================================================== *)

(** HTTP status codes of [ApiStatus]. *)
Module ApiStatus.
Definition BAD_REQUEST : Z := 400.
Definition UNAUTHORIZED : Z := 401.
Definition FORBIDDEN : Z := 403.
Definition NOT_FOUND : Z := 404.
Definition CONFLICT : Z := 409.
Definition INTERNAL_ERROR : Z := 500.
Definition NOT_IMPLEMENTED : Z := 501.
End ApiStatus.

(** A thrown value.  [HTTPException] is hono's exception (a status and a
    message, no [$metadata]).  [JsError] is any other error object: the
    fields the code inspects are [$metadata] (which may be missing, and may
    lack [httpStatusCode]), [name] and [message]. *)
Inductive Exn :=
| HTTPException (status : Z) (message : string)
| JsError (metadata : option (option Z)) (name message : string).

(** An error of the S3 client with an HTTP status. *)
Definition S3Error (code : Z) (name message : string) : Exn :=
  JsError (Some (Some code)) name message.

Definition isHTTPException (e : Exn) : bool :=
  match e with
  | HTTPException _ _ => true
  | JsError _ _ _ => false
  end.

(** Whether [error.$metadata] is there. *)
Definition hasMetadata (e : Exn) : bool :=
  match e with
  | JsError (Some _) _ _ => true
  | _ => false
  end.

(** [error.$metadata?.httpStatusCode] *)
Definition metadataStatus (e : Exn) : option Z :=
  match e with
  | JsError (Some c) _ _ => c
  | _ => None
  end.

Definition exnName (e : Exn) : string :=
  match e with
  | HTTPException _ _ => "Error"
  | JsError _ n _ => n
  end.

Definition exnMessage (e : Exn) : string :=
  match e with
  | HTTPException _ m => m
  | JsError _ _ m => m
  end.

(** [code === n] for a possibly missing status code. *)
Definition statusIs (c : option Z) (n : Z) : bool :=
  match c with
  | Some k => k =? n
  | None => false
  end.

(** The result of running a computation from a state: a value, an exception,
    or the exhaustion of the iteration budget of a pagination loop. *)
Inductive Outcome (S A : Type) :=
| Ret (a : A) (s : S)
| Throw (e : Exn) (s : S)
| Diverge.
Arguments Ret {S A} a s.
Arguments Throw {S A} e s.
Arguments Diverge {S A}.

Definition M (S A : Type) : Type := S -> Outcome S A.

Definition ret {S A} (a : A) : M S A := fun s => Ret a s.
Definition throw {S A} (e : Exn) : M S A := fun s => Throw e s.

Definition bind {S A B} (m : M S A) (k : A -> M S B) : M S B :=
  fun s =>
    match m s with
    | Ret a s' => k a s'
    | Throw e s' => Throw e s'
    | Diverge => Diverge
    end.

(** [try { body } catch (error) { handler(error) }] *)
Definition tryCatch {S A} (body : M S A) (handler : Exn -> M S A) : M S A :=
  fun s =>
    match body s with
    | Ret a s' => Ret a s'
    | Throw e s' => handler e s'
    | Diverge => Diverge
    end.

Definition get {S} : M S S := fun s => Ret s s.
Definition modify {S} (f : S -> S) : M S unit := fun s => Ret tt (f s).

Notation "'let!' x ':=' e 'in' k" := (bind e (fun x => k))
  (at level 10, x name, e at level 100, k at level 200).
Notation "'let!' ' p ':=' e 'in' k" := (bind e (fun p => k))
  (at level 10, p pattern, e at level 100, k at level 200).
Notation "e ';;;' k" := (bind e (fun _ => k))
  (at level 100, k at level 200, right associativity).

(** [if (c) throw e;] *)
Definition throwIf {S} (c : bool) (e : Exn) : M S unit :=
  if c then throw e else ret tt.

(** An oracle call [f] on a component of the state: the answer is a value
    or an exception, and the component may change either way. *)
Definition liftCall {S C A} (proj : S -> C) (upd : C -> S -> S)
    (f : C -> (Exn + A) * C) : M S A :=
  fun s =>
    let '(r, c') := f (proj s) in
    match r with
    | inl e => Throw e (upd c' s)
    | inr a => Ret a (upd c' s)
    end.

(* ===================================================================== *)
(** * Data model *)
(* ===================================================================== *)

(** A row of the [mounts] table.  Timestamps are instants on the clock. *)
Record Mount := mkMount {
  mount_id : string;
  mount_name : string;
  mount_path : string;
  storage_type : string;
  storage_config_id : string;
  cache_ttl : Z;
  is_active : bool;
  created_by : string;
  created_at : option Z;
  updated_at : option Z;
  last_used_at : option Z
}.

(** A row of the [s3_configs] table. *)
Record S3Config := mkS3Config {
  s3_id : string;
  bucket_name : string;
  root_prefix : option string;
  default_folder : option string;
  endpoint_url : string;
  region : string;
  provider_type : string
}.

(** A row of the [files] table, as written by [uploadFile]. *)
Record FileRow := mkFileRow {
  file_id : string;
  file_filename : string;
  file_storage_path : string;
  file_s3_url : string;
  file_mimetype : string;
  file_size : Z;
  file_s3_config_id : string;
  file_slug : string;
  file_etag : option string;
  file_created_by : string;
  file_created_at : string;
  file_updated_at : string
}.

(* ===================================================================== *)
(** * The [FileSystem] facade *)
(* ===================================================================== *)

(** [CAPABILITIES] *)
Inductive Capability := READER | WRITER | ATOMIC | PRESIGNED | MULTIPART.

#[global] Instance Capability_eq_dec : EqDecision Capability.
Proof. solve_decision. Defined.

(** Modelled from the spec: the driver classes are not part of the sources
    at hand.  A driver advertises a set of capabilities and has a type name;
    [uploadStream] is an optional method. *)
Record Driver := mkDriver {
  driver_type : string;
  driver_capabilities : list Capability;
  driver_has_uploadStream : bool
}.

(** Modelled from the spec: [driver.hasCapability(c)] tells whether [c] is
    in the advertised set. *)
Definition hasCapability (d : Driver) (c : Capability) : bool :=
  bool_decide (c ∈ driver_capabilities d).

(** [driver.getType()] *)
Definition getType (d : Driver) : string := driver_type d.

Section Facade.

(** [Any] is the type of the JavaScript values that the facade only passes
    on: the principal, the request, files, streams, option objects, part
    lists and whatever a driver returns. *)
Context {Any : Type}.

(** An argument of a forwarded call. *)
Inductive Arg :=
| Str (s : string)
| Strs (l : list string)
| Num (n : Z)
| OptNum (n : option Z)
| MountArg (m : Mount)
| Opaque (v : Any)
| Spread (v : Any)
| FindMountPointByPath
| EncryptionSecret.

(** A driver method call: the method, the positional arguments and the
    fields of the trailing options object.  The database handle that every
    call carries ([db: this.mountManager.db]) is part of the environment. *)
Record DriverCall := mkCall {
  dc_method : string;
  dc_args : list Arg;
  dc_options : list (string * Arg)
}.

(** The destructured [searchParams]; an absent field is [None]. *)
Record SearchParams := mkSearchParams {
  sp_scope : option string;
  sp_mountId : option string;
  sp_path : option string;
  sp_limit : option Z;
  sp_offset : option Z
}.

Record SearchResult := mkSearchResult {
  sr_results : list Any;
  sr_total : Z;
  sr_hasMore : bool;
  sr_searchParams : SearchParams;
  sr_mountsSearched : option Z
}.

(** What the facade asked of its collaborators, in order.  Storage is only
    reached through [Invoke] and [Search]: the driver methods. *)
Inductive FsEvent :=
| GetDriverByPath (path : string)
| GetDriver (m : Mount)
| Invoke (d : Driver) (c : DriverCall)
| Search (d : Driver) (m : Mount)
| SearchCacheGet (query : string)
| SearchCacheSet (query : string)
| FindAllMounts.

Definition isStorageEvent (e : FsEvent) : bool :=
  match e with
  | Invoke _ _ | Search _ _ => true
  | _ => false
  end.

(** [Env] is everything behind the facade: the mount manager with its
    driver pool, the database, the storage endpoints and the caches. *)
Context {Env : Type}.

(** The collaborators, none of which is part of the sources at hand.  Each
    one is an arbitrary function of the environment. *)
Record Collaborators := mkCollaborators {
  mm_getDriverByPath :
    string -> Any -> string -> Env -> (Exn + (Driver * Mount * string)) * Env;
  mm_getDriver : Mount -> Env -> (Exn + Driver) * Env;
  driver_invoke : Driver -> DriverCall -> Env -> (Exn + Any) * Env;
  driver_search :
    Driver -> string -> Mount -> option string -> Z -> Env
    -> (Exn + list Any) * Env;
  searchCache_get :
    string -> SearchParams -> string -> Any -> Env -> option SearchResult;
  searchCache_set :
    string -> SearchParams -> string -> Any -> SearchResult -> Z -> Env -> Env;
  mountRepository_findAll : bool -> Env -> (Exn + list Mount) * Env;
  sortSearchResults : list Any -> string -> list Any
}.

Context (C : Collaborators).

Record FsState := mkFsState {
  fs_env : Env;
  fs_events : list FsEvent
}.

Definition FM (A : Type) : Type := M FsState A.

(** The storage-reaching events of a run so far. *)
Definition storageEvents (s : FsState) : list FsEvent :=
  List.filter isStorageEvent (fs_events s).

Definition logEvent (e : FsEvent) : FM unit :=
  modify (fun s => mkFsState (fs_env s) (fs_events s ++ [e])).

Definition onEnv {A} (f : Env -> (Exn + A) * Env) : FM A :=
  liftCall fs_env (fun e s => mkFsState e (fs_events s)) f.

(** [await this.mountManager.getDriverByPath(path, userIdOrInfo, userType)] *)
Definition getDriverByPath (path : string) (userIdOrInfo : Any)
    (userType : string) : FM (Driver * Mount * string) :=
  logEvent (GetDriverByPath path) ;;;
  onEnv (mm_getDriverByPath C path userIdOrInfo userType).

(** [await driver.method(...)] *)
Definition invoke (d : Driver) (c : DriverCall) : FM Any :=
  logEvent (Invoke d c) ;;;
  onEnv (driver_invoke C d c).

(** The user-facing operations: one constructor per method of the class,
    with the method's arguments (the principal and its type are passed to
    every method and are arguments of [FileSystem_run]). *)
Inductive FacadeOp :=
| OpListDirectory (path : string)
| OpGetFileInfo (path : string) (request : Any)
| OpDownloadFile (path fileName : string) (request : Any)
| OpUploadFile (path : string) (file options : Any)
| OpUploadStream (path : string) (stream options : Any)
| OpCreateDirectory (path : string)
| OpRenameItem (oldPath newPath : string)
| OpCopyItem (sourcePath targetPath : string) (options : Any)
| OpBatchRemoveItems (paths : option (list string))
| OpGeneratePresignedUrl (path : string) (options : Any)
| OpInitializeFrontendMultipartUpload (path fileName : string)
    (fileSize : Z) (partSize : option Z) (partCount : Any)
| OpCompleteFrontendMultipartUpload (path uploadId : string) (parts : Any)
    (fileName : string) (fileSize : Z)
| OpAbortFrontendMultipartUpload (path uploadId fileName : string)
| OpListMultipartUploads (path : string) (options : Any)
| OpListMultipartParts (path uploadId fileName : string) (options : Any)
| OpRefreshMultipartUrls (path uploadId : string) (partNumbers options : Any)
| OpAbortBackendMultipartUpload (path uploadId : string) (s3Key : Any)
| OpExists (path : string)
| OpUpdateFile (path : string) (content : Any)
| OpHandleCrossStorageCopy (sourcePath targetPath : string).

(** A batch call with [!paths || paths.length === 0] resolves no driver. *)
Definition emptyBatch (paths : option (list string)) : bool :=
  match paths with
  | None | Some [] => true
  | Some (_ :: _) => false
  end.

(** The capability that the method checks with [driver.hasCapability]
    before it throws [NOT_IMPLEMENTED].  [exists] has no check; the check of
    [handleCrossStorageCopy] is never reached (see [FileSystem_run]). *)
Definition requiredCapability (op : FacadeOp) : option Capability :=
  match op with
  | OpListDirectory _ | OpGetFileInfo _ _ | OpDownloadFile _ _ _ => Some READER
  | OpUploadFile _ _ _ | OpUploadStream _ _ _ | OpCreateDirectory _
  | OpUpdateFile _ _ => Some WRITER
  | OpBatchRemoveItems paths =>
      if emptyBatch paths then None else Some WRITER
  | OpRenameItem _ _ | OpCopyItem _ _ _ => Some ATOMIC
  | OpGeneratePresignedUrl _ _ => Some PRESIGNED
  | OpInitializeFrontendMultipartUpload _ _ _ _ _
  | OpCompleteFrontendMultipartUpload _ _ _ _ _
  | OpAbortFrontendMultipartUpload _ _ _
  | OpListMultipartUploads _ _ | OpListMultipartParts _ _ _ _
  | OpRefreshMultipartUrls _ _ _ _
  | OpAbortBackendMultipartUpload _ _ _ => Some MULTIPART
  | OpExists _ | OpHandleCrossStorageCopy _ _ => None
  end.

(** The tail of the message of the [NOT_IMPLEMENTED] exception. *)
Definition unsupportedText (c : Capability) : string :=
  match c with
  | READER => "不支持读取操作"
  | WRITER => "不支持写入操作"
  | ATOMIC => "不支持原子操作"
  | PRESIGNED => "不支持预签名URL"
  | MULTIPART => "不支持分片上传"
  end.

Definition notImplemented (d : Driver) (what : string) : Exn :=
  HTTPException ApiStatus.NOT_IMPLEMENTED
    ("存储驱动 " +:+ getType d +:+ " " +:+ what).

(** [if (!driver.hasCapability(c)) throw new HTTPException(501, ...)] *)
Definition requireCapability (d : Driver) (c : Capability) : FM unit :=
  throwIf (negb (hasCapability d c)) (notImplemented d (unsupportedText c)).

(** The path handed to [getDriverByPath]. *)
Definition resolvedPath (op : FacadeOp) : string :=
  match op with
  | OpListDirectory path | OpGetFileInfo path _ | OpDownloadFile path _ _
  | OpUploadFile path _ _ | OpUploadStream path _ _ | OpCreateDirectory path
  | OpGeneratePresignedUrl path _
  | OpInitializeFrontendMultipartUpload path _ _ _ _
  | OpCompleteFrontendMultipartUpload path _ _ _ _
  | OpAbortFrontendMultipartUpload path _ _
  | OpListMultipartParts path _ _ _ | OpRefreshMultipartUrls path _ _ _
  | OpAbortBackendMultipartUpload path _ _ | OpExists path
  | OpUpdateFile path _ => path
  | OpListMultipartUploads path _ => JS.orElse path "/"
  | OpRenameItem oldPath _ => oldPath
  | OpCopyItem sourcePath _ _ => sourcePath
  | OpBatchRemoveItems paths =>
      match paths with
      | Some (p :: _) => p
      | _ => ""
      end
  | OpHandleCrossStorageCopy sourcePath _ => sourcePath
  end.

(** The call that the method forwards to the driver once the driver is
    resolved and the capability is checked. *)
Definition forwardedCall (op : FacadeOp) (mount : Mount) (subPath : string)
    (userIdOrInfo : Any) (userType : string) : DriverCall :=
  let who := [("userIdOrInfo", Opaque userIdOrInfo); ("userType", Str userType)] in
  let at_ := [("mount", MountArg mount); ("subPath", Str subPath)] in
  match op with
  | OpListDirectory path => mkCall "listDirectory" [Str path] at_
  | OpGetFileInfo path request =>
      mkCall "getFileInfo" [Str path]
        (at_ ++ [("userType", Str userType); ("userId", Opaque userIdOrInfo);
                 ("request", Opaque request)])
  | OpDownloadFile path _ request =>
      mkCall "downloadFile" [Str path]
        (at_ ++ [("request", Opaque request)] ++ who)
  | OpUploadFile path file options =>
      mkCall "uploadFile" [Str path; Opaque file]
        (at_ ++ who ++ [("...options", Spread options)])
  | OpUploadStream path stream options =>
      mkCall "uploadStream" [Str path; Opaque stream]
        (at_ ++ who ++ [("...options", Spread options)])
  | OpCreateDirectory path => mkCall "createDirectory" [Str path] at_
  | OpRenameItem oldPath newPath =>
      mkCall "renameItem" [Str oldPath; Str newPath] (at_ ++ who)
  | OpCopyItem sourcePath targetPath options =>
      mkCall "copyItem" [Str sourcePath; Str targetPath]
        (at_ ++ who ++ [("findMountPointByPath", FindMountPointByPath);
                        ("encryptionSecret", EncryptionSecret);
                        ("...options", Spread options)])
  | OpBatchRemoveItems paths =>
      mkCall "batchRemoveItems" [Strs (default [] paths)]
        (at_ ++ who ++ [("findMountPointByPath", FindMountPointByPath)])
  | OpGeneratePresignedUrl path options =>
      mkCall "generatePresignedUrl" [Str path]
        (at_ ++ who ++ [("...options", Spread options)])
  | OpInitializeFrontendMultipartUpload _ fileName fileSize partSize partCount =>
      mkCall "initializeFrontendMultipartUpload" [Str subPath]
        ([("fileName", Str fileName); ("fileSize", Num fileSize);
          ("partSize", Num (default (5 * 1024 * 1024) partSize));
          ("partCount", Opaque partCount); ("mount", MountArg mount)] ++ who)
  | OpCompleteFrontendMultipartUpload _ uploadId parts fileName fileSize =>
      mkCall "completeFrontendMultipartUpload" [Str subPath]
        ([("uploadId", Str uploadId); ("parts", Opaque parts);
          ("fileName", Str fileName); ("fileSize", Num fileSize);
          ("mount", MountArg mount)] ++ who)
  | OpAbortFrontendMultipartUpload _ uploadId fileName =>
      mkCall "abortFrontendMultipartUpload" [Str subPath]
        ([("uploadId", Str uploadId); ("fileName", Str fileName);
          ("mount", MountArg mount)] ++ who)
  | OpListMultipartUploads _ options =>
      mkCall "listMultipartUploads" [Str subPath]
        [("mount", MountArg mount); ("...options", Spread options)]
  | OpListMultipartParts _ uploadId fileName options =>
      mkCall "listMultipartParts" [Str subPath; Str uploadId]
        [("mount", MountArg mount); ("fileName", Str fileName);
         ("...options", Spread options)]
  | OpRefreshMultipartUrls _ uploadId partNumbers options =>
      mkCall "refreshMultipartUrls" [Str subPath; Str uploadId; Opaque partNumbers]
        [("mount", MountArg mount); ("...options", Spread options)]
  | OpAbortBackendMultipartUpload path uploadId s3Key =>
      mkCall "abortBackendMultipartUpload" [Str path]
        (at_ ++ [("uploadId", Str uploadId); ("s3Key", Opaque s3Key)])
  | OpExists path => mkCall "exists" [Str path] (at_ ++ who)
  | OpUpdateFile path content =>
      mkCall "updateFile" [Str path; Opaque content] (at_ ++ who)
  | OpHandleCrossStorageCopy sourcePath targetPath =>
      mkCall "handleCrossStorageCopy" [Str sourcePath; Str targetPath] who
  end.

(** What a facade method returns: the driver's answer, or the fixed answer
    of [batchRemoveItems] for an empty batch. *)
Inductive FsResult :=
| FromDriver (v : Any)
| BatchRemoved (success : Z) (failed : list (string * string)).

(** The statements of a method that follow the capability check:
    [uploadStream] also requires the method to exist on the driver; every
    method then awaits the driver's method and returns its answer. *)
Definition afterCheck (op : FacadeOp) (driver : Driver) (mount : Mount)
    (subPath : string) (userIdOrInfo : Any) (userType : string) : FM FsResult :=
  throwIf
    (match op with
     | OpUploadStream _ _ _ => negb (driver_has_uploadStream driver)
     | _ => false
     end)
    (notImplemented driver "不支持流式上传") ;;;
  let! v := invoke driver (forwardedCall op mount subPath userIdOrInfo userType) in
  ret (FromDriver v).

(** The methods of the class share one shape, which is written once here:
    resolve the driver of a path, check the capability, forward.  The rows
    of the table are [resolvedPath], [requiredCapability] and
    [forwardedCall].  Three methods depart from the shape:
    [batchRemoveItems] answers an empty batch at once, [exists] has no
    capability check, and [handleCrossStorageCopy] calls the method
    [getDriverBByPath], which the mount manager does not have, so the call
    raises a [TypeError] at once. *)
Definition FileSystem_run (op : FacadeOp) (userIdOrInfo : Any)
    (userType : string) : FM FsResult :=
  match op with
  | OpHandleCrossStorageCopy _ _ =>
      throw (JsError None "TypeError"
               "this.mountManager.getDriverBByPath is not a function")
  | OpBatchRemoveItems paths =>
      if emptyBatch paths then ret (BatchRemoved 0 [])
      else
        let! '(driver, mount, subPath) :=
          getDriverByPath (resolvedPath op) userIdOrInfo userType in
        requireCapability driver WRITER ;;;
        afterCheck op driver mount subPath userIdOrInfo userType
  | _ =>
      let! '(driver, mount, subPath) :=
        getDriverByPath (resolvedPath op) userIdOrInfo userType in
      match requiredCapability op with
      | Some c => requireCapability driver c
      | None => ret tt
      end ;;;
      afterCheck op driver mount subPath userIdOrInfo userType
  end.

(** The methods under their own names. *)
Definition FileSystem_listDirectory path := FileSystem_run (OpListDirectory path).
Definition FileSystem_getFileInfo path request :=
  FileSystem_run (OpGetFileInfo path request).
Definition FileSystem_uploadFile path file options :=
  FileSystem_run (OpUploadFile path file options).
Definition FileSystem_renameItem oldPath newPath :=
  FileSystem_run (OpRenameItem oldPath newPath).
Definition FileSystem_batchRemoveItems paths :=
  FileSystem_run (OpBatchRemoveItems paths).
Definition FileSystem_updateFile path content :=
  FileSystem_run (OpUpdateFile path content).

(** ** [searchFiles] *)

(** [array.slice(a, b)] for [0 <= a]. *)
Definition slice {A} (l : list A) (a b : Z) : list A :=
  List.firstn (Z.to_nat (b - a)) (List.skipn (Z.to_nat a) l).

Definition scopeOf (p : SearchParams) : string := default "global" (sp_scope p).
Definition limitOf (p : SearchParams) : Z := default 50 (sp_limit p).
Definition offsetOf (p : SearchParams) : Z := default 0 (sp_offset p).

Definition knownScope (scope : string) : bool :=
  bool_decide (scope ∈ ["global"; "mount"; "directory"]).

(** The parameter validation at the head of [searchFiles]. *)
Definition validateSearch (query : string) (p : SearchParams) : FM unit :=
  throwIf (negb (JS.truthy query) || (JS.length (JS.trim query) <? 2))
    (HTTPException ApiStatus.BAD_REQUEST "搜索查询至少需要2个字符") ;;;
  throwIf (negb (knownScope (scopeOf p)))
    (HTTPException ApiStatus.BAD_REQUEST "无效的搜索范围") ;;;
  throwIf ((limitOf p <? 1) || (limitOf p >? 200))
    (HTTPException ApiStatus.BAD_REQUEST "limit参数必须在1-200之间") ;;;
  throwIf (offsetOf p <? 0)
    (HTTPException ApiStatus.BAD_REQUEST "offset参数不能为负数").

(** One mount's share of the search; any failure yields no hits. *)
Definition searchMount (query : string) (p : SearchParams) (mount : Mount)
    : FM (list Any) :=
  tryCatch
    (logEvent (GetDriver mount) ;;;
     let! driver := onEnv (mm_getDriver C mount) in
     if negb (hasCapability driver READER) then ret []
     else
       logEvent (Search driver mount) ;;;
       onEnv (driver_search C driver query mount
                (if String.eqb (scopeOf p) "directory" then sp_path p else None)
                1000))
    (fun _ => ret []).

Fixpoint searchMounts (query : string) (p : SearchParams) (mounts : list Mount)
    : FM (list Any) :=
  match mounts with
  | [] => ret []
  | m :: rest =>
      let! hits := searchMount query p m in
      let! more := searchMounts query p rest in
      ret (hits ++ more)
  end.

(** The part of [searchFiles] that follows the validation.  The per-mount
    searches, which the code starts together and collects with
    [Promise.allSettled], are run in the order of the mounts. *)
Definition searchValidated (query : string) (p : SearchParams)
    (userIdOrInfo : Any) (userType : string) : FM SearchResult :=
  logEvent (SearchCacheGet query) ;;;
  let! s := get in
  match searchCache_get C query p userType userIdOrInfo (fs_env s) with
  | Some cached => ret cached
  | None =>
      logEvent FindAllMounts ;;;
      let! accessibleMounts :=
        tryCatch (onEnv (mountRepository_findAll C false))
          (fun _ => throw (HTTPException ApiStatus.UNAUTHORIZED "未授权访问")) in
      match accessibleMounts with
      | [] => ret (mkSearchResult [] 0 false p None)
      | _ :: _ =>
          let narrowed :=
            (String.eqb (scopeOf p) "mount" || String.eqb (scopeOf p) "directory")
            && JS.truthy (default "" (sp_mountId p)) in
          let targetMounts :=
            if narrowed
            then List.filter
                   (fun m => String.eqb (mount_id m) (default "" (sp_mountId p)))
                   accessibleMounts
            else accessibleMounts in
          throwIf (narrowed && (Nat.eqb (List.length targetMounts) 0))
            (HTTPException ApiStatus.FORBIDDEN "没有权限访问指定的挂载点") ;;;
          let! allResults := searchMounts query p targetMounts in
          let sortedResults := sortSearchResults C allResults query in
          let total := Z.of_nat (List.length sortedResults) in
          let searchResult :=
            mkSearchResult
              (slice sortedResults (offsetOf p) (offsetOf p + limitOf p))
              total (offsetOf p + limitOf p <? total) p
              (Some (Z.of_nat (List.length targetMounts))) in
          (if 0 <? total
           then
             logEvent (SearchCacheSet query) ;;;
             modify (fun s =>
               mkFsState
                 (searchCache_set C query p userType userIdOrInfo searchResult
                    300 (fs_env s))
                 (fs_events s))
           else ret tt) ;;;
          ret searchResult
      end
  end.

(** The conditions under which the validation rejects a search. *)
Definition rejectsSearch (query : string) (p : SearchParams) : Prop :=
  JS.length (JS.trim query) < 2
  \/ limitOf p < 1 \/ limitOf p > 200
  \/ offsetOf p < 0
  \/ scopeOf p ∉ ["global"; "mount"; "directory"].

Definition FileSystem_searchFiles (query : string) (p : SearchParams)
    (userIdOrInfo : Any) (userType : string) : FM SearchResult :=
  validateSearch query p ;;;
  searchValidated query p userIdOrInfo userType.

End Facade.

(* ===================================================================== *)
(** * The file-system service: state *)
(* ===================================================================== *)

(** The principal of a call.  The service receives [userId] and [userType];
    for an API key the identifier carries the key's permitted mounts. *)
Record UserId := mkUserId {
  user_key : string;
  permittedMountIds : list string
}.

(** The database: the three tables the service reads and writes. *)
Record DB := mkDB {
  db_mounts : list Mount;
  db_s3_configs : list S3Config;
  db_files : list FileRow
}.

(** [SELECT * FROM s3_configs WHERE id = ?] with [.first()] *)
Definition selectS3Config (db : DB) (id : string) : option S3Config :=
  List.find (fun c => String.eqb (s3_id c) id) (db_s3_configs db).

(** An [ArrayBuffer] (or the buffer of a typed array): the service reads
    its [byteLength] and passes the buffer on as the body of a request. *)
Record ArrayBuffer := mkArrayBuffer { byteLength : Z }.

(** The [content] argument of [updateFile]. *)
Inductive Content :=
| CString (s : string)
| CArrayBuffer (b : ArrayBuffer)
| CUint8Array (b : ArrayBuffer)
| COther.

(** The [file] argument of [uploadFile]: a [File] of a form submission. *)
Record File := mkFile {
  file_name : string;
  file_type : string;
  file_bytes : Z;
  file_arrayBuffer : ArrayBuffer
}.

(** ** The S3 endpoint *)

Definition Metadata : Type := list (string * string).

(** The commands the service sends, with the parameters it sets. *)
Inductive Command :=
| HeadObjectCommand (Bucket Key : string)
| GetObjectCommand (Bucket Key : string) (Range : option string)
| PutObjectCommand (Bucket Key : string) (Body : Content)
    (ContentType : string) (Meta : option Metadata)
| DeleteObjectCommand (Bucket Key : string)
| CopyObjectCommand (Bucket CopySource Key : string)
| ListObjectsV2Command (Bucket Prefix : string) (Delimiter : option string)
    (MaxKeys : option Z) (ContinuationToken : option string).

(** The body of a [GetObject] response.  Which of the release methods
    exists depends on the runtime; calling one may throw. *)
Record BodyStream := mkBodyStream {
  has_destroy : bool;
  has_cancel : bool;
  has_close : bool;
  has_abort : bool;
  release_throws : bool
}.

(** An element of [Contents]. *)
Record ListedObject := mkListedObject {
  lo_Key : string;
  lo_Size : option Z;
  lo_LastModified : option Z;
  lo_ETag : option string
}.

(** The response object of a command: the fields the service reads, each of
    which may be missing. *)
Record Output := mkOutput {
  out_ContentType : option string;
  out_ContentLength : option Z;
  out_LastModified : option Z;
  out_ETag : option string;
  out_Metadata : option Metadata;
  out_Body : option BodyStream;
  out_Contents : option (list ListedObject);
  out_CommonPrefixes : option (list (option string));
  out_IsTruncated : bool;
  out_NextContinuationToken : option string
}.

Definition emptyOutput : Output :=
  mkOutput None None None None None None None None false None.

(** An S3-compatible endpoint: an arbitrary state machine that answers a
    command with a response or an error. *)
Class S3Backend := {
  S3State : Type;
  S3Client : Type;
  s3_send : S3Client -> Command -> S3State -> (Exn + Output) * S3State
}.

(** ** The directory cache *)

Record Item := mkItem {
  item_name : string;
  item_path : string;
  item_isDirectory : bool;
  item_isVirtual : option bool;
  item_isMount : bool;
  item_size : option Z;
  item_modified : Z;
  item_etag : option string;
  item_mount_id : option string;
  item_storage_type : option string
}.

Record DirectoryListing := mkListing {
  dl_path : string;
  dl_isRoot : bool;
  dl_isVirtual : bool;
  dl_mount_id : option string;
  dl_storage_type : option string;
  dl_items : list Item
}.

Record CacheEntry := mkCacheEntry {
  ce_listing : DirectoryListing;
  ce_insertedAt : Z;
  ce_ttl : Z
}.

(** Modelled from the spec: the module [DirectoryCache.js] is not part of
    the sources at hand.  The cache maps the key [(mountId, subPath)] to an
    entry. *)
Abbreviation Cache := (gmap (string * string) CacheEntry).

(** ** The world *)

(** What the service did to the endpoint, in order. *)
Inductive Effect :=
| Sent (c : Command)
| Released (method : string).

Section ServiceState.

Context `{S3Backend}.

Record World := mkWorld {
  w_db : DB;
  w_s3 : S3State;
  w_cache : Cache;
  w_effects : list Effect;
  w_now : Z;
  w_nextId : nat
}.

Definition setDb (db : DB) (w : World) : World :=
  mkWorld db (w_s3 w) (w_cache w) (w_effects w) (w_now w) (w_nextId w).
Definition setS3 (s : S3State) (w : World) : World :=
  mkWorld (w_db w) s (w_cache w) (w_effects w) (w_now w) (w_nextId w).
Definition setCache (c : Cache) (w : World) : World :=
  mkWorld (w_db w) (w_s3 w) c (w_effects w) (w_now w) (w_nextId w).
Definition addEffect (e : Effect) (w : World) : World :=
  mkWorld (w_db w) (w_s3 w) (w_cache w) (w_effects w ++ [e]) (w_now w)
    (w_nextId w).
Definition bumpId (w : World) : World :=
  mkWorld (w_db w) (w_s3 w) (w_cache w) (w_effects w) (w_now w)
    (S (w_nextId w)).

Definition SM (A : Type) : Type := M World A.

(** [await s3Client.send(command)] *)
Definition send (client : S3Client) (c : Command) : SM Output :=
  modify (addEffect (Sent c)) ;;;
  liftCall w_s3 setS3 (s3_send client c).

(** The commands sent so far. *)
Definition sentCommands (w : World) : list Command :=
  omap (fun e => match e with Sent c => Some c | Released _ => None end)
    (w_effects w).

(** The release calls made so far on response bodies. *)
Definition releaseCalls (w : World) : list string :=
  omap (fun e => match e with Released m => Some m | Sent _ => None end)
    (w_effects w).

(** [new Date()] *)
Definition now : SM Z := fun w => Ret (w_now w) w.

(** ** Directory cache operations *)

(** Modelled from the spec: [get] treats an entry past its TTL (in
    seconds; the clock counts milliseconds) as absent and removes it. *)
Definition directoryCache_get (mountId subPath : string)
    : SM (option DirectoryListing) :=
  fun w =>
    match w_cache w !! (mountId, subPath) with
    | None => Ret None w
    | Some e =>
        if w_now w <? ce_insertedAt e + ce_ttl e * 1000
        then Ret (Some (ce_listing e)) w
        else Ret None (setCache (delete (mountId, subPath) (w_cache w)) w)
    end.

(** Modelled from the spec: [set(mountId, subPath, listing, ttl)]. *)
Definition directoryCache_set (mountId subPath : string)
    (listing : DirectoryListing) (ttl : Z) : SM unit :=
  fun w =>
    Ret tt
      (setCache
         (<[(mountId, subPath) := mkCacheEntry listing (w_now w) ttl]>
            (w_cache w)) w).

(** Modelled from the spec: [invalidate(mountId, subPath)] removes the
    entry of the key and tells whether there was one. *)
Definition directoryCache_invalidate (mountId subPath : string) : SM bool :=
  fun w =>
    Ret (bool_decide (is_Some (w_cache w !! (mountId, subPath))))
      (setCache (delete (mountId, subPath) (w_cache w)) w).

End ServiceState.

(** The non-empty proper prefixes of a path that end in a slash, longest
    first: the directories above it, up to the root. *)
Fixpoint prefixes (s : string) : list string :=
  match s with
  | EmptyString => []
  | String c s' => String c EmptyString :: List.map (String c) (prefixes s')
  end.

Definition ancestorDirectories (p : string) : list string :=
  List.filter (fun a => JS.endsWith a "/" && negb (String.eqb a p))
    (List.rev (prefixes p)).

Section ServiceCache.

Context `{S3Backend}.

Fixpoint invalidateAll (mountId : string) (paths : list string) : SM Z :=
  match paths with
  | [] => ret 0
  | p :: rest =>
      let! removed := directoryCache_invalidate mountId p in
      let! n := invalidateAll mountId rest in
      ret ((if removed : bool then 1 else 0) + n)
  end.

(** Modelled from the spec: [invalidatePathAndAncestors(mountId, subPath)]
    walks from [subPath] up to the root, invalidates each directory on the
    way and returns the number of entries removed. *)
Definition directoryCache_invalidatePathAndAncestors (mountId subPath : string)
    : SM Z :=
  invalidateAll mountId (subPath :: ancestorDirectories subPath).

End ServiceCache.

(* ===================================================================== *)
(** * The file-system service: operations *)
(* ===================================================================== *)

(** The answer of [findMountPointByPath]: an [error] object or the mount
    with the sub-path. *)
Inductive MountResult :=
| MountError (status : Z) (message : string)
| MountFound (mount : Mount) (subPath : string).

(** What [initializeMultipartUpload] answers. *)
Record MultipartInfo := mkMultipartInfo {
  mp_uploadId : string;
  mp_path : string;
  mp_recommendedPartSize : Z;
  mp_bucket : string;
  mp_key : string;
  mp_mount_id : string;
  mp_storage_type : string
}.

(** The functions of other modules that the service imports and that are
    not part of the sources at hand.  Each is an arbitrary function of its
    arguments; [generateFileId] draws from a supply of identifiers,
    [getLocalTimeString] reads the clock, [stringReplace] is
    [String.prototype.replace] with a string pattern, and
    [initializeMultipartUpload] is an arbitrary computation. *)
Class Helpers `{S3Backend} := {
  findMountPointByPath : DB -> string -> UserId -> string -> MountResult;
  normalizeS3SubPath : string -> S3Config -> bool -> string;
  createS3Client : S3Config -> string -> Exn + S3Client;
  buildS3Url : S3Config -> string -> string;
  generateFileId : nat -> string;
  getLocalTimeString : Z -> string;
  getMimeTypeAndGroupFromFile : string -> string -> string * string;
  MIME_GROUPS_EXECUTABLE : string;
  encodeURIComponent : string -> string;
  stringReplace : string -> string -> string -> string;
  initializeMultipartUpload :
    string -> string -> Z -> UserId -> string -> string -> SM MultipartInfo
}.

(** Modelled from the spec: [getMountsByAdmin] is not part of the sources
    at hand.  Only the active mounts owned by the principal are
    candidates. *)
Definition getMountsByAdmin (db : DB) (userId : UserId) : list Mount :=
  List.filter
    (fun m => is_active m && String.eqb (created_by m) (user_key userId))
    (db_mounts db).

(** Modelled from the spec: [getMountsByApiKey] is not part of the sources
    at hand.  Only the active mounts among the key's permitted mounts are
    candidates. *)
Definition getMountsByApiKey (db : DB) (userId : UserId) : list Mount :=
  List.filter
    (fun m => is_active m
              && bool_decide (mount_id m ∈ permittedMountIds userId))
    (db_mounts db).

(** Modelled from the spec: [deleteFileRecordByStoragePath] is not part of
    the sources at hand.  It deletes the file records of a storage path
    under a configuration and reports how many there were. *)
Definition deleteFileRecordByStoragePath (db : DB) (s3ConfigId path : string)
    : Z * DB :=
  let hit r :=
    String.eqb (file_s3_config_id r) s3ConfigId
    && String.eqb (file_storage_path r) path in
  (Z.of_nat (List.length (List.filter hit (db_files db))),
   mkDB (db_mounts db) (db_s3_configs db)
     (List.filter (fun r => negb (hit r)) (db_files db))).

(** [normalizePath(path, isDirectory)] *)
Definition normalizePath (path : string) (isDirectory : bool) : string :=
  let path := if JS.startsWith path "/" then path else "/" +:+ path in
  if isDirectory
  then if JS.endsWith path "/" then path else path +:+ "/"
  else path.

(** [mount.mount_path.startsWith("/") ? mount.mount_path : "/" + mount.mount_path] *)
Definition mountPathOf (m : Mount) : string :=
  if JS.startsWith (mount_path m) "/" then mount_path m
  else "/" +:+ mount_path m.

(** [mounts.sort((a, b) => b.mount_path.length - a.mount_path.length)]:
    the sort is stable, so it is an insertion sort that keeps the order of
    mounts with paths of the same length. *)
Fixpoint insertByLength (m : Mount) (l : list Mount) : list Mount :=
  match l with
  | [] => [m]
  | x :: rest =>
      if JS.length (mount_path m) <? JS.length (mount_path x)
      then x :: insertByLength m rest
      else m :: x :: rest
  end.

Definition sortByPathLengthDesc (mounts : list Mount) : list Mount :=
  List.fold_right insertByLength [] mounts.

(** The test of the resolution loop of [listDirectory]. *)
Definition mountMatches (path : string) (m : Mount) : bool :=
  String.eqb path (mountPathOf m +:+ "/")
  || JS.startsWith path (mountPathOf m +:+ "/").

(** The sub-path that the loop computes for a mount. *)
Definition subPathUnder (path : string) (m : Mount) : string :=
  let subPath := JS.substringFrom path (JS.length (mountPathOf m)) in
  if JS.startsWith subPath "/" then subPath else "/" +:+ subPath.

(** The resolution loop of [listDirectory]: the first mount that matches,
    with the sub-path, or nothing (the path is then virtual). *)
Fixpoint matchMount (mounts : list Mount) (path : string)
    : option (Mount * string) :=
  match mounts with
  | [] => None
  | mount :: rest =>
      if mountMatches path mount then Some (mount, subPathUnder path mount)
      else matchMount rest path
  end.

(** [path.split("/").filter(Boolean).pop() || d] *)
Definition lastSegmentOr (path d : string) : string :=
  JS.orElseOpt (JS.pop (JS.filterBoolean (JS.split path "/"))) d.

(** [x ? x.replace(...) : undefined] for an ETag. *)
Definition cleanETag (etag : option string) : option string :=
  match etag with
  | Some e => if JS.truthy e then Some (JS.stripQuotes e) else None
  | None => None
  end.

(** [dirs.add(d)] on an insertion-ordered set. *)
Definition setAdd (d : string) (dirs : list string) : list string :=
  if bool_decide (d ∈ dirs) then dirs else dirs ++ [d].

(** [getVirtualDirectoryListing(mounts, path)], at the instant [t]. *)
Definition getVirtualDirectoryListing (mounts : list Mount) (path : string)
    (t : Z) : DirectoryListing :=
  let path := normalizePath path true in
  let step (acc : list string * list Item) (mount : Mount) :=
    let '(directories, mountEntries) := acc in
    let mountPath := mountPathOf mount in
    if String.eqb (mountPath +:+ "/") path || String.eqb mountPath path
    then
      (directories,
       mountEntries ++
         [mkItem
            (JS.orElse (mount_name mount) (lastSegmentOr mountPath (mount_id mount)))
            mountPath true None true None
            (default (default t (created_at mount)) (updated_at mount))
            None (Some (mount_id mount)) (Some (storage_type mount))])
    else if JS.startsWith mountPath path
    then
      let relativePath := JS.substringFrom mountPath (JS.length path) in
      let firstDir := default "" (head (JS.split relativePath "/")) in
      (if JS.truthy firstDir then setAdd firstDir directories else directories,
       mountEntries)
    else acc in
  let '(directories, mountEntries) := List.fold_left step mounts ([], []) in
  mkListing path (String.eqb path "/") true None None
    (List.map
       (fun dir =>
          mkItem dir (path +:+ dir +:+ "/") true (Some true) false None t
            None None None)
       directories
     ++ mountEntries).

Section Service.

Context {Hb : S3Backend} {Hs : Helpers}.

(** [handleFsError(fn, operationName, defaultErrorMessage)]: an
    [HTTPException] passes; any other error becomes an internal error. *)
Definition handleFsError {A} (fn : SM A) (defaultErrorMessage : string) : SM A :=
  tryCatch fn
    (fun error =>
       if isHTTPException error then throw error
       else throw (HTTPException ApiStatus.INTERNAL_ERROR
                     (JS.orElse (exnMessage error) defaultErrorMessage))).

(** Modelled from the spec: [updateMountLastUsed] is not part of the sources
    at hand.  It stamps the mount and never fails the caller. *)
Definition stampMount (mountId : string) (w : World) : World :=
  setDb
    (mkDB
       (List.map
          (fun m =>
             if String.eqb (mount_id m) mountId
             then mkMount (mount_id m) (mount_name m) (mount_path m)
                    (storage_type m) (storage_config_id m) (cache_ttl m)
                    (is_active m) (created_by m) (created_at m)
                    (updated_at m) (Some (w_now w))
             else m)
          (db_mounts (w_db w)))
       (db_s3_configs (w_db w)) (db_files (w_db w)))
    w.

Definition updateMountLastUsed (mountId : string) : SM unit :=
  modify (stampMount mountId).

Definition nonEmptyContents (r : Output) : bool :=
  match out_Contents r with
  | Some (_ :: _) => true
  | _ => false
  end.

(** Modelled from the spec: [checkDirectoryExists] is not part of the
    sources at hand.  A directory exists when the HEAD probe of its
    placeholder key succeeds or the listing of its prefix is not empty; a
    failing listing counts as absence. *)
Definition checkDirectoryExists (client : S3Client) (bucket dirPath : string)
    : SM bool :=
  tryCatch
    (send client (HeadObjectCommand bucket dirPath) ;;; ret true)
    (fun _ =>
       tryCatch
         (let! r := send client
                      (ListObjectsV2Command bucket dirPath None (Some 1) None) in
          ret (nonEmptyContents r))
         (fun _ => ret false)).

(** The common head of the operations: the mount of a path, or the
    exception made from the [error] object of the lookup. *)
Definition findMount (path : string) (userId : UserId) (userType : string)
    : SM (Mount * string) :=
  let! w := get in
  match findMountPointByPath (w_db w) path userId userType with
  | MountError status message => throw (HTTPException status message)
  | MountFound mount subPath => ret (mount, subPath)
  end.

(** The configuration of a mount, or [NOT_FOUND]. *)
Definition getS3Config (mount : Mount) : SM S3Config :=
  let! w := get in
  match selectS3Config (w_db w) (storage_config_id mount) with
  | None => throw (HTTPException ApiStatus.NOT_FOUND "存储配置不存在")
  | Some c => ret c
  end.

(** [await createS3Client(s3Config, encryptionSecret)] *)
Definition newS3Client (c : S3Config) (encryptionSecret : string) : SM S3Client :=
  match createS3Client c encryptionSecret with
  | inl e => throw e
  | inr client => ret client
  end.

(** [p ? (p.endsWith("/") ? p : p + "/") : ""] *)
Definition withSlash (p : option string) : string :=
  match p with
  | Some s => if JS.truthy s then (if JS.endsWith s "/" then s else s +:+ "/") else ""
  | None => ""
  end.

(** [s.slice(0, -1)] *)
Definition dropLast (s : string) : string :=
  JS.take (String.length s - 1) s.

(** [getS3DirectoryListing(db, mount, subPath, encryptionSecret)] *)
Definition getS3DirectoryListing (mount : Mount) (subPath : string)
    (encryptionSecret : string) : SM DirectoryListing :=
  let! cached :=
    if 0 <? cache_ttl mount
    then directoryCache_get (mount_id mount) subPath
    else ret None in
  match cached with
  | Some cachedResult => ret cachedResult
  | None =>
      let! s3Config := getS3Config mount in
      let! s3Client := newS3Client s3Config encryptionSecret in
      let s3SubPath := normalizeS3SubPath subPath s3Config true in
      updateMountLastUsed (mount_id mount) ;;;
      let rootPrefix := withSlash (root_prefix s3Config) in
      let defaultFolder := withSlash (default_folder s3Config) in
      let fullPrefix := rootPrefix in
      let fullPrefix :=
        if JS.truthy defaultFolder && negb (String.eqb defaultFolder "/")
        then fullPrefix +:+ defaultFolder else fullPrefix in
      let fullPrefix :=
        if JS.truthy s3SubPath && negb (String.eqb s3SubPath "/")
        then fullPrefix +:+ s3SubPath else fullPrefix in
      let fullPrefix :=
        if JS.truthy fullPrefix && negb (JS.endsWith fullPrefix "/")
        then fullPrefix +:+ "/" else fullPrefix in
      let! response :=
        send s3Client
          (ListObjectsV2Command (bucket_name s3Config) fullPrefix (Some "/")
             None None) in
      let! t := now in
      let dirItem (prefix : option string) : list Item :=
        match prefix with
        | Some pre =>
            if JS.truthy pre then
              let relativePath := JS.substringFrom pre (JS.length s3SubPath) in
              let dirName :=
                if JS.endsWith relativePath "/" then dropLast relativePath
                else relativePath in
              if JS.truthy dirName
              then [mkItem dirName
                      (mount_path mount +:+ subPath +:+ dirName +:+ "/")
                      true (Some false) false None t None None None]
              else []
            else []
        | None => []
        end in
      let fileItem (content : ListedObject) : list Item :=
        let key := lo_Key content in
        if String.eqb key fullPrefix || String.eqb key (fullPrefix +:+ "/")
        then []
        else
          let relativePath := JS.substringFrom key (JS.length fullPrefix) in
          if JS.includes relativePath "/" then []
          else if negb (JS.truthy relativePath) then []
          else [mkItem relativePath
                  (mount_path mount +:+ subPath +:+ relativePath)
                  false None false (lo_Size content)
                  (default t (lo_LastModified content))
                  (cleanETag (lo_ETag content)) None None] in
      let result :=
        mkListing (mount_path mount +:+ subPath) false false
          (Some (mount_id mount)) (Some (storage_type mount))
          (List.concat (List.map dirItem (default [] (out_CommonPrefixes response)))
           ++ List.concat (List.map fileItem (default [] (out_Contents response)))) in
      (if 0 <? cache_ttl mount
       then directoryCache_set (mount_id mount) subPath result (cache_ttl mount)
       else ret tt) ;;;
      ret result
  end.

(** What the resolution of [listDirectory] decides for a path: a mount with
    a sub-path, or a virtual directory over the candidate mounts. *)
Inductive Resolution :=
| Resolved (mount : Mount) (subPath : string)
| Virtual (mounts : list Mount) (path : string).

(** The candidate mounts of a principal; [None] for a user type that is
    neither [admin] nor [apiKey]. *)
Definition candidateMounts (db : DB) (userId : UserId) (userType : string)
    : option (list Mount) :=
  if String.eqb userType "admin" then Some (getMountsByAdmin db userId)
  else if String.eqb userType "apiKey" then Some (getMountsByApiKey db userId)
  else None.

(** Lines 70 to 103 of the service: normalise, fetch, sort and match. *)
Definition resolveListing (db : DB) (path : string) (userId : UserId)
    (userType : string) : option Resolution :=
  let path := normalizePath path true in
  match candidateMounts db userId userType with
  | None => None
  | Some mounts =>
      let mounts := sortByPathLengthDesc mounts in
      Some (match matchMount mounts path with
            | Some (matchingMount, subPath) => Resolved matchingMount subPath
            | None => Virtual mounts path
            end)
  end.

(** [listDirectory(db, path, userId, userType, encryptionSecret)] *)
Definition listDirectory (path : string) (userId : UserId) (userType : string)
    (encryptionSecret : string) : SM DirectoryListing :=
  handleFsError
    (let! w := get in
     match resolveListing (w_db w) path userId userType with
     | None => throw (HTTPException ApiStatus.UNAUTHORIZED "未授权访问")
     | Some (Virtual mounts path) =>
         let! t := now in
         ret (getVirtualDirectoryListing mounts path t)
     | Some (Resolved matchingMount subPath) =>
         getS3DirectoryListing matchingMount subPath encryptionSecret
     end)
    "列出目录失败".

(** ** [getFileInfo] *)

Record FileInfo := mkFileInfo {
  fi_path : string;
  fi_name : string;
  fi_isDirectory : bool;
  fi_size : option Z;
  fi_modified : Z;
  fi_contentType : string;
  fi_etag : option string;
  fi_mount_id : string;
  fi_storage_type : string
}.

(** The result object built from a HEAD or GET response. *)
Definition infoOfResponse (path : string) (mount : Mount) (s3SubPath : string)
    (r : Output) : SM FileInfo :=
  let! t := now in
  ret (mkFileInfo path (lastSegmentOr path "/")
         (JS.endsWith s3SubPath "/"
          || bool_decide (out_ContentType r = Some "application/x-directory"))
         (out_ContentLength r)
         (default t (out_LastModified r))
         (JS.orElseOpt (out_ContentType r) "application/octet-stream")
         (cleanETag (out_ETag r))
         (mount_id mount) (storage_type mount)).

(** The release method of a response body that the service calls: the
    first of [destroy], [cancel], [close] and [abort] that the body has. *)
Definition releaseMethod (b : BodyStream) : option string :=
  if has_destroy b then Some "destroy"
  else if has_cancel b then Some "cancel"
  else if has_close b then Some "close"
  else if has_abort b then Some "abort"
  else None.

(** The release of a response body: the release method is called; an
    error of the call is swallowed; a body without any of the four methods
    is left to the collector. *)
Definition releaseBody (body : option BodyStream) : SM unit :=
  tryCatch
    (match body with
     | None => ret tt
     | Some b =>
         match releaseMethod b with
         | Some method =>
             modify (addEffect (Released method)) ;;;
             throwIf (release_throws b) (JsError None "Error" "release failed")
         | None => ret tt
         end
     end)
    (fun _ => ret tt).

(** The test that sends [getFileInfo] to the GET fallback. *)
Definition headNeedsGet (headError : Exn) : bool :=
  statusIs (metadataStatus headError) 403
  || String.eqb (exnName headError) "UnknownError"
  || (JS.truthy (exnMessage headError)
      && JS.includes (exnMessage headError) "UnknownError").

(** The directory form of a key. *)
Definition asPrefix (key : string) : string :=
  if JS.endsWith key "/" then key else key +:+ "/".

(** The [try] statement of [getFileInfo]: HEAD first, GET when HEAD is
    refused or fails without a name, and for a 404 the listing of the key
    read as a directory. *)
Definition probeObject (path : string) (mount : Mount) (s3Config : S3Config)
    (s3Client : S3Client) (s3SubPath : string) : SM FileInfo :=
  tryCatch
    (tryCatch
       (let! headResponse :=
          send s3Client (HeadObjectCommand (bucket_name s3Config) s3SubPath) in
        infoOfResponse path mount s3SubPath headResponse)
       (fun headError =>
          if headNeedsGet headError then
            let! getResponse :=
              send s3Client
                (GetObjectCommand (bucket_name s3Config) s3SubPath None) in
            releaseBody (out_Body getResponse) ;;;
            infoOfResponse path mount s3SubPath getResponse
          else throw headError))
    (fun error =>
       if statusIs (metadataStatus error) 404 then
         let dirPath := asPrefix s3SubPath in
         let! listResponse :=
           send s3Client
             (ListObjectsV2Command (bucket_name s3Config) dirPath None
                (Some 1) None) in
         if nonEmptyContents listResponse then
           let! t := now in
           ret (mkFileInfo path (lastSegmentOr path "/") true (Some 0) t
                  "application/x-directory" None
                  (mount_id mount) (storage_type mount))
         else throw (HTTPException ApiStatus.NOT_FOUND "文件或目录不存在")
       else if statusIs (metadataStatus error) 403 then
         throw (HTTPException ApiStatus.FORBIDDEN "没有权限访问该文件或目录")
       else if isHTTPException error then throw error
       else
         throw (HTTPException ApiStatus.INTERNAL_ERROR
                  ("获取文件信息失败: " +:+ JS.orElse (exnName error) "未知错误"
                   +:+ " - " +:+ exnMessage error))).

(** [getFileInfo(db, path, userId, userType, encryptionSecret)] *)
Definition getFileInfo (path : string) (userId : UserId) (userType : string)
    (encryptionSecret : string) : SM FileInfo :=
  handleFsError
    (let! '(mount, subPath) := findMount path userId userType in
     let! s3Config := getS3Config mount in
     let! s3Client := newS3Client s3Config encryptionSecret in
     let s3SubPath := normalizeS3SubPath subPath s3Config false in
     updateMountLastUsed (mount_id mount) ;;;
     probeObject path mount s3Config s3Client s3SubPath)
    "获取文件信息失败".

(** ** [createDirectory] *)

(** [s.substring(0, s.lastIndexOf("/", s.length - 2) + 1)]: the parent of a
    directory path. *)
Definition parentOfDirectory (s : string) : string :=
  JS.substring s 0 (JS.lastIndexOf s "/" (JS.length s - 2) + 1).

(** [s.substring(0, s.lastIndexOf("/") + 1)]: the path up to its last
    slash. *)
Definition upToLastSlash (s : string) : string :=
  JS.substring s 0 (JS.lastIndexOfEnd s "/" + 1).

(** [createDirectory(db, path, userId, userType, encryptionSecret)] *)
Definition createDirectory (path : string) (userId : UserId) (userType : string)
    (encryptionSecret : string) : SM unit :=
  handleFsError
    (let path := normalizePath path true in
     let! '(mount, subPath) := findMount path userId userType in
     let! s3Config := getS3Config mount in
     let! s3Client := newS3Client s3Config encryptionSecret in
     let s3SubPath := normalizeS3SubPath subPath s3Config true in
     (if (1 <? List.length (JS.filterBoolean (JS.split s3SubPath "/")))%nat
      then
        let parentPath := parentOfDirectory s3SubPath in
        let! parentExists :=
          checkDirectoryExists s3Client (bucket_name s3Config) parentPath in
        throwIf (negb parentExists)
          (HTTPException ApiStatus.CONFLICT "父目录不存在")
      else ret tt) ;;;
     tryCatch
       (send s3Client (HeadObjectCommand (bucket_name s3Config) s3SubPath) ;;;
        throw (HTTPException ApiStatus.CONFLICT "目录已存在"))
       (fun error =>
          if statusIs (metadataStatus error) 404 then
            send s3Client
              (PutObjectCommand (bucket_name s3Config) s3SubPath (CString "")
                 "application/x-directory" None) ;;;
            updateMountLastUsed (mount_id mount) ;;;
            (if negb (String.eqb subPath "/")
             then
               let parentSubPath := parentOfDirectory subPath in
               directoryCache_invalidatePathAndAncestors (mount_id mount)
                 parentSubPath ;;;
               ret tt
             else ret tt)
          else throw error))
    "创建目录失败".

(** ** [uploadFile] *)

(** The result of [uploadFile]: the parameters of a multipart upload to be
    carried out by the caller, or the report of a direct upload. *)
Inductive UploadResult :=
| UseMultipart (info : MultipartInfo)
| Uploaded (path name : string) (size : Z) (mimetype : string)
    (etag : option string) (fileId slug : string).

(** [generateFileId()] *)
Definition freshFileId : SM string :=
  fun w => Ret (generateFileId (w_nextId w)) (bumpId w).

(** [INSERT INTO files (...) VALUES (...)] *)
Definition insertFile (r : FileRow) : SM unit :=
  modify (fun w =>
    setDb (mkDB (db_mounts (w_db w)) (db_s3_configs (w_db w))
             (db_files (w_db w) ++ [r])) w).

(** [uploadFile(db, path, file, userId, userType, encryptionSecret, useMultipart)] *)
Definition uploadFile (path : string) (file : File) (userId : UserId)
    (userType : string) (encryptionSecret : string) (useMultipart : bool)
    : SM UploadResult :=
  handleFsError
    (if useMultipart then
       let! multipartInfo :=
         initializeMultipartUpload path
           (JS.orElse (file_type file) "application/octet-stream")
           (file_bytes file) userId userType encryptionSecret in
       ret (UseMultipart multipartInfo)
     else
       let! '(mount, subPath) := findMount path userId userType in
       let! s3Config := getS3Config mount in
       let! s3Client := newS3Client s3Config encryptionSecret in
       let s3SubPath := normalizeS3SubPath subPath s3Config true in
       let fileName := JS.orElse (file_name file) "unnamed_file" in
       let finalS3Path :=
         if JS.truthy s3SubPath && negb (String.eqb (JS.trim s3SubPath) "")
         then (if JS.endsWith s3SubPath "/" then s3SubPath else s3SubPath +:+ "/")
              +:+ fileName
         else JS.orElseOpt (root_prefix s3Config) ""
              +:+ JS.orElseOpt (default_folder s3Config) "" +:+ fileName in
       (if JS.includes finalS3Path "/"
        then
          let parentPath := upToLastSlash finalS3Path in
          let! parentExists :=
            checkDirectoryExists s3Client (bucket_name s3Config) parentPath in
          throwIf (negb parentExists)
            (HTTPException ApiStatus.CONFLICT "父目录不存在")
        else ret tt) ;;;
       let fileContent := file_arrayBuffer file in
       let mimetype := JS.orElse (file_type file) "application/octet-stream" in
       let! result :=
         send s3Client
           (PutObjectCommand (bucket_name s3Config) finalS3Path
              (CArrayBuffer fileContent) mimetype None) in
       updateMountLastUsed (mount_id mount) ;;;
       let s3Url := buildS3Url s3Config finalS3Path in
       let! fileId := freshFileId in
       let fileSlug := "M-" +:+ JS.substring fileId 0 5 in
       let! t := now in
       let now_ := getLocalTimeString t in
       insertFile
         (mkFileRow fileId fileName finalS3Path s3Url mimetype (file_bytes file)
            (s3_id s3Config) fileSlug (cleanETag (out_ETag result))
            (userType +:+ ":" +:+ user_key userId) now_ now_) ;;;
       (if negb (String.eqb subPath "/") && JS.includes subPath "/"
        then
          let parentSubPath := upToLastSlash subPath in
          directoryCache_invalidatePathAndAncestors (mount_id mount)
            parentSubPath ;;;
          ret tt
        else
          directoryCache_invalidate (mount_id mount) "/" ;;; ret tt) ;;;
       ret (Uploaded path
              (JS.orElseOpt (JS.pop (JS.filterBoolean (JS.split path "/")))
                 (file_name file))
              (file_bytes file) mimetype (cleanETag (out_ETag result))
              fileId fileSlug))
    "上传文件失败".

(** ** [removeItem] *)

(** [while (continuationToken)]: the token of the next page, if the loop
    goes on. *)
Definition nextToken (r : Output) : option string :=
  if out_IsTruncated r then
    match out_NextContinuationToken r with
    | Some t => if JS.truthy t then Some t else None
    | None => None
    end
  else None.

(** The inner loop of [deleteDirectory]: delete every listed object and
    record its key. *)
Fixpoint deleteObjects (client : S3Client) (bucket : string)
    (objects : list ListedObject) (deletedFiles : list string)
    : SM (list string) :=
  match objects with
  | [] => ret deletedFiles
  | object :: rest =>
      send client (DeleteObjectCommand bucket (lo_Key object)) ;;;
      deleteObjects client bucket rest (deletedFiles ++ [lo_Key object])
  end.

(** The [do ... while (continuationToken)] loop of [deleteDirectory].  The
    budget [fuel] bounds the number of pages; a run that exhausts it is a
    run of a loop that has not come to its end. *)
Fixpoint deleteDirectoryPages (fuel : nat) (client : S3Client)
    (bucket prefix : string) (continuationToken : option string)
    (isEmpty : bool) (deletedFiles : list string) : SM (bool * list string) :=
  match fuel with
  | O => fun _ => Diverge
  | S fuel' =>
      let! listResponse :=
        send client
          (ListObjectsV2Command bucket prefix None None continuationToken) in
      let! '(isEmpty, deletedFiles) :=
        if nonEmptyContents listResponse then
          let! deleted :=
            deleteObjects client bucket
              (default [] (out_Contents listResponse)) deletedFiles in
          ret (false, deleted)
        else ret (isEmpty, deletedFiles) in
      match nextToken listResponse with
      | Some token =>
          deleteDirectoryPages fuel' client bucket prefix (Some token)
            isEmpty deletedFiles
      | None => ret (isEmpty, deletedFiles)
      end
  end.

Fixpoint deleteFileRecords (s3ConfigId : string) (paths : list string)
    : SM unit :=
  match paths with
  | [] => ret tt
  | filePath :: rest =>
      modify (fun w =>
        setDb (snd (deleteFileRecordByStoragePath (w_db w) s3ConfigId filePath))
          w) ;;;
      deleteFileRecords s3ConfigId rest
  end.

(** [deleteDirectory(s3Client, bucketName, dirPath, db, s3ConfigId)] *)
Definition deleteDirectory (fuel : nat) (client : S3Client)
    (bucketName dirPath s3ConfigId : string) : SM unit :=
  let prefix := asPrefix dirPath in
  tryCatch
    (let! '(isEmpty, deletedFiles) :=
       deleteDirectoryPages fuel client bucketName prefix None true [] in
     throwIf isEmpty (HTTPException ApiStatus.NOT_FOUND "目录不存在或为空") ;;;
     if JS.truthy s3ConfigId && (0 <? List.length deletedFiles)%nat
     then tryCatch (deleteFileRecords s3ConfigId deletedFiles) (fun _ => ret tt)
     else ret tt)
    (fun error =>
       if isHTTPException error then throw error
       else throw (HTTPException ApiStatus.INTERNAL_ERROR
                     ("删除目录失败: " +:+ exnMessage error))).

(** [s.substring(0, s.lastIndexOf("/", isDirectory ? s.length - 2 : s.length - 1) + 1)] *)
Definition parentSubPathOf (s : string) (isDirectory : bool) : string :=
  JS.substring s 0
    (JS.lastIndexOf s "/"
       (if isDirectory then JS.length s - 2 else JS.length s - 1) + 1).

(** The cache refresh that ends [removeItem] and, for each of its two
    paths, [renameItem]. *)
Definition refreshParent (mountId subPath : string) (isDirectory : bool)
    : SM unit :=
  if negb (String.eqb subPath "/") && JS.includes subPath "/"
  then
    directoryCache_invalidatePathAndAncestors mountId
      (parentSubPathOf subPath isDirectory) ;;;
    ret tt
  else if negb isDirectory
  then directoryCache_invalidate mountId "/" ;;; ret tt
  else ret tt.

(** [removeItem(db, path, userId, userType, encryptionSecret)] *)
Definition removeItem (fuel : nat) (path : string) (userId : UserId)
    (userType : string) (encryptionSecret : string) : SM unit :=
  handleFsError
    (let! '(mount, subPath) := findMount path userId userType in
     let! s3Config := getS3Config mount in
     let! s3Client := newS3Client s3Config encryptionSecret in
     let isDirectory := JS.endsWith path "/" in
     let s3SubPath := normalizeS3SubPath subPath s3Config isDirectory in
     (if isDirectory
      then
        deleteDirectory fuel s3Client (bucket_name s3Config) s3SubPath
          (storage_config_id mount) ;;;
        directoryCache_invalidate (mount_id mount) subPath ;;;
        ret tt
      else
        tryCatch
          (send s3Client (DeleteObjectCommand (bucket_name s3Config) s3SubPath) ;;;
           ret tt)
          (fun error =>
             if statusIs (metadataStatus error) 404
             then throw (HTTPException ApiStatus.NOT_FOUND "文件不存在")
             else throw error)) ;;;
     tryCatch
       (modify (fun w =>
          setDb
            (snd (deleteFileRecordByStoragePath (w_db w)
                    (storage_config_id mount) s3SubPath))
            w))
       (fun _ => ret tt) ;;;
     updateMountLastUsed (mount_id mount) ;;;
     refreshParent (mount_id mount) subPath isDirectory)
    "删除失败".

(** ** [renameItem] *)

(** The inner loop of [renameDirectory]: copy each listed object under the
    new prefix and delete the original. *)
Fixpoint moveObjects (client : S3Client) (bucket oldPrefix newPrefix : string)
    (objects : list ListedObject) : SM unit :=
  match objects with
  | [] => ret tt
  | object :: rest =>
      let sourceKey := lo_Key object in
      let targetKey := stringReplace sourceKey oldPrefix newPrefix in
      send client
        (CopyObjectCommand bucket
           (encodeURIComponent (bucket +:+ "/" +:+ sourceKey)) targetKey) ;;;
      send client (DeleteObjectCommand bucket sourceKey) ;;;
      moveObjects client bucket oldPrefix newPrefix rest
  end.

(** The [do ... while (continuationToken)] loop of [renameDirectory]. *)
Fixpoint renameDirectoryPages (fuel : nat) (client : S3Client)
    (bucket oldPrefix newPrefix : string) (continuationToken : option string)
    (isEmpty : bool) : SM bool :=
  match fuel with
  | O => fun _ => Diverge
  | S fuel' =>
      let! listResponse :=
        send client
          (ListObjectsV2Command bucket oldPrefix None None continuationToken) in
      let! isEmpty :=
        if nonEmptyContents listResponse then
          moveObjects client bucket oldPrefix newPrefix
            (default [] (out_Contents listResponse)) ;;;
          ret false
        else ret isEmpty in
      match nextToken listResponse with
      | Some token =>
          renameDirectoryPages fuel' client bucket oldPrefix newPrefix
            (Some token) isEmpty
      | None => ret isEmpty
      end
  end.

(** [renameDirectory(s3Client, bucketName, oldPath, newPath)] *)
Definition renameDirectory (fuel : nat) (client : S3Client)
    (bucketName oldPath newPath : string) : SM unit :=
  let oldPrefix := asPrefix oldPath in
  let newPrefix := asPrefix newPath in
  tryCatch
    (let! isEmpty :=
       renameDirectoryPages fuel client bucketName oldPrefix newPrefix None
         true in
     throwIf isEmpty (HTTPException ApiStatus.NOT_FOUND "源目录不存在或为空"))
    (fun error =>
       if isHTTPException error then throw error
       else throw (HTTPException ApiStatus.INTERNAL_ERROR
                     ("重命名目录失败: " +:+ exnMessage error))).

(** The existence test of the target in [renameItem].  The handler throws
    again only an error that has [$metadata] with a status other than 404,
    so the conflict raised in the [try] block does not leave the block. *)
Definition probeTarget (client : S3Client) (bucket key : string) : SM unit :=
  tryCatch
    (send client (HeadObjectCommand bucket key) ;;;
     throw (HTTPException ApiStatus.CONFLICT "目标路径已存在"))
    (fun error =>
       if hasMetadata error && negb (statusIs (metadataStatus error) 404)
       then throw error
       else ret tt).

(** [renameItem(db, oldPath, newPath, userId, userType, encryptionSecret)] *)
Definition renameItem (fuel : nat) (oldPath newPath : string) (userId : UserId)
    (userType : string) (encryptionSecret : string) : SM unit :=
  handleFsError
    (let oldIsDirectory := JS.endsWith oldPath "/" in
     let newIsDirectory := JS.endsWith newPath "/" in
     throwIf (negb (Bool.eqb oldIsDirectory newIsDirectory))
       (HTTPException ApiStatus.BAD_REQUEST
          "源路径和目标路径类型必须一致（文件或目录）") ;;;
     let! '(oldMount, oldSubPath) := findMount oldPath userId userType in
     let! '(newMount, newSubPath) := findMount newPath userId userType in
     throwIf (negb (String.eqb (mount_id oldMount) (mount_id newMount)))
       (HTTPException ApiStatus.BAD_REQUEST
          "不支持跨挂载点重命名，请使用复制和删除操作") ;;;
     let mount := oldMount in
     let! s3Config := getS3Config mount in
     let! s3Client := newS3Client s3Config encryptionSecret in
     let s3OldPath := normalizeS3SubPath oldSubPath s3Config oldIsDirectory in
     let s3NewPath := normalizeS3SubPath newSubPath s3Config newIsDirectory in
     (if JS.includes s3NewPath "/"
      then
        let parentPath := upToLastSlash s3NewPath in
        let! parentExists :=
          checkDirectoryExists s3Client (bucket_name s3Config) parentPath in
        throwIf (negb parentExists)
          (HTTPException ApiStatus.CONFLICT "目标父目录不存在")
      else ret tt) ;;;
     probeTarget s3Client (bucket_name s3Config) s3NewPath ;;;
     (if oldIsDirectory
      then
        renameDirectory fuel s3Client (bucket_name s3Config) s3OldPath s3NewPath ;;;
        directoryCache_invalidate (mount_id mount) oldSubPath ;;;
        directoryCache_invalidate (mount_id mount) newSubPath ;;;
        ret tt
      else
        send s3Client
          (CopyObjectCommand (bucket_name s3Config)
             (encodeURIComponent (bucket_name s3Config +:+ "/" +:+ s3OldPath))
             s3NewPath) ;;;
        send s3Client (DeleteObjectCommand (bucket_name s3Config) s3OldPath) ;;;
        ret tt) ;;;
     updateMountLastUsed (mount_id mount) ;;;
     refreshParent (mount_id mount) oldSubPath oldIsDirectory ;;;
     refreshParent (mount_id mount) newSubPath newIsDirectory)
    "重命名失败".

(** ** [batchRemoveItems] *)

Record BatchResult := mkBatchResult {
  br_success : Z;
  br_failed : list (string * string)
}.

(** [error instanceof HTTPException ? error.message : error.message || d] *)
Definition failureText (error : Exn) : string :=
  if isHTTPException error then exnMessage error
  else JS.orElse (exnMessage error) "未知错误".

(** The body of the [for] loop of [batchRemoveItems], from the result so
    far. *)
Fixpoint batchRemoveLoop (fuel : nat) (paths : list string) (userId : UserId)
    (userType : string) (encryptionSecret : string) (result : BatchResult)
    : SM BatchResult :=
  match paths with
  | [] => ret result
  | path :: rest =>
      let! result :=
        tryCatch
          (removeItem fuel path userId userType encryptionSecret ;;;
           ret (mkBatchResult (br_success result + 1) (br_failed result)))
          (fun error =>
             ret (mkBatchResult (br_success result)
                    (br_failed result ++ [(path, failureText error)]))) in
      batchRemoveLoop fuel rest userId userType encryptionSecret result
  end.

(** [batchRemoveItems(db, paths, userId, userType, encryptionSecret)] *)
Definition batchRemoveItems (fuel : nat) (paths : list string) (userId : UserId)
    (userType : string) (encryptionSecret : string) : SM BatchResult :=
  batchRemoveLoop fuel paths userId userType encryptionSecret
    (mkBatchResult 0 []).

(** ** [updateFile] *)

Definition MAX_FILE_SIZE : Z := 10 * 1024 * 1024.

Record UpdateResult := mkUpdateResult {
  ur_path : string;
  ur_etag : option string;
  ur_contentType : string;
  ur_isNewFile : bool
}.

(** The size test at the head of [updateFile]. *)
Definition contentTooLarge (content : Content) : bool :=
  match content with
  | CString s => JS.length s >? MAX_FILE_SIZE
  | CArrayBuffer b => byteLength b >? MAX_FILE_SIZE
  | _ => false
  end.

(** The file name that [updateFile] classifies: [path.split("/").pop()]. *)
Definition updatedFileName (path : string) : string :=
  default "" (JS.pop (JS.split path "/")).

(** The classification of the content in [updateFile]: the MIME type under
    which the content is stored, unless the group is the executable one. *)
Definition classifyUpdate (fileName default_ : string)
    (originalMetadata : option Output) : SM string :=
  let '(mimeType, mimeGroup) :=
    getMimeTypeAndGroupFromFile fileName
      (match originalMetadata with
       | Some r => JS.orElseOpt (out_ContentType r) default_
       | None => default_
       end) in
  throwIf (String.eqb mimeGroup MIME_GROUPS_EXECUTABLE)
    (HTTPException ApiStatus.FORBIDDEN "不允许更新可执行文件类型") ;;;
  ret mimeType.

(** The [try] block of [updateFile]. *)
Definition updateBody (path : string) (content : Content) (mount : Mount)
    (subPath : string) (s3Config : S3Config) (s3Client : S3Client)
    (s3SubPath : string) : SM UpdateResult :=
  let fileName := updatedFileName path in
  let! originalMetadata :=
    tryCatch
      (let! r :=
         send s3Client (HeadObjectCommand (bucket_name s3Config) s3SubPath) in
       ret (Some r))
      (fun _ => ret None) in
  let! contentType :=
    match content with
    | CString _ => classifyUpdate fileName "text/plain" originalMetadata
    | CArrayBuffer _ | CUint8Array _ =>
        classifyUpdate fileName "application/octet-stream" originalMetadata
    | COther => throw (HTTPException ApiStatus.BAD_REQUEST "不支持的内容格式")
    end in
  let metadata :=
    match originalMetadata with
    | Some r => out_Metadata r
    | None => None
    end in
  let! result :=
    send s3Client
      (PutObjectCommand (bucket_name s3Config) s3SubPath content contentType
         metadata) in
  (if 0 <? cache_ttl mount then
     if negb (String.eqb subPath "/") && JS.includes subPath "/"
     then
       directoryCache_invalidatePathAndAncestors (mount_id mount)
         (upToLastSlash subPath) ;;;
       ret tt
     else ret tt
   else ret tt) ;;;
  ret (mkUpdateResult path (cleanETag (out_ETag result)) contentType
         (match originalMetadata with Some _ => false | None => true end)).

(** The [catch] block of [updateFile]: the errors of the endpoint with a
    status of 404, 403 or 413 are translated, any other error is thrown
    again. *)
Definition updateErrors (error : Exn) : SM UpdateResult :=
  if hasMetadata error && statusIs (metadataStatus error) 404 then
    throw (HTTPException ApiStatus.NOT_FOUND "文件不存在")
  else if hasMetadata error && statusIs (metadataStatus error) 403 then
    throw (HTTPException ApiStatus.FORBIDDEN "没有权限更新该文件")
  else if hasMetadata error && statusIs (metadataStatus error) 413 then
    throw (HTTPException ApiStatus.BAD_REQUEST "文件内容过大")
  else throw error.

(** [updateFile(db, path, content, userId, userType, encryptionSecret)] *)
Definition updateFile (path : string) (content : Content) (userId : UserId)
    (userType : string) (encryptionSecret : string) : SM UpdateResult :=
  handleFsError
    (throwIf (contentTooLarge content)
       (HTTPException ApiStatus.BAD_REQUEST "文件内容过大，超过最大限制(10MB)") ;;;
     let! '(mount, subPath) := findMount path userId userType in
     let! s3Config := getS3Config mount in
     let! s3Client := newS3Client s3Config encryptionSecret in
     let s3SubPath := normalizeS3SubPath subPath s3Config false in
     updateMountLastUsed (mount_id mount) ;;;
     tryCatch
       (updateBody path content mount subPath s3Config s3Client s3SubPath)
       updateErrors)
    "更新文件失败".

End Service.
(* ===================================================================== *)
(** * The file-system service: reading files *)
(* ===================================================================== *)

(** A [Response]: the status, the headers in the order of the object
    literal they come from, and the body. *)
Record Response := mkResponse {
  resp_status : Z;
  resp_headers : list (string * string);
  resp_body : option BodyStream
}.

(** The double-quote code unit. *)
Definition quote : string := String (ascii_of_N 34) EmptyString.

(** The decimal digits of a natural number, most significant first; the
    budget bounds the number of digits. *)
Fixpoint digitsOf (budget : nat) (n : Z) (acc : string) : string :=
  match budget with
  | O => acc
  | S budget' =>
      let acc' := String (ascii_of_N (48 + Z.to_N (n mod 10))) acc in
      if n <? 10 then acc' else digitsOf budget' (n / 10) acc'
  end.

(** [String(n)] for an integer. *)
Definition numberToString (n : Z) : string :=
  if n <? 0
  then "-" +:+ digitsOf (S (Z.to_nat (Z.log2 (- n)))) (- n) ""
  else digitsOf (S (Z.to_nat (Z.log2 n))) n "".

(** The functions that the reading operations import and that are not
    part of the sources at hand: the formatting of dates, and the signing
    of a URL, which is a computation of the client library. *)
Class ReadHelpers := {
  toUTCString : Z -> string;
  generatePresignedUrl : S3Config -> string -> string -> Z -> bool -> Exn + string
}.

(** [headers[name] = value] on an object literal: the value of a name that
    is there is replaced in place, a new name goes to the end. *)
Fixpoint setHeader (name value : string) (headers : list (string * string))
    : list (string * string) :=
  match headers with
  | [] => [(name, value)]
  | (n, v) :: rest =>
      if String.eqb n name then (n, value) :: rest
      else (n, v) :: setHeader name value rest
  end.

(** [headers[name]] *)
Fixpoint getHeader (name : string) (headers : list (string * string))
    : option string :=
  match headers with
  | [] => None
  | (n, v) :: rest => if String.eqb n name then Some v else getHeader name rest
  end.

Section ServiceReads.

Context {Hb : S3Backend} {Hs : Helpers} {Hr : ReadHelpers}.

(** The word for the operation in the messages of [getFileFromS3]. *)
Definition readingWord (isPreview : bool) : string :=
  if isPreview then "预览" else "下载".

(** The template literal that makes the [Content-Disposition] header. *)
Definition contentDispositionOf (fileName : string) (isPreview : bool) : string :=
  (if isPreview then "inline" else "attachment") +:+ "; filename=" +:+ quote
  +:+ encodeURIComponent fileName +:+ quote.

(** The headers of the response of [getFileFromS3]. *)
Definition responseHeaders (response : Output) (contentDisposition : string)
    : list (string * string) :=
  let headers :=
    [("Content-Type",
      JS.orElseOpt (out_ContentType response) "application/octet-stream");
     ("Content-Disposition", contentDisposition);
     ("Cache-Control", "private, max-age=0");
     ("Access-Control-Allow-Origin", "*");
     ("Access-Control-Allow-Methods", "GET, OPTIONS");
     ("Access-Control-Allow-Headers",
      "Range, Content-Type, Content-Length, Authorization");
     ("Access-Control-Allow-Credentials", "true");
     ("Access-Control-Expose-Headers",
      "Content-Length, Content-Type, Content-Disposition, ETag")] in
  let headers :=
    match out_ContentLength response with
    | Some n => setHeader "Content-Length" (numberToString n) headers
    | None => headers
    end in
  let headers :=
    match out_LastModified response with
    | Some t => setHeader "Last-Modified" (toUTCString t) headers
    | None => headers
    end in
  match out_ETag response with
  | Some e => if JS.truthy e then setHeader "ETag" e headers else headers
  | None => headers
  end.

(** [getFileFromS3(s3Config, s3SubPath, fileName, isPreview, encryptionSecret)] *)
Definition getFileFromS3 (s3Config : S3Config) (s3SubPath fileName : string)
    (isPreview : bool) (encryptionSecret : string) : SM Response :=
  let contentDisposition := contentDispositionOf fileName isPreview in
  tryCatch
    (let! s3Client := newS3Client s3Config encryptionSecret in
     let! response :=
       send s3Client (GetObjectCommand (bucket_name s3Config) s3SubPath None) in
     ret (mkResponse 200 (responseHeaders response contentDisposition)
            (out_Body response)))
    (fun error =>
       if hasMetadata error && statusIs (metadataStatus error) 404
       then throw (HTTPException ApiStatus.NOT_FOUND "文件不存在")
       else if hasMetadata error && statusIs (metadataStatus error) 403
       then throw (HTTPException ApiStatus.FORBIDDEN "没有权限访问该文件")
       else
         throw (HTTPException ApiStatus.INTERNAL_ERROR
                  (readingWord isPreview +:+ "文件失败: "
                   +:+ JS.orElse (exnMessage error) "未知错误"))).

(** The body that [previewFile] and [downloadFile] share. *)
Definition readFile (isPreview : bool) (path : string) (userId : UserId)
    (userType : string) (encryptionSecret : string) : SM Response :=
  let! '(mount, subPath) := findMount path userId userType in
  let! s3Config := getS3Config mount in
  let s3SubPath := normalizeS3SubPath subPath s3Config false in
  updateMountLastUsed (mount_id mount) ;;;
  let fileName := lastSegmentOr path "file" in
  getFileFromS3 s3Config s3SubPath fileName isPreview encryptionSecret.

(** [previewFile(db, path, userId, userType, encryptionSecret)] *)
Definition previewFile (path : string) (userId : UserId) (userType : string)
    (encryptionSecret : string) : SM Response :=
  handleFsError (readFile true path userId userType encryptionSecret)
    "预览文件失败".

(** [downloadFile(db, path, userId, userType, encryptionSecret)] *)
Definition downloadFile (path : string) (userId : UserId) (userType : string)
    (encryptionSecret : string) : SM Response :=
  handleFsError (readFile false path userId userType encryptionSecret)
    "下载文件失败".



End ServiceReads.

(* ===================================================================== *)
(** * An in-memory S3 endpoint *)
(* ===================================================================== *)

(** The endpoint against which the scenarios run: buckets of objects, and a
    table of injected faults for the quirks of providers.  It answers HEAD,
    GET, PUT, DELETE and paged listings; it does not implement CopyObject. *)

Record S3Object := mkS3Object {
  obj_body : Content;
  obj_contentType : string;
  obj_metadata : option Metadata
}.

Record FakeS3 := mkFakeS3 {
  fk_objects : gmap (string * string) S3Object;
  fk_fault : Command -> option Exn
}.

Definition contentSize (c : Content) : Z :=
  match c with
  | CString s => JS.length s
  | CArrayBuffer b | CUint8Array b => byteLength b
  | COther => 0
  end.

Definition fakeETag : string := "d41d8cd98f00b204e9800998ecf8427e".

Definition headOutput (o : S3Object) : Output :=
  mkOutput (Some (obj_contentType o)) (Some (contentSize (obj_body o))) (Some 0)
    (Some fakeETag) (obj_metadata o) None None None false None.

Definition getOutput (o : S3Object) : Output :=
  mkOutput (Some (obj_contentType o)) (Some (contentSize (obj_body o))) (Some 0)
    (Some fakeETag) (obj_metadata o)
    (Some (mkBodyStream true false false false false)) None None false None.

(** The keys of a bucket, in order. *)
Definition bucketKeys (st : FakeS3) (bucket : string) : list string :=
  merge_sort String.le
    (omap (fun '((b, k), _) => if String.eqb b bucket then Some k else None)
       (map_to_list (fk_objects st))).

(** The keys of a page: those with the prefix, after the token. *)
Definition matchingKeys (st : FakeS3) (bucket prefix : string)
    (token : option string) : list string :=
  List.filter
    (fun k =>
       JS.startsWith k prefix
       && match token with
          | Some t => String.ltb t k
          | None => true
          end)
    (bucketKeys st bucket).

(** The part of a string up to and including the first [d], if [d] occurs. *)
Fixpoint cutAt (d : ascii) (s : string) : option string :=
  match s with
  | EmptyString => None
  | String c s' =>
      if Ascii.eqb c d then Some (String c EmptyString)
      else option_map (String c) (cutAt d s')
  end.

Definition rollUp (prefix : string) (delimiter : option string) (k : string)
    : option string :=
  match delimiter with
  | Some (String d EmptyString) =>
      option_map (fun cut => prefix +:+ cut)
        (cutAt d (JS.drop (String.length prefix) k))
  | _ => None
  end.

Fixpoint dedup (l : list string) : list string :=
  match l with
  | [] => []
  | x :: rest => if bool_decide (x ∈ rest) then dedup rest else x :: dedup rest
  end.

Definition someIfNonEmpty {A} (l : list A) : option (list A) :=
  match l with
  | [] => None
  | _ => Some l
  end.

Definition listOutput (st : FakeS3) (bucket prefix : string)
    (delimiter : option string) (maxKeys : option Z) (token : option string)
    : Output :=
  let all := matchingKeys st bucket prefix token in
  let n := Z.to_nat (default 1000 maxKeys) in
  let page := List.firstn n all in
  let contents :=
    omap (fun k =>
            match rollUp prefix delimiter k with
            | Some _ => None
            | None =>
                match fk_objects st !! (bucket, k) with
                | Some o =>
                    Some (mkListedObject k (Some (contentSize (obj_body o)))
                            (Some 0) (Some fakeETag))
                | None => None
                end
            end) page in
  let prefixes := dedup (omap (rollUp prefix delimiter) page) in
  mkOutput None None None None None None
    (someIfNonEmpty contents)
    (someIfNonEmpty (List.map Some prefixes))
    (n <? List.length all)%nat
    (if (n <? List.length all)%nat then last page else None).

Definition fakeSend (client : unit) (c : Command) (st : FakeS3)
    : (Exn + Output) * FakeS3 :=
  match fk_fault st c with
  | Some e => (inl e, st)
  | None =>
      match c with
      | HeadObjectCommand b k =>
          match fk_objects st !! (b, k) with
          | Some o => (inr (headOutput o), st)
          | None => (inl (S3Error 404 "NotFound" "NotFound"), st)
          end
      | GetObjectCommand b k _ =>
          match fk_objects st !! (b, k) with
          | Some o => (inr (getOutput o), st)
          | None =>
              (inl (S3Error 404 "NoSuchKey" "The specified key does not exist."),
               st)
          end
      | PutObjectCommand b k body contentType meta =>
          (inr (mkOutput None None None (Some fakeETag) None None None None
                  false None),
           mkFakeS3 (<[(b, k) := mkS3Object body contentType meta]> (fk_objects st))
             (fk_fault st))
      | DeleteObjectCommand b k =>
          (inr emptyOutput,
           mkFakeS3 (delete (b, k) (fk_objects st)) (fk_fault st))
      | CopyObjectCommand _ _ _ =>
          (inl (S3Error 501 "NotImplemented" "CopyObject is not implemented"),
           st)
      | ListObjectsV2Command b prefix delimiter maxKeys token =>
          (inr (listOutput st b prefix delimiter maxKeys token), st)
      end
  end.

#[global] Instance FakeBackend : S3Backend := {|
  S3State := FakeS3;
  S3Client := unit;
  s3_send := fakeSend
|}.

Definition noFault : Command -> option Exn := fun _ => None.

(* ===================================================================== *)
(** * A deployment for the scenarios *)
(* ===================================================================== *)

(** One bucket [b], one mount [/docs] on it.  The helpers of the deployment
    stand for the absent modules: paths are resolved with the loop of
    [listDirectory]; a sub-path becomes a key by dropping its leading slash
    (and gaining a trailing one for a directory); files named [*.exe] are
    in the executable group. *)

Definition demoMount : Mount :=
  mkMount "m1" "docs" "/docs" "S3" "cfg1" 60 true "admin1" None None None.

Definition otherMount : Mount :=
  mkMount "m2" "media" "/media" "S3" "cfg1" 60 true "admin1" None None None.

Definition demoConfig : S3Config :=
  mkS3Config "cfg1" "b" None None "https://s3.example.com" "auto" "Other".

Definition demoDB : DB := mkDB [demoMount; otherMount] [demoConfig] [].

Definition admin1 : UserId := mkUserId "admin1" [].

Definition demoFindMountPointByPath (db : DB) (path : string) (userId : UserId)
    (userType : string) : MountResult :=
  match candidateMounts db userId userType with
  | None => MountError ApiStatus.UNAUTHORIZED "未授权访问"
  | Some mounts =>
      match matchMount (sortByPathLengthDesc mounts)
              (if JS.startsWith path "/" then path else "/" +:+ path) with
      | Some (m, sub) => MountFound m sub
      | None => MountError ApiStatus.NOT_FOUND "挂载点不存在"
      end
  end.

Definition demoNormalizeS3SubPath (subPath : string) (c : S3Config)
    (asDirectory : bool) : string :=
  let s := if JS.startsWith subPath "/" then JS.drop 1 subPath else subPath in
  if asDirectory && JS.truthy s && negb (JS.endsWith s "/") then s +:+ "/"
  else s.

Definition demoMimeTypeAndGroup (filename mimetype : string) : string * string :=
  if JS.endsWith filename ".exe"
  then ("application/x-msdownload", "executable")
  else (mimetype, "unknown").

(** The first occurrence of a pattern replaced, without the dollar patterns
    of [String.prototype.replace]. *)
Fixpoint replaceFirst (s pattern replacement : string) : string :=
  if String.prefix pattern s
  then replacement +:+ JS.drop (String.length pattern) s
  else match s with
       | EmptyString => EmptyString
       | String c s' => String c (replaceFirst s' pattern replacement)
       end.

#[global] Instance demoHelpers : @Helpers FakeBackend := {|
  findMountPointByPath := demoFindMountPointByPath;
  normalizeS3SubPath := demoNormalizeS3SubPath;
  createS3Client := fun _ _ => inr tt;
  buildS3Url := fun c key => endpoint_url c +:+ "/" +:+ bucket_name c +:+ "/" +:+ key;
  generateFileId := fun n => "f0a1b2c3d4e5-" +:+ String.concat "" (List.repeat "i" n);
  getLocalTimeString := fun _ => "2025-01-01 00:00:00";
  getMimeTypeAndGroupFromFile := demoMimeTypeAndGroup;
  MIME_GROUPS_EXECUTABLE := "executable";
  encodeURIComponent := fun s => s;
  stringReplace := replaceFirst;
  initializeMultipartUpload := fun path _ _ _ _ _ =>
    ret (mkMultipartInfo "upload-1" path (5 * 1024 * 1024) "b" path "m1" "S3")
|}.

Definition directoryObject : S3Object :=
  mkS3Object (CString "") "application/x-directory" None.

(** The bucket holds the directory [a/]. *)
Definition demoS3 : FakeS3 :=
  mkFakeS3 {[ ("b", "a/") := directoryObject ]} noFault.

Definition demoWorld : World := mkWorld demoDB demoS3 ∅ [] 1000 0.

(** ** Observations on the in-memory endpoint *)

(** The number of objects held by the endpoint. *)
Definition storeSize (w : World) : nat := size (fk_objects (w_s3 w)).

(** An endpoint without injected faults. *)
Definition faultless (st : FakeS3) : Prop := forall c, fk_fault st c = None.


(** A directory exists on the endpoint when its placeholder is there or
    some key has it as a prefix. *)
Definition fakeDirectoryExists (st : FakeS3) (bucket dir : string) : bool :=
  bool_decide (is_Some (fk_objects st !! (bucket, dir)))
  || match matchingKeys st bucket dir None with
     | [] => false
     | _ :: _ => true
     end.

Definition isPut (c : Command) : bool :=
  match c with
  | PutObjectCommand _ _ _ _ _ => true
  | _ => false
  end.

(** A run on the endpoint that came to an end without adding an object. *)
Definition storeBounded {A} (n : nat) (o : Outcome World A) : Prop :=
  match o with
  | Ret _ w' | Throw _ w' => (storeSize w' <= n)%nat
  | Diverge => False
  end.

(** A computation that, from a world with fewer than [fuel] objects, comes
    to an end without adding an object. *)
Definition safe {A} (fuel : nat) (m : SM A) : Prop :=
  forall w, (storeSize w < fuel)%nat -> storeBounded (storeSize w) (m w).



(* ===================================================================== *)
(** * Observations on runs of the service *)
(* ===================================================================== *)

Section Observations.

Context {Hb : S3Backend}.

(** A run from [w] that came to an end and only added to the commands
    sent. *)
Definition growsFrom {A} (w : World) (o : Outcome World A) : Prop :=
  match o with
  | Ret _ w' | Throw _ w' =>
      exists rest, sentCommands w' = sentCommands w ++ rest
  | Diverge => False
  end.

(** A run from [w] that came to an end and whose first command was [c]. *)
Definition beginsWith {A} (c : Command) (w : World) (o : Outcome World A)
    : Prop :=
  match o with
  | Ret _ w' | Throw _ w' =>
      exists rest, sentCommands w' = sentCommands w ++ c :: rest
  | Diverge => False
  end.

(** A computation all of whose runs come to an end and only add to the
    commands sent. *)
Definition growing {A} (m : SM A) : Prop := forall w, growsFrom w (m w).

(** A computation that, from a world in [I], comes to an end in [I]. *)
Definition endsWithin {A} (I : World -> Prop) (m : SM A) : Prop :=
  forall w, I w ->
    match m w with
    | Ret _ w' | Throw _ w' => I w'
    | Diverge => False
    end.

(** A computation that leaves an observation [f] of the world as it was,
    whatever its outcome. *)
Definition keeps {X A} (f : World -> X) (m : SM A) : Prop :=
  forall w,
    match m w with
    | Ret _ w' | Throw _ w' => f w' = f w
    | Diverge => True
    end.

(** The directory cache between two worlds only lost entries whose key
    satisfies [P]; every other entry is what it was. *)
Definition cacheDrops (P : string * string -> Prop) (w w' : World) : Prop :=
  forall k,
    w_cache w' !! k = w_cache w !! k \/ (P k /\ w_cache w' !! k = None).

(** A computation that, whatever its outcome, only drops entries whose key
    satisfies [P]. *)
Definition dropsOnly {A} (P : string * string -> Prop) (m : SM A) : Prop :=
  forall w,
    match m w with
    | Ret _ w' | Throw _ w' => cacheDrops P w w'
    | Diverge => True
    end.

End Observations.

(** The key of a directory: its path is empty or ends in a slash. *)
Definition directoryKey (k : string * string) : Prop :=
  snd k = "" \/ JS.endsWith (snd k) "/" = true.

(** A key whose path is shorter than [s]. *)
Definition shorterKey (s : string) (k : string * string) : Prop :=
  (String.length (snd k) < String.length s)%nat.


(** ** The virtual listing *)






(** ** Mutations and the directories above a path *)

(** [a] is a directory strictly above the path [s]: a proper prefix of [s]
    that ends in a slash. *)
Definition isAncestorDirectory (a s : string) : Prop :=
  JS.endsWith a "/" = true /\ String.prefix a s = true /\ a <> s.

(** The mutations of the service.  An upload is the direct upload (the
    multipart mode only prepares an upload and stores nothing). *)
Inductive Mutation :=
| MUploadFile (path : string) (file : File)
| MCreateDirectory (path : string)
| MRemoveItem (path : string)
| MRenameItem (oldPath newPath : string)
| MUpdateFile (path : string) (content : Content).

(** The paths that a mutation hands to [findMountPointByPath]. *)
Definition mutationPaths (mu : Mutation) : list string :=
  match mu with
  | MUploadFile path _ | MRemoveItem path | MUpdateFile path _ => [path]
  | MCreateDirectory path => [normalizePath path true]
  | MRenameItem oldPath newPath => [oldPath; newPath]
  end.

(** Whether a mutation that resolved a path to the sub-path [s] under the
    mount [m] invalidates the entry of [s] itself.  The removal and the
    renaming of a directory do; the mutations that invalidate from the path
    up to the last slash of [s] do when [s] ends in a slash (an update only
    for a mount that caches and a sub-path other than the root); the
    creation of a directory starts at the parent and never does. *)
Definition clearsSelf (mu : Mutation) (m : Mount) (s : string) : bool :=
  match mu with
  | MUploadFile _ _ => JS.endsWith s "/"
  | MCreateDirectory _ => false
  | MRemoveItem path => JS.endsWith path "/" || JS.endsWith s "/"
  | MRenameItem oldPath _ => JS.endsWith oldPath "/" || JS.endsWith s "/"
  | MUpdateFile _ _ =>
      (0 <? cache_ttl m) && JS.endsWith s "/" && negb (String.eqb s "/")
  end.

Definition isUpdate (mu : Mutation) : bool :=
  match mu with
  | MUpdateFile _ _ => true
  | _ => false
  end.

Section Mutations.

Context {Hb : S3Backend} {Hs : Helpers}.

Definition runMutation (fuel : nat) (mu : Mutation) (userId : UserId)
    (userType secret : string) : SM unit :=
  match mu with
  | MUploadFile path file =>
      uploadFile path file userId userType secret false ;;; ret tt
  | MCreateDirectory path => createDirectory path userId userType secret
  | MRemoveItem path => removeItem fuel path userId userType secret
  | MRenameItem oldPath newPath =>
      renameItem fuel oldPath newPath userId userType secret
  | MUpdateFile path content =>
      updateFile path content userId userType secret ;;; ret tt
  end.

(** No entry appears in the cache between two worlds. *)
Definition cacheShrinks (w w' : World) : Prop :=
  forall k, w_cache w !! k = None -> w_cache w' !! k = None.

End Mutations.

(** The content kinds that [updateFile] accepts. *)
Definition acceptedContent (c : Content) : bool :=
  match c with
  | COther => false
  | _ => true
  end.
(* ===================================================================== *)
(** * More observations *)
(* ===================================================================== *)

Section MoreObservations.

Context {Hb : S3Backend}.

(** A computation whose only exceptions are [HTTPException]s. *)
Definition throwsOnlyHttp {A} (m : SM A) : Prop :=
  forall w e w', m w = Throw e w' -> isHTTPException e = true.

End MoreObservations.

Section MoreWorlds.

Context {Hb : S3Backend}.


(** A computation that leaves the directory cache as it was. *)
Definition keepsCache {A} (m : SM A) : Prop := keeps w_cache m.

(** What the endpoint and the log of effects do not reach: the database,
    the cache, the clock and the supply of identifiers. *)
Definition beyondEndpoint (w : World) : DB * Cache * Z * nat :=
  (w_db w, w_cache w, w_now w, w_nextId w).

End MoreWorlds.


(** The two commands that move one object of a directory: the copy under
    the new prefix, then the deletion of the original. *)
Definition moveCommands {Hb : S3Backend} {Hs : Helpers}
    (bucket oldPrefix newPrefix : string) (object : ListedObject)
    : list Command :=
  [CopyObjectCommand bucket
     (encodeURIComponent (bucket +:+ "/" +:+ lo_Key object))
     (stringReplace (lo_Key object) oldPrefix newPrefix);
   DeleteObjectCommand bucket (lo_Key object)].

Section QuietRuns.

Context {Hb : S3Backend}.

(** A computation that always returns and does not reach the endpoint:
    the state of the endpoint and the log of effects are as they were. *)
Definition quiet {A} (m : SM A) : Prop :=
  forall w, exists a w',
    m w = Ret a w' /\ w_s3 w' = w_s3 w /\ w_effects w' = w_effects w.

End QuietRuns.

(** The store of the in-memory endpoint without some keys of a bucket. *)
Definition removeKeys (bucket : string) (keys : list string)
    (objects : gmap (string * string) S3Object)
    : gmap (string * string) S3Object :=
  List.fold_left (fun m k => delete (bucket, k) m) keys objects.

(** The status of an [HTTPException]. *)
Definition exnStatus (e : Exn) : option Z :=
  match e with
  | HTTPException status _ => Some status
  | JsError _ _ _ => None
  end.

(** The headers of a response other than [Content-Disposition]. *)
Definition otherThanDisposition (headers : list (string * string))
    : list (string * string) :=
  List.filter (fun h => negb (String.eqb (fst h) "Content-Disposition")) headers.
(* ===================================================================== *)
(** * Scenarios *)
(* ===================================================================== *)

(** The world in which a run ended. *)
Definition finalWorld {Hb : S3Backend} {A} (o : Outcome World A) (d : World)
    : World :=
  match o with
  | Ret _ w' | Throw _ w' => w'
  | Diverge => d
  end.

(** Whether a run returned. *)
Definition returned {Hb : S3Backend} {A} (o : Outcome World A) : bool :=
  match o with
  | Ret _ _ => true
  | _ => false
  end.




(** ** A facade over two drivers *)

(** A driver that only reads, and one with every capability. *)
Definition readOnlyDriver : Driver := mkDriver "WEBDAV" [READER] false.

Definition s3Driver : Driver :=
  mkDriver "S3" [READER; WRITER; ATOMIC; PRESIGNED; MULTIPART] true.

(** Paths under [/media] belong to the read-only driver, paths under
    [/docs] to the other; a driver answers a call with the name of the
    method, and a search with the query. *)
Definition demoCollaborators : @Collaborators string unit := {|
  mm_getDriverByPath := fun path _ _ env =>
    if JS.startsWith path "/media"
    then (inr (readOnlyDriver, otherMount, JS.drop 6 path), env)
    else if JS.startsWith path "/docs"
    then (inr (s3Driver, demoMount, JS.drop 5 path), env)
    else (inl (HTTPException ApiStatus.NOT_FOUND "挂载点不存在"), env);
  mm_getDriver := fun m env =>
    (inr (if String.eqb (mount_id m) "m1" then s3Driver else readOnlyDriver),
     env);
  driver_invoke := fun _ c env => (inr (dc_method c), env);
  driver_search := fun _ query _ _ _ env => (inr [query], env);
  searchCache_get := fun _ _ _ _ _ => None;
  searchCache_set := fun _ _ _ _ _ _ env => env;
  mountRepository_findAll := fun _ env => (inr [demoMount; otherMount], env);
  sortSearchResults := fun l _ => l
|}.

Definition freshFacade : @FsState string unit := mkFsState tt [].

(** ** Worlds of the service *)

Definition emptyListing : DirectoryListing :=
  mkListing "/" false false (Some "m1") (Some "S3") [].

(** The deployment with the listings of [/], [/a/] and [/a/b/] of the
    mount in the cache. *)
Definition cachedWorld : World :=
  mkWorld demoDB demoS3
    {[ ("m1", "/") := mkCacheEntry emptyListing 1000 60;
       ("m1", "/a/") := mkCacheEntry emptyListing 1000 60;
       ("m1", "/a/b/") := mkCacheEntry emptyListing 1000 60 ]}
    [] 1000 0.



(** A file whose name is in the executable group. *)
Definition exeFile : File :=
  mkFile "run.exe" "application/x-msdownload" 4 (mkArrayBuffer 4).

(** An endpoint whose HEAD is refused, as some providers do. *)
Definition headForbidden : Command -> option Exn := fun c =>
  match c with
  | HeadObjectCommand _ _ => Some (S3Error 403 "Forbidden" "Forbidden")
  | _ => None
  end.

(** The deployment on an endpoint that refuses HEAD. *)
Definition forbiddenWorld : World :=
  mkWorld demoDB (mkFakeS3 (fk_objects demoS3) headForbidden) ∅ [] 1000 0.

(** An endpoint that answers every deletion with 404. *)
Definition deleteRefused : Command -> option Exn := fun c =>
  match c with
  | DeleteObjectCommand _ _ => Some (S3Error 404 "NoSuchKey" "NoSuchKey")
  | _ => None
  end.

Definition noDeleteWorld : World :=
  mkWorld demoDB (mkFakeS3 (fk_objects demoS3) deleteRefused) ∅ [] 1000 0.

(** The mount [/docs] without caching. *)
Definition uncachedMount : Mount :=
  mkMount "m1" "docs" "/docs" "S3" "cfg1" 0 true "admin1" None None None.

(** The paths of a batch: a directory that is there, a file, a path without
    mount and a directory that is not there. *)
Definition demoBatch : list string :=
  ["/docs/a/"; "/docs/missing.txt"; "/nowhere/x"; "/docs/gone/"].

(* ===================================================================== *)
(** * Facts about JavaScript strings *)
(* ===================================================================== *)

Lemma append_cons (c : ascii) (a b : string) :
  String c a +:+ b = String c (a +:+ b).
Proof. reflexivity. Qed.

Lemma append_nil_l (b : string) : "" +:+ b = b.
Proof. reflexivity. Qed.

Ltac sapp := rewrite ?append_cons, ?append_nil_l in *; simpl.

Lemma length_append (a b : string) :
  String.length (a +:+ b) = (String.length a + String.length b)%nat.
Proof. induction a; sapp; auto. Qed.

Lemma append_nil_r (a : string) : a +:+ "" = a.
Proof. induction a; sapp; [reflexivity|now f_equal]. Qed.

Lemma append_assoc (a b c : string) : (a +:+ b) +:+ c = a +:+ (b +:+ c).
Proof. induction a; sapp; [reflexivity|now f_equal]. Qed.

Lemma prefix_nil (s : string) : String.prefix "" s = true.
Proof. now destruct s. Qed.

Lemma prefix_iff (p s : string) :
  String.prefix p s = true <-> exists t, s = p +:+ t.
Proof.
  revert s. induction p as [|c p IH]; intros s.
  - rewrite prefix_nil. split; [intros _; now exists s|reflexivity].
  - destruct s as [|d s]; simpl;
      [split; [discriminate|intros [t Ht]; discriminate]|].
    destruct (ascii_dec c d) as [->|Hne].
    + rewrite IH. split; intros [t Ht]; exists t; sapp; [now f_equal|].
      now injection Ht.
    + split; [discriminate|]. intros [t Ht]. sapp. injection Ht as -> _.
      contradiction.
Qed.


Lemma prefix_trans (a b c : string) :
  String.prefix a b = true -> String.prefix b c = true ->
  String.prefix a c = true.
Proof.
  rewrite !prefix_iff. intros [t ->] [u ->]. exists (t +:+ u).
  apply append_assoc.
Qed.

Lemma prefix_length (p s : string) :
  String.prefix p s = true -> (String.length p <= String.length s)%nat.
Proof. rewrite prefix_iff. intros [t ->]. rewrite length_append. lia. Qed.

Lemma prefix_same_length (p s : string) :
  String.prefix p s = true -> String.length p = String.length s -> p = s.
Proof.
  rewrite prefix_iff. intros [t ->]. rewrite length_append. intros Hl.
  destruct t; [now rewrite append_nil_r|simpl in Hl; lia].
Qed.

Lemma drop_append (a b : string) : JS.drop (String.length a) (a +:+ b) = b.
Proof. induction a; sapp; auto. Qed.

Lemma take_append (a b : string) : JS.take (String.length a) (a +:+ b) = a.
Proof. induction a; sapp; [now destruct b|now f_equal]. Qed.

Lemma take_drop (n : nat) (s : string) : JS.take n s +:+ JS.drop n s = s.
Proof.
  revert s. induction n as [|n IH]; intros s; [reflexivity|].
  destruct s as [|c s]; simpl; [reflexivity|]. sapp. now rewrite IH.
Qed.

Lemma take_length (n : nat) (s : string) :
  String.length (JS.take n s) = Nat.min n (String.length s).
Proof.
  revert s. induction n as [|n IH]; intros s; [reflexivity|].
  destruct s as [|c s]; simpl; [reflexivity|]. now rewrite IH.
Qed.

Lemma take_all (n : nat) (s : string) :
  (String.length s <= n)%nat -> JS.take n s = s.
Proof.
  revert s. induction n as [|n IH]; intros s Hl.
  - destruct s; [reflexivity|simpl in Hl; lia].
  - destruct s as [|c s]; simpl; [reflexivity|]. rewrite IH; [reflexivity|].
    simpl in Hl. lia.
Qed.

Lemma take_prefix (n : nat) (s : string) : String.prefix (JS.take n s) s = true.
Proof. apply prefix_iff. exists (JS.drop n s). symmetry. apply take_drop. Qed.

Lemma prefix_take (p s : string) :
  String.prefix p s = true -> JS.take (String.length p) s = p.
Proof. rewrite prefix_iff. intros [t ->]. apply take_append. Qed.

Lemma take_take_prefix (n m : nat) (s : string) :
  (n <= m)%nat -> String.prefix (JS.take n s) (JS.take m s) = true.
Proof.
  revert m s. induction n as [|n IH]; intros m s Hle; [apply prefix_nil|].
  destruct m as [|m]; [lia|]. destruct s as [|c s]; [reflexivity|]. simpl.
  destruct (ascii_dec c c); [|contradiction]. apply IH. lia.
Qed.

(** [substring(0, k)] takes the first [k] code units. *)
Lemma substring_0 (s : string) (k : Z) :
  0 <= k -> JS.substring s 0 k = JS.take (Z.to_nat k) s.
Proof.
  intros Hk. unfold JS.substring, JS.clamp, JS.length.
  replace (Z.to_nat (Z.max 0 (Z.min 0 (Z.of_nat (String.length s))))) with O by lia.
  rewrite Nat.min_0_l, Nat.max_0_l, Nat.sub_0_r. simpl JS.drop.
  destruct (Z_le_gt_dec k (Z.of_nat (String.length s))).
  - f_equal. lia.
  - rewrite !take_all; [reflexivity| |]; lia.
Qed.


Lemma endsWith_iff (s p : string) :
  JS.endsWith s p = true <-> exists t, s = t +:+ p.
Proof.
  unfold JS.endsWith. rewrite andb_true_iff, Nat.leb_le, String.eqb_eq. split.
  - intros [Hl Hd]. exists (JS.take (String.length s - String.length p) s).
    pose proof (take_drop (String.length s - String.length p) s) as Htd.
    rewrite Hd in Htd. now symmetry.
  - intros [t ->]. rewrite length_append. split; [lia|].
    replace (String.length t + String.length p - String.length p)%nat
      with (String.length t) by lia.
    apply drop_append.
Qed.

Lemma includes_iff (s p : string) :
  JS.includes s p = true <-> exists a b, s = a +:+ p +:+ b.
Proof.
  induction s as [|c s IH].
  - cbn [JS.includes]. rewrite orb_false_r, prefix_iff. split.
    + intros [t Ht]. exists "", t. exact Ht.
    + intros (a & b & Hab). destruct a; [now exists b|discriminate].
  - cbn [JS.includes]. rewrite orb_true_iff, IH, prefix_iff. split.
    + intros [[t Ht]|(a & b & Hab)].
      * exists "", t. exact Ht.
      * exists (String c a), b. sapp. now f_equal.
    + intros (a & b & Hab). destruct a as [|d a].
      * left. now exists b.
      * right. sapp. injection Hab as -> Hab. now exists a, b.
Qed.

Lemma endsWith_append (s p : string) : JS.endsWith (s +:+ p) p = true.
Proof. apply endsWith_iff. now exists s. Qed.

Lemma startsWith_append (p s : string) : JS.startsWith (p +:+ s) p = true.
Proof. unfold JS.startsWith. apply prefix_iff. now exists s. Qed.

Lemma startsWith_trans_append (s p t : string) :
  JS.startsWith s p = true -> JS.startsWith (s +:+ t) p = true.
Proof.
  unfold JS.startsWith. rewrite !prefix_iff. intros [u ->].
  exists (u +:+ t). apply append_assoc.
Qed.

(* ===================================================================== *)
(** * Mount resolution *)
(* ===================================================================== *)











Lemma candidateMounts_spec (db : DB) (userId : UserId) (userType : string)
    (mounts : list Mount) :
  candidateMounts db userId userType = Some mounts ->
  forall m, In m mounts ->
    In m (db_mounts db) /\ is_active m = true
    /\ ((userType = "admin" /\ created_by m = user_key userId)
        \/ (userType = "apiKey" /\ mount_id m ∈ permittedMountIds userId)).
Proof.
  unfold candidateMounts.
  destruct (String.eqb userType "admin") eqn:Ea.
  - intros [= <-] m Hm. apply String.eqb_eq in Ea.
    apply filter_In in Hm as [Hin Hf]. apply andb_true_iff in Hf as [Hact Hown].
    apply String.eqb_eq in Hown. auto.
  - destruct (String.eqb userType "apiKey") eqn:Ek; [|discriminate].
    intros [= <-] m Hm. apply String.eqb_eq in Ek.
    apply filter_In in Hm as [Hin Hf]. apply andb_true_iff in Hf as [Hact Hown].
    apply bool_decide_eq_true in Hown. auto.
Qed.

(* ===================================================================== *)
(** * The directory cache and the directories above a path *)
(* ===================================================================== *)

Lemma prefixes_elem (a s : string) :
  In a (prefixes s) <-> a <> "" /\ String.prefix a s = true.
Proof.
  revert a. induction s as [|c s IH]; intros a; simpl.
  - split; [intros []|]. intros [Hne Hp]. destruct a; [congruence|discriminate].
  - split.
    + intros [<-|Hin].
      * split; [discriminate|]. simpl.
        destruct (ascii_dec c c); [apply prefix_nil|contradiction].
      * apply in_map_iff in Hin as (b & <- & Hb). apply IH in Hb as [Hne Hp].
        split; [discriminate|]. simpl.
        destruct (ascii_dec c c); [exact Hp|contradiction].
    + intros [Hne Hp]. destruct a as [|d a]; [congruence|]. simpl in Hp.
      destruct (ascii_dec d c) as [->|]; [|discriminate].
      destruct a as [|e a]; [now left|]. right.
      apply in_map_iff. exists (String e a). split; [reflexivity|].
      apply IH. split; [discriminate|exact Hp].
Qed.

Lemma ancestorDirectories_elem (a p : string) :
  In a (ancestorDirectories p) <-> isAncestorDirectory a p.
Proof.
  unfold ancestorDirectories, isAncestorDirectory.
  rewrite filter_In, <- in_rev, prefixes_elem, andb_true_iff, negb_true_iff,
    String.eqb_neq.
  split; [tauto|]. intros (He & Hp & Hne). repeat split; auto.
  intros ->. discriminate.
Qed.

(** The scan of [lastIndexOf] never goes below what it has found. *)
Lemma lastIndexOf_go_lower (s p : string) (i pos acc : Z) :
  acc < i -> acc <= JS.lastIndexOf_go s p i pos acc.
Proof.
  revert i acc. induction s as [|c s IH]; intros i acc Hlt;
    cbn [JS.lastIndexOf_go].
  - destruct (_ && _); lia.
  - destruct (_ && _).
    + specialize (IH (i + 1) i). lia.
    + specialize (IH (i + 1) acc). lia.
Qed.

(** The scan finds every occurrence at or before the position. *)
Lemma lastIndexOf_go_finds (s p : string) (i pos acc : Z) (j : nat) :
  acc < i -> (j <= String.length s)%nat -> i + Z.of_nat j <= pos ->
  String.prefix p (JS.drop j s) = true ->
  i + Z.of_nat j <= JS.lastIndexOf_go s p i pos acc.
Proof.
  revert i acc j. induction s as [|c s IH]; intros i acc j Hlt Hj Hpos Hp.
  - simpl in Hj. assert (j = O) as -> by lia. cbn [JS.lastIndexOf_go].
    simpl JS.drop in Hp. rewrite Hp.
    replace (i <=? pos) with true by lia. simpl. lia.
  - destruct j as [|j].
    + cbn [JS.lastIndexOf_go]. simpl JS.drop in Hp. rewrite Hp.
      replace (i <=? pos) with true by lia. cbn [andb].
      pose proof (lastIndexOf_go_lower s p (i + 1) pos i). lia.
    + cbn [JS.lastIndexOf_go]. simpl JS.drop in Hp. simpl in Hj.
      destruct ((i <=? pos) && String.prefix p (String c s)).
      * assert (i + 1 + Z.of_nat j <= JS.lastIndexOf_go s p (i + 1) pos i)
          by (apply IH; [lia|lia|lia|exact Hp]).
        lia.
      * assert (i + 1 + Z.of_nat j <= JS.lastIndexOf_go s p (i + 1) pos acc)
          by (apply IH; [lia|lia|lia|exact Hp]).
        lia.
Qed.

(** Every directory strictly above a path is above, or is, the parent that
    the service computes from the last slash at or before [pos], as soon as
    [pos] reaches the last but one code unit. *)
Lemma ancestors_covered (s : string) (pos : Z) (a : string) :
  JS.length s - 2 <= pos ->
  isAncestorDirectory a s ->
  let parent := JS.substring s 0 (JS.lastIndexOf s "/" pos + 1) in
  a = parent \/ isAncestorDirectory a parent.
Proof.
  intros Hpos (He & Hp & Hne) parent.
  apply endsWith_iff in He as [a0 ->].
  pose proof (prefix_length _ _ Hp) as Hlen.
  pose proof Hp as Hp'. apply prefix_iff in Hp' as [t Ht].
  assert (t <> "") as Htne.
  { intros ->. rewrite append_nil_r in Ht. congruence. }
  assert (String.length s
          = (String.length a0 + 1 + String.length t)%nat) as Hls.
  { rewrite Ht, !length_append. reflexivity. }
  assert (1 <= String.length t)%nat as Htl.
  { destruct t; [congruence|simpl; lia]. }
  assert (Z.of_nat (String.length a0) <= JS.lastIndexOf s "/" pos) as Hfound.
  { unfold JS.lastIndexOf.
    pose proof (lastIndexOf_go_finds s "/" 0 (Z.max 0 pos) (-1)
                  (String.length a0)) as Hf.
    simpl in Hf. apply Hf; [lia|lia| |].
    - unfold JS.length in Hpos. lia.
    - rewrite Ht, append_assoc, drop_append. apply prefix_iff.
      now exists t. }
  assert (parent
          = JS.take (Z.to_nat (JS.lastIndexOf s "/" pos + 1)) s) as Hpar.
  { unfold parent. apply substring_0. lia. }
  assert (String.prefix (a0 +:+ "/") parent = true) as Hpp.
  { rewrite Hpar. rewrite <- (prefix_take _ _ Hp).
    apply take_take_prefix. rewrite length_append. simpl. lia. }
  destruct (string_dec (a0 +:+ "/") parent) as [Heq|Hneq]; [now left|].
  right. split; [|split; assumption].
  apply endsWith_iff. now exists a0.
Qed.

(** A path without a slash, and the root, have no directory above them. *)
Lemma no_ancestor_without_slash (s a : string) :
  JS.includes s "/" = false -> ~ isAncestorDirectory a s.
Proof.
  intros Hi (He & Hp & _). apply endsWith_iff in He as [a0 ->].
  apply prefix_iff in Hp as [t ->].
  assert (JS.includes ((a0 +:+ "/") +:+ t) "/" = true); [|congruence].
  apply includes_iff. exists a0, t. now rewrite append_assoc.
Qed.

Lemma no_ancestor_of_root (a : string) : ~ isAncestorDirectory a "/".
Proof.
  intros (He & Hp & Hne). apply prefix_length in Hp. simpl in Hp.
  apply endsWith_iff in He as [a0 ->]. rewrite length_append in Hp.
  simpl in Hp. destruct a0; [now apply Hne|simpl in Hp; lia].
Qed.

Section CacheFacts.

Context {Hb : S3Backend}.

Lemma cacheShrinks_refl (w : World) : cacheShrinks w w.
Proof. intros k H. exact H. Qed.

Lemma cacheShrinks_trans (w1 w2 w3 : World) :
  cacheShrinks w1 w2 -> cacheShrinks w2 w3 -> cacheShrinks w1 w3.
Proof. intros H1 H2 k H. auto. Qed.

Lemma invalidate_run (mountId p : string) (w : World) :
  exists b w',
    directoryCache_invalidate mountId p w = Ret b w'
    /\ w_cache w' !! (mountId, p) = None
    /\ cacheShrinks w w'.
Proof.
  eexists _, _. split; [reflexivity|]. split.
  - simpl. apply lookup_delete_eq.
  - intros k Hk. simpl. rewrite lookup_delete. case_decide; auto.
Qed.

Lemma invalidateAll_run (mountId : string) (paths : list string) (w : World) :
  exists n w',
    invalidateAll mountId paths w = Ret n w'
    /\ (forall p, In p paths -> w_cache w' !! (mountId, p) = None)
    /\ cacheShrinks w w'.
Proof.
  revert w. induction paths as [|p rest IH]; intros w.
  - exists 0, w. split; [reflexivity|]. split; [intros p []|].
    apply cacheShrinks_refl.
  - destruct (invalidate_run mountId p w) as (b & w1 & H1 & Hnone & Hs1).
    destruct (IH w1) as (n & w2 & H2 & Hall & Hs2).
    exists ((if b then 1 else 0) + n), w2. split.
    + cbn [invalidateAll]. unfold bind. rewrite H1, H2. reflexivity.
    + split; [|eapply cacheShrinks_trans; eauto].
      intros q [<-|Hq]; [now apply Hs2|now apply Hall].
Qed.

Lemma invalidatePathAndAncestors_run (mountId p : string) (w : World) :
  exists n w',
    directoryCache_invalidatePathAndAncestors mountId p w = Ret n w'
    /\ w_cache w' !! (mountId, p) = None
    /\ (forall a, isAncestorDirectory a p -> w_cache w' !! (mountId, a) = None)
    /\ cacheShrinks w w'.
Proof.
  unfold directoryCache_invalidatePathAndAncestors.
  destruct (invalidateAll_run mountId (p :: ancestorDirectories p) w)
    as (n & w' & Hrun & Hall & Hs).
  exists n, w'. split; [exact Hrun|]. split; [apply Hall; now left|].
  split; [|exact Hs].
  intros a Ha. apply Hall. right. now apply ancestorDirectories_elem.
Qed.

End CacheFacts.
(* ===================================================================== *)
(** * What a computation leaves as it was *)
(* ===================================================================== *)

Section Frames.

Context {Hb : S3Backend} {Hs : Helpers}.

Lemma keeps_ret {X A} (f : World -> X) (a : A) : keeps f (ret a : SM A).
Proof. intros w. reflexivity. Qed.

Lemma keeps_throw {X A} (f : World -> X) (e : Exn) : keeps f (throw e : SM A).
Proof. intros w. reflexivity. Qed.

Lemma keeps_throwIf {X} (f : World -> X) (c : bool) (e : Exn) :
  keeps f (throwIf c e : SM unit).
Proof. destruct c; [apply keeps_throw|apply keeps_ret]. Qed.

Lemma keeps_bind {X A B} (f : World -> X) (m : SM A) (k : A -> SM B) :
  keeps f m -> (forall a, keeps f (k a)) -> keeps f (bind m k).
Proof.
  intros Hm Hk w. unfold bind. specialize (Hm w).
  destruct (m w) as [a w1|e w1|]; [|exact Hm|exact I].
  specialize (Hk a w1). destruct (k a w1); congruence.
Qed.

Lemma keeps_tryCatch {X A} (f : World -> X) (m : SM A) (h : Exn -> SM A) :
  keeps f m -> (forall e, keeps f (h e)) -> keeps f (tryCatch m h).
Proof.
  intros Hm Hh w. unfold tryCatch. specialize (Hm w).
  destruct (m w) as [a w1|e w1|]; [exact Hm| |exact I].
  specialize (Hh e w1). destruct (h e w1); congruence.
Qed.

Lemma keeps_send {X} (f : World -> X) (client : S3Client) (c : Command) :
  (forall s e w, f (setS3 s (addEffect e w)) = f w) ->
  keeps f (send client c).
Proof.
  intros Hf w. unfold send, bind, modify, liftCall. simpl.
  destruct (s3_send client c (w_s3 w)) as [[e|out] s']; apply Hf.
Qed.

Lemma keeps_findMount {X} (f : World -> X) (path : string) (userId : UserId)
    (userType : string) : keeps f (findMount path userId userType).
Proof.
  intros w. unfold findMount, bind, get.
  now destruct (findMountPointByPath _ _ _ _).
Qed.

Lemma keeps_getS3Config {X} (f : World -> X) (m : Mount) :
  keeps f (getS3Config m).
Proof.
  intros w. unfold getS3Config, bind, get. now destruct (selectS3Config _ _).
Qed.

Lemma keeps_newS3Client {X} (f : World -> X) (c : S3Config) (secret : string) :
  keeps f (newS3Client c secret).
Proof.
  intros w. unfold newS3Client. now destruct (createS3Client c secret).
Qed.

Lemma keeps_now {X} (f : World -> X) : keeps f now.
Proof. intros w. reflexivity. Qed.

Lemma keeps_checkDirectoryExists {X} (f : World -> X) (client : S3Client)
    (bucket dirPath : string) :
  (forall s e w, f (setS3 s (addEffect e w)) = f w) ->
  keeps f (checkDirectoryExists client bucket dirPath).
Proof.
  intros Hf. unfold checkDirectoryExists.
  apply keeps_tryCatch.
  - apply keeps_bind; [now apply keeps_send|]. intros. apply keeps_ret.
  - intros _. apply keeps_tryCatch.
    + apply keeps_bind; [now apply keeps_send|]. intros. apply keeps_ret.
    + intros. apply keeps_ret.
Qed.

End Frames.

(** ** The last slash of a path *)

Section LastSlash.

Lemma lastIndexOf_go_sound (s p : string) (i pos acc : Z) :
  JS.lastIndexOf_go s p i pos acc = acc
  \/ exists j : nat,
       JS.lastIndexOf_go s p i pos acc = i + Z.of_nat j
       /\ (j <= String.length s)%nat /\ i + Z.of_nat j <= pos
       /\ String.prefix p (JS.drop j s) = true.
Proof.
  revert i acc. induction s as [|c s IH]; intros i acc; cbn [JS.lastIndexOf_go].
  - destruct ((i <=? pos) && String.prefix p "") eqn:E; [|now left].
    apply andb_true_iff in E as [Hi Hp]. right. exists O. simpl.
    repeat split; try lia. exact Hp.
  - destruct ((i <=? pos) && String.prefix p (String c s)) eqn:E.
    + apply andb_true_iff in E as [Hi Hp].
      destruct (IH (i + 1) i) as [->|(j & -> & Hj & Hpos & Hpre)].
      * right. exists O. simpl. repeat split; [lia|lia|lia|exact Hp].
      * right. exists (S j). simpl. repeat split; [lia|lia|lia|exact Hpre].
    + destruct (IH (i + 1) acc) as [->|(j & -> & Hj & Hpos & Hpre)];
        [now left|].
      right. exists (S j). simpl. repeat split; [lia|lia|lia|exact Hpre].
Qed.

Lemma drop_all (n : nat) (s : string) :
  (String.length s <= n)%nat -> JS.drop n s = "".
Proof.
  revert s. induction n as [|n IH]; intros s Hl.
  - destruct s; [reflexivity|simpl in Hl; lia].
  - destruct s as [|c s]; [reflexivity|]. simpl. apply IH. simpl in Hl. lia.
Qed.

Lemma take_succ (j : nat) (s p t : string) :
  JS.drop j s = p +:+ t ->
  JS.take (j + String.length p) s = JS.take j s +:+ p.
Proof.
  intros Hd.
  destruct (le_lt_dec j (String.length s)) as [Hle|Hgt].
  - pose proof (take_drop j s) as Htd. rewrite Hd in Htd.
    rewrite <- append_assoc in Htd.
    rewrite <- Htd at 1.
    replace (j + String.length p)%nat
      with (String.length (JS.take j s +:+ p)).
    + apply take_append.
    + rewrite length_append, take_length. lia.
  - rewrite drop_all in Hd by lia.
    destruct p; [|discriminate]. rewrite append_nil_r. f_equal. simpl. lia.
Qed.

(** The parent that the service computes from the last slash at or before
    [pos]: it is empty when there is no such slash, and else it is the path
    up to and with that slash. *)
Lemma lastSlash_cases (s : string) (pos : Z) :
  let parent := JS.substring s 0 (JS.lastIndexOf s "/" pos + 1) in
  parent = ""
  \/ exists j : nat,
       JS.lastIndexOf s "/" pos = Z.of_nat j
       /\ (j < String.length s)%nat /\ Z.of_nat j <= Z.max 0 pos
       /\ parent = JS.take j s +:+ "/".
Proof.
  intros parent. subst parent. unfold JS.lastIndexOf.
  destruct (lastIndexOf_go_sound s "/" 0 (Z.max 0 pos) (-1))
    as [->|(j & -> & Hj & Hpos & Hpre)].
  - left. rewrite substring_0 by lia. reflexivity.
  - right. exists j. rewrite Z.add_0_l in *.
    apply prefix_iff in Hpre as [t Ht].
    assert (j < String.length s)%nat as Hlt.
    { destruct (le_lt_dec (String.length s) j) as [Hge|]; [|assumption].
      rewrite drop_all in Ht by exact Hge. discriminate Ht. }
    repeat split; [exact Hlt|exact Hpos|].
    rewrite substring_0 by lia.
    replace (Z.to_nat (Z.of_nat j + 1)) with (j + String.length "/")%nat
      by (simpl; lia).
    now apply take_succ with t.
Qed.

Lemma parent_shape (mountId s : string) (pos : Z) :
  directoryKey
    (mountId, JS.substring s 0 (JS.lastIndexOf s "/" pos + 1)).
Proof.
  destruct (lastSlash_cases s pos) as [->|(j & _ & _ & _ & ->)];
    [now left|].
  right. cbn [snd]. apply endsWith_iff. now eexists.
Qed.

(** The computed parent is the path itself only for a path that ends in a
    slash, and only when the scan starts at its last code unit. *)
Lemma parent_is_self (s : string) (pos : Z) :
  s <> "" ->
  JS.substring s 0 (JS.lastIndexOf s "/" pos + 1) = s ->
  JS.endsWith s "/" = true /\ JS.length s - 1 <= Z.max 0 pos.
Proof.
  intros Hne Heq.
  destruct (lastSlash_cases s pos) as [H|(j & Hr & Hj & Hpos & H)];
    rewrite Heq in H; [congruence|].
  split.
  - apply endsWith_iff. exists (JS.take j s). exact H.
  - assert (String.length s = String.length (JS.take j s +:+ "/")) as Hl
      by now rewrite <- H.
    rewrite length_append, take_length in Hl. simpl in Hl.
    unfold JS.length. lia.
Qed.

(** For a path that ends in a slash, the scan from its last code unit
    gives the path itself. *)
Lemma parent_of_slashed (s : string) (pos : Z) :
  JS.endsWith s "/" = true -> JS.length s - 1 <= pos ->
  JS.substring s 0 (JS.lastIndexOf s "/" pos + 1) = s.
Proof.
  intros He Hpos. apply endsWith_iff in He as [a0 Hs].
  assert (String.length s = S (String.length a0)) as Hl.
  { rewrite Hs, length_append. simpl. lia. }
  assert (Z.of_nat (String.length a0) <= JS.lastIndexOf s "/" pos) as Hfound.
  { unfold JS.lastIndexOf.
    pose proof (lastIndexOf_go_finds s "/" 0 (Z.max 0 pos) (-1)
                  (String.length a0)) as Hf.
    simpl in Hf. apply Hf; [lia|lia| |].
    - unfold JS.length in Hpos. lia.
    - rewrite Hs, drop_append. reflexivity. }
  destruct (lastSlash_cases s pos) as [H|(j & Hr & Hj & _ & H)].
  - rewrite substring_0 in H by lia.
    assert (String.length (JS.take (Z.to_nat (JS.lastIndexOf s "/" pos + 1)) s)
            = O) as Hz by now rewrite H.
    rewrite take_length in Hz. lia.
  - rewrite substring_0 by lia. apply take_all. lia.
Qed.

End LastSlash.

(** ** The entries that a computation drops from the cache *)

Section CacheFrames.

Context {Hb : S3Backend} {Hs : Helpers}.

Lemma cacheDrops_same (P : string * string -> Prop) (w w' : World) :
  w_cache w' = w_cache w -> cacheDrops P w w'.
Proof. intros H k. left. now rewrite H. Qed.

Lemma cacheDrops_trans (P : string * string -> Prop) (w1 w2 w3 : World) :
  cacheDrops P w1 w2 -> cacheDrops P w2 w3 -> cacheDrops P w1 w3.
Proof.
  intros H1 H2 k. destruct (H2 k) as [E|[HP E]]; [|right; auto].
  rewrite E. apply H1.
Qed.

Lemma cacheDrops_other (P : string * string -> Prop) (w w' : World)
    (k : string * string) :
  cacheDrops P w w' -> ~ P k -> w_cache w' !! k = w_cache w !! k.
Proof. intros H Hn. destruct (H k) as [E|[HP _]]; [exact E|contradiction]. Qed.

Lemma keeps_modify {X} (f : World -> X) (g : World -> World) :
  (forall w, f (g w) = f w) -> keeps f (modify g).
Proof. intros H w. apply H. Qed.

Lemma keepsCache_send (client : S3Client) (c : Command) :
  keeps w_cache (send client c).
Proof. apply keeps_send. reflexivity. Qed.

Lemma keepsCache_checkDirectoryExists (client : S3Client)
    (bucket dirPath : string) :
  keeps w_cache (checkDirectoryExists client bucket dirPath).
Proof. apply keeps_checkDirectoryExists. reflexivity. Qed.

Lemma keepsCache_stamp (mountId : string) :
  keeps w_cache (updateMountLastUsed mountId).
Proof. intros w. reflexivity. Qed.

Lemma keepsCache_freshFileId : keeps w_cache freshFileId.
Proof. intros w. reflexivity. Qed.

Lemma keepsCache_insertFile (r : FileRow) : keeps w_cache (insertFile r).
Proof. intros w. reflexivity. Qed.

Lemma keepsCache_parentCheck (guard : bool) (client : S3Client)
    (bucket parent : string) (e : Exn) :
  keeps w_cache
    (if guard
     then
       let! parentExists := checkDirectoryExists client bucket parent in
       throwIf (negb parentExists) e
     else ret tt).
Proof.
  destruct guard; [|apply keeps_ret].
  apply keeps_bind; [apply keepsCache_checkDirectoryExists|].
  intros b. apply keeps_throwIf.
Qed.

Lemma dropsOnly_keeps {A} (P : string * string -> Prop) (m : SM A) :
  keeps w_cache m -> dropsOnly P m.
Proof.
  intros H w. specialize (H w).
  destruct (m w); auto using cacheDrops_same.
Qed.

Lemma dropsOnly_bind {A B} (P : string * string -> Prop) (m : SM A)
    (k : A -> SM B) :
  dropsOnly P m -> (forall a, dropsOnly P (k a)) -> dropsOnly P (bind m k).
Proof.
  intros Hm Hk w. unfold bind. specialize (Hm w).
  destruct (m w) as [a w1|e w1|]; [|exact Hm|exact I].
  specialize (Hk a w1). destruct (k a w1); eauto using cacheDrops_trans.
Qed.

Lemma dropsOnly_tryCatch {A} (P : string * string -> Prop) (m : SM A)
    (h : Exn -> SM A) :
  dropsOnly P m -> (forall e, dropsOnly P (h e)) -> dropsOnly P (tryCatch m h).
Proof.
  intros Hm Hh w. unfold tryCatch. specialize (Hm w).
  destruct (m w) as [a w1|e w1|]; [exact Hm| |exact I].
  specialize (Hh e w1). destruct (h e w1); eauto using cacheDrops_trans.
Qed.

Lemma dropsOnly_handleFsError {A} (P : string * string -> Prop) (fn : SM A)
    (d : string) :
  dropsOnly P fn -> dropsOnly P (handleFsError fn d).
Proof.
  intros H. apply dropsOnly_tryCatch; [exact H|].
  intros e. apply dropsOnly_keeps.
  destruct (isHTTPException e); apply keeps_throw.
Qed.

Lemma dropsOnly_invalidate (P : string * string -> Prop) (mountId p : string) :
  P (mountId, p) -> dropsOnly P (directoryCache_invalidate mountId p).
Proof.
  intros HP w k. simpl. destruct (decide ((mountId, p) = k)) as [<-|Hne].
  - right. split; [exact HP|apply lookup_delete_eq].
  - left. now apply lookup_delete_ne.
Qed.

Lemma dropsOnly_invalidateAll (P : string * string -> Prop) (mountId : string)
    (paths : list string) :
  (forall p, In p paths -> P (mountId, p)) ->
  dropsOnly P (invalidateAll mountId paths).
Proof.
  induction paths as [|p rest IH]; intros HP; cbn [invalidateAll].
  - apply dropsOnly_keeps, keeps_ret.
  - apply dropsOnly_bind; [apply dropsOnly_invalidate, HP; now left|].
    intros b. apply dropsOnly_bind; [apply IH; intros q Hq; apply HP; now right|].
    intros n. apply dropsOnly_keeps, keeps_ret.
Qed.

Lemma dropsOnly_pathAndAncestors (P : string * string -> Prop)
    (mountId p : string) :
  P (mountId, p) ->
  (forall a, isAncestorDirectory a p -> P (mountId, a)) ->
  dropsOnly P (directoryCache_invalidatePathAndAncestors mountId p).
Proof.
  intros Hp Ha. apply dropsOnly_invalidateAll. intros q [<-|Hq]; [exact Hp|].
  now apply Ha, ancestorDirectories_elem.
Qed.

(** The invalidation from a computed parent upwards only drops keys of
    directories. *)
Lemma dropsOnly_parent (mountId s : string) (pos : Z) :
  dropsOnly directoryKey
    (directoryCache_invalidatePathAndAncestors mountId
       (JS.substring s 0 (JS.lastIndexOf s "/" pos + 1))).
Proof.
  apply dropsOnly_pathAndAncestors.
  - apply parent_shape.
  - intros a (He & _). now right.
Qed.

Lemma dropsOnly_refreshParent (mountId s : string) :
  dropsOnly directoryKey (refreshParent mountId s false).
Proof.
  unfold refreshParent.
  destruct (negb (String.eqb s "/") && JS.includes s "/"); cbn [negb].
  - apply dropsOnly_bind; [apply dropsOnly_parent|].
    intros n. apply dropsOnly_keeps, keeps_ret.
  - apply dropsOnly_bind; [apply dropsOnly_invalidate; now right|].
    intros b. apply dropsOnly_keeps, keeps_ret.
Qed.

End CacheFrames.

(* ===================================================================== *)
(** * Properties of the facade *)
(* ===================================================================== *)

Section FacadeProperties.

Context {Any Env : Type} (C : @Collaborators Any Env).

Lemma trim_empty : JS.trim "" = "".
Proof. reflexivity. Qed.

Lemma truthy_false_iff (s : string) : JS.truthy s = false <-> s = "".
Proof.
  unfold JS.truthy. rewrite negb_false_iff. apply String.eqb_eq.
Qed.

Lemma knownScope_true_iff (scope : string) :
  knownScope scope = true <-> scope ∈ ["global"; "mount"; "directory"].
Proof. unfold knownScope. apply bool_decide_eq_true. Qed.

Lemma requireCapability_present (d : Driver) (c : Capability) (s : @FsState Any Env) :
  hasCapability d c = true -> requireCapability d c s = Ret tt s.
Proof. intros H. unfold requireCapability, throwIf. now rewrite H. Qed.

Lemma requireCapability_absent (d : Driver) (c : Capability) (s : @FsState Any Env) :
  hasCapability d c = false ->
  requireCapability d c s
  = Throw (HTTPException 501 ("存储驱动 " +:+ getType d +:+ " " +:+ unsupportedText c)) s.
Proof. intros H. unfold requireCapability, throwIf. now rewrite H. Qed.

Lemma storageEvents_resolution (s : @FsState Any Env) (env' : Env) (path : string) :
  storageEvents (mkFsState env' (fs_events s ++ [GetDriverByPath path]))
  = storageEvents s.
Proof.
  unfold storageEvents. simpl. rewrite List.filter_app. simpl.
  apply app_nil_r.
Qed.

Lemma getDriverByPath_resolved (path : string) (user : Any) (userType : string)
    (s : FsState) (r : Driver * Mount * string) (env' : Env) :
  mm_getDriverByPath C path user userType (fs_env s) = (inr r, env') ->
  getDriverByPath C path user userType s
  = Ret r (mkFsState env' (fs_events s ++ [GetDriverByPath path])).
Proof.
  intros H. unfold getDriverByPath, bind, logEvent, modify, onEnv, liftCall.
  simpl. now rewrite H.
Qed.

(** The shape shared by the gated methods: after a successful resolution the
    method is the capability check followed by the forwarding. *)
Lemma FileSystem_run_gated (op : FacadeOp) (c : Capability) (user : Any)
    (userType : string) (s : FsState) (driver : Driver) (mount : Mount)
    (subPath : string) (env' : Env) :
  requiredCapability op = Some c ->
  mm_getDriverByPath C (resolvedPath op) user userType (fs_env s)
  = (inr (driver, mount, subPath), env') ->
  FileSystem_run C op user userType s
  = (requireCapability driver c ;;;
     afterCheck C op driver mount subPath user userType)
      (mkFsState env' (fs_events s ++ [GetDriverByPath (resolvedPath op)])).
Proof.
  intros Hc Hres.
  pose proof (getDriverByPath_resolved _ _ _ _ _ _ Hres) as Hget.
  destruct op; simpl in Hc; try discriminate;
    try (injection Hc as <-; unfold FileSystem_run; simpl requiredCapability;
         unfold bind at 1; rewrite Hget; reflexivity).
  destruct (emptyBatch paths) eqn:He; [discriminate|].
  injection Hc as <-. unfold FileSystem_run. rewrite He.
  unfold bind at 1. rewrite Hget. reflexivity.
Qed.

(** C1.  For every facade operation that requires a capability (Reader for
    list, info and download; Writer for upload, mkdir, update and a
    non-empty batch removal; Atomic for rename and copy; Presigned for
    presign; Multipart for the multipart operations) and every driver the
    path resolves to: when the driver does not declare the capability the
    method throws HTTP 501 and no driver method (hence no storage I/O) has
    been reached; when the driver declares it the check passes and the
    method continues with the statements that follow the check. *)
Theorem FileSystem_capability_gate (op : FacadeOp) (c : Capability) (user : Any)
    (userType : string) (s : FsState) (driver : Driver) (mount : Mount)
    (subPath : string) (env' : Env) :
  requiredCapability op = Some c ->
  mm_getDriverByPath C (resolvedPath op) user userType (fs_env s)
  = (inr (driver, mount, subPath), env') ->
  let s1 := mkFsState env' (fs_events s ++ [GetDriverByPath (resolvedPath op)]) in
  (hasCapability driver c = false ->
   FileSystem_run C op user userType s
   = Throw (HTTPException ApiStatus.NOT_IMPLEMENTED
              ("存储驱动 " +:+ getType driver +:+ " " +:+ unsupportedText c)) s1
   /\ storageEvents s1 = storageEvents s)
  /\ (hasCapability driver c = true ->
      requireCapability driver c s1 = Ret tt s1
      /\ FileSystem_run C op user userType s
         = afterCheck C op driver mount subPath user userType s1).
Proof.
  intros Hc Hres s1.
  pose proof (FileSystem_run_gated _ _ _ _ _ _ _ _ _ Hc Hres) as Hrun.
  fold s1 in Hrun. split; intros Hcap.
  - split; [|apply storageEvents_resolution].
    rewrite Hrun. unfold bind.
    now rewrite (requireCapability_absent _ _ _ Hcap).
  - split; [now apply requireCapability_present|].
    rewrite Hrun. unfold bind.
    now rewrite (requireCapability_present _ _ _ Hcap).
Qed.

Lemma query_check_iff (query : string) :
  negb (JS.truthy query) || (JS.length (JS.trim query) <? 2) = true
  <-> JS.length (JS.trim query) < 2.
Proof.
  rewrite orb_true_iff, negb_true_iff, truthy_false_iff, Z.ltb_lt.
  split; [|tauto]. intros [-> | H]; [|exact H].
  rewrite trim_empty. unfold JS.length. simpl. lia.
Qed.

Lemma validateSearch_outcome (query : string) (p : SearchParams)
    (s : @FsState Any Env) :
  (rejectsSearch query p ->
   exists msg, validateSearch query p s
               = Throw (HTTPException ApiStatus.BAD_REQUEST msg) s)
  /\ (~ rejectsSearch query p -> validateSearch query p s = Ret tt s).
Proof.
  unfold rejectsSearch, validateSearch, bind, throwIf, throw, ret.
  pose proof (query_check_iff query) as Hq.
  pose proof (knownScope_true_iff (scopeOf p)) as Hs.
  destruct (negb (JS.truthy query) || (JS.length (JS.trim query) <? 2)) eqn:E1.
  { split; [eauto|]. intros H. exfalso. apply H. left. now apply Hq. }
  destruct (knownScope (scopeOf p)) eqn:E2; simpl.
  2:{ split; [eauto|]. intros H. exfalso. apply H. do 4 right.
      intros Hin. apply Hs in Hin. discriminate. }
  destruct ((limitOf p <? 1) || (limitOf p >? 200)) eqn:E3.
  { split; [eauto|]. intros H. exfalso. apply H.
    apply orb_true_iff in E3 as [E3|E3]; [right; left | right; right; left]; lia. }
  destruct (offsetOf p <? 0) eqn:E4.
  { split; [eauto|]. intros H. exfalso. apply H. do 3 right. left. lia. }
  split; [|reflexivity].
  apply orb_false_iff in E3 as [E3 E3'].
  assert (~ JS.length (JS.trim query) < 2) by (intros H; apply Hq in H; discriminate).
  intros [H'|[H'|[H'|[H'|H']]]]; try lia.
  exfalso. apply H'. now apply Hs.
Qed.

(** C8.  [searchFiles] throws HTTP 400 with the state untouched (no cache,
    mount or driver has been consulted: no event is logged) whenever the
    trimmed query has fewer than 2 code units, or limit < 1, or
    limit > 200, or offset < 0, or the scope is not global, mount or
    directory; when none of these holds the validation passes and the
    method continues with the cache lookup. *)
Theorem searchFiles_validation (query : string) (p : SearchParams) (user : Any)
    (userType : string) (s : FsState) :
  (rejectsSearch query p ->
   exists msg, FileSystem_searchFiles C query p user userType s
               = Throw (HTTPException ApiStatus.BAD_REQUEST msg) s)
  /\ (~ rejectsSearch query p ->
      validateSearch query p s = Ret tt s
      /\ FileSystem_searchFiles C query p user userType s
         = searchValidated C query p user userType s).
Proof.
  destruct (validateSearch_outcome query p s) as [Hbad Hgood].
  unfold FileSystem_searchFiles. split; intros H.
  - destruct (Hbad H) as [msg Hmsg]. exists msg.
    unfold bind. now rewrite Hmsg.
  - split; [now apply Hgood|]. unfold bind. now rewrite (Hgood H).
Qed.

(** The facade's [batchRemoveItems] answers an empty batch at once. *)
Lemma FileSystem_batchRemoveItems_empty (paths : option (list string))
    (user : Any) (userType : string) (s : FsState) :
  emptyBatch paths = true ->
  FileSystem_batchRemoveItems C paths user userType s = Ret (BatchRemoved 0 []) s.
Proof.
  intros H. unfold FileSystem_batchRemoveItems, FileSystem_run. now rewrite H.
Qed.

End FacadeProperties.

(* ===================================================================== *)
(** * Properties of the file-system service *)
(* ===================================================================== *)

Section ServiceProperties.

Context {Hb : S3Backend} {Hs : Helpers}.

(** ** Running the monad, one step at a time *)

Lemma bind_Ret {S A B} (m : M S A) (k : A -> M S B) (s s' : S) (a : A) :
  m s = Ret a s' -> bind m k s = k a s'.
Proof. intros E. unfold bind. now rewrite E. Qed.

Lemma bind_Throw {S A B} (m : M S A) (k : A -> M S B) (s s' : S) (e : Exn) :
  m s = Throw e s' -> bind m k s = Throw e s'.
Proof. intros E. unfold bind. now rewrite E. Qed.

Lemma bind_Diverge {S A B} (m : M S A) (k : A -> M S B) (s : S) :
  m s = Diverge -> bind m k s = Diverge.
Proof. intros E. unfold bind. now rewrite E. Qed.

Lemma throwIf_false {S} (e : Exn) (s : S) : throwIf false e s = Ret tt s.
Proof. reflexivity. Qed.

Lemma throwIf_true {S} (e : Exn) (s : S) : throwIf true e s = Throw e s.
Proof. reflexivity. Qed.

Lemma findMount_found (path : string) (userId : UserId) (userType : string)
    (w : World) (m : Mount) (sub : string) :
  findMountPointByPath (w_db w) path userId userType = MountFound m sub ->
  findMount path userId userType w = Ret (m, sub) w.
Proof. intros E. unfold findMount, bind, get. now rewrite E. Qed.

Lemma findMount_error (path : string) (userId : UserId) (userType : string)
    (w : World) (status : Z) (msg : string) :
  findMountPointByPath (w_db w) path userId userType = MountError status msg ->
  findMount path userId userType w = Throw (HTTPException status msg) w.
Proof. intros E. unfold findMount, bind, get. now rewrite E. Qed.

Lemma getS3Config_found (mount : Mount) (w : World) (c : S3Config) :
  selectS3Config (w_db w) (storage_config_id mount) = Some c ->
  getS3Config mount w = Ret c w.
Proof. intros E. unfold getS3Config, bind, get. now rewrite E. Qed.

Lemma newS3Client_ok (c : S3Config) (secret : string) (client : S3Client)
    (w : World) :
  createS3Client c secret = inr client -> newS3Client c secret w = Ret client w.
Proof. intros E. unfold newS3Client. now rewrite E. Qed.

Lemma send_ok (client : S3Client) (c : Command) (w : World) (out : Output)
    (s' : S3State) :
  s3_send client c (w_s3 w) = (inr out, s') ->
  send client c w = Ret out (setS3 s' (addEffect (Sent c) w)).
Proof.
  intros E. unfold send, bind, modify, liftCall. simpl. now rewrite E.
Qed.

Lemma send_error (client : S3Client) (c : Command) (w : World) (e : Exn)
    (s' : S3State) :
  s3_send client c (w_s3 w) = (inl e, s') ->
  send client c w = Throw e (setS3 s' (addEffect (Sent c) w)).
Proof.
  intros E. unfold send, bind, modify, liftCall. simpl. now rewrite E.
Qed.

Lemma updateMountLastUsed_run (mountId : string) (w : World) :
  updateMountLastUsed mountId w = Ret tt (stampMount mountId w).
Proof. reflexivity. Qed.

Lemma sentCommands_sent (c : Command) (s' : S3State) (w : World) :
  sentCommands (setS3 s' (addEffect (Sent c) w)) = sentCommands w ++ [c].
Proof. unfold sentCommands. simpl. now rewrite omap_app. Qed.

Lemma releaseCalls_sent (c : Command) (s' : S3State) (w : World) :
  releaseCalls (setS3 s' (addEffect (Sent c) w)) = releaseCalls w.
Proof.
  unfold releaseCalls. simpl. rewrite omap_app. simpl. apply app_nil_r.
Qed.

Lemma handleFsError_http {A} (fn : SM A) (d : string) (w w' : World)
    (status : Z) (msg : string) :
  fn w = Throw (HTTPException status msg) w' ->
  handleFsError fn d w = Throw (HTTPException status msg) w'.
Proof. intros H. unfold handleFsError, tryCatch. now rewrite H. Qed.

Lemma handleFsError_ret {A} (fn : SM A) (d : string) (w w' : World) (a : A) :
  fn w = Ret a w' -> handleFsError fn d w = Ret a w'.
Proof. intros H. unfold handleFsError, tryCatch. now rewrite H. Qed.

Lemma handleFsError_ret_inv {A} (fn : SM A) (d : string) (w w' : World) (a : A) :
  handleFsError fn d w = Ret a w' -> fn w = Ret a w'.
Proof.
  unfold handleFsError, tryCatch. destruct (fn w) as [a0 s|e s|]; try discriminate.
  - auto.
  - destruct (isHTTPException e); discriminate.
Qed.

(** C9.  When the two paths of [renameItem] resolve to mounts with
    different identifiers, the call throws HTTP 400 and leaves the world as
    it was: no command at all, hence no copy and no delete, has been sent
    to storage. *)
Theorem renameItem_cross_mount_rejected (fuel : nat) (oldPath newPath : string)
    (userId : UserId) (userType secret : string) (w : World)
    (m1 m2 : Mount) (s1 s2 : string) :
  findMountPointByPath (w_db w) oldPath userId userType = MountFound m1 s1 ->
  findMountPointByPath (w_db w) newPath userId userType = MountFound m2 s2 ->
  mount_id m1 <> mount_id m2 ->
  exists msg,
    renameItem fuel oldPath newPath userId userType secret w
    = Throw (HTTPException ApiStatus.BAD_REQUEST msg) w.
Proof.
  intros H1 H2 Hne.
  unfold renameItem.
  destruct (negb (Bool.eqb (JS.endsWith oldPath "/") (JS.endsWith newPath "/")))
    eqn:Hk.
  - eexists. apply handleFsError_http. reflexivity.
  - eexists. apply handleFsError_http.
    rewrite (bind_Ret _ _ _ _ _ (throwIf_false _ _)).
    rewrite (bind_Ret _ _ _ _ _ (findMount_found _ _ _ _ _ _ H1)).
    cbv beta iota.
    rewrite (bind_Ret _ _ _ _ _ (findMount_found _ _ _ _ _ _ H2)).
    cbv beta iota.
    apply String.eqb_neq in Hne. rewrite Hne. reflexivity.
Qed.

(** C10.  [updateFile] rejects a string of more than 10 MiB code units and
    an [ArrayBuffer] of more than 10 MiB bytes with HTTP 400 and leaves the
    world as it was: the mount has not been resolved and storage has not
    been contacted. *)
Theorem updateFile_rejects_large_content (path : string) (content : Content)
    (userId : UserId) (userType secret : string) (w : World) :
  (exists s, content = CString s /\ JS.length s > 10 * 1024 * 1024)
  \/ (exists b, content = CArrayBuffer b /\ byteLength b > 10 * 1024 * 1024) ->
  updateFile path content userId userType secret w
  = Throw (HTTPException ApiStatus.BAD_REQUEST "文件内容过大，超过最大限制(10MB)") w.
Proof.
  intros H. apply handleFsError_http.
  assert (contentTooLarge content = true) as Hbig.
  { destruct H as [(s & -> & Hlen)|(b & -> & Hlen)]; simpl;
      unfold MAX_FILE_SIZE; lia. }
  rewrite Hbig. reflexivity.
Qed.

(** ** [getFileInfo] *)

Lemma getFileInfo_reaches_probe (path : string) (userId : UserId)
    (userType secret : string) (w : World) (mount : Mount) (subPath : string)
    (cfg : S3Config) (client : S3Client) :
  findMountPointByPath (w_db w) path userId userType = MountFound mount subPath ->
  selectS3Config (w_db w) (storage_config_id mount) = Some cfg ->
  createS3Client cfg secret = inr client ->
  getFileInfo path userId userType secret w
  = handleFsError
      (probeObject path mount cfg client (normalizeS3SubPath subPath cfg false))
      "获取文件信息失败" (stampMount (mount_id mount) w).
Proof.
  intros Hm Hc Hk. unfold getFileInfo, handleFsError, tryCatch.
  rewrite (bind_Ret _ _ _ _ _ (findMount_found _ _ _ _ _ _ Hm)). cbv beta iota.
  rewrite (bind_Ret _ _ _ _ _ (getS3Config_found _ _ _ Hc)).
  rewrite (bind_Ret _ _ _ _ _ (newS3Client_ok _ _ _ _ Hk)). cbv zeta.
  rewrite (bind_Ret _ _ _ _ _ (updateMountLastUsed_run _ _)).
  reflexivity.
Qed.

Lemma infoOfResponse_run (path : string) (mount : Mount) (key : string)
    (r : Output) (w : World) :
  exists info, infoOfResponse path mount key r w = Ret info w.
Proof. eexists. reflexivity. Qed.

Lemma releaseBody_run (body : option BodyStream) (w : World) :
  exists w',
    releaseBody body w = Ret tt w'
    /\ sentCommands w' = sentCommands w
    /\ releaseCalls w'
       = releaseCalls w
         ++ match body with
            | Some b => option_list (releaseMethod b)
            | None => []
            end.
Proof.
  unfold releaseBody, tryCatch.
  destruct body as [b|]; [|exists w; simpl; now rewrite app_nil_r].
  destruct (releaseMethod b) as [m|]; [|exists w; simpl; now rewrite app_nil_r].
  exists (addEffect (Released m) w).
  unfold bind, modify, throwIf, throw, ret.
  split; [destruct (release_throws b); reflexivity|].
  unfold sentCommands, releaseCalls. simpl. rewrite !omap_app. simpl.
  split; [apply app_nil_r|reflexivity].
Qed.

Lemma sentCommands_stamp (mountId : string) (w : World) :
  sentCommands (stampMount mountId w) = sentCommands w.
Proof. reflexivity. Qed.

(** ** Runs that only add commands *)

Lemma growing_ret {A} (a : A) : growing (ret a : SM A).
Proof. intros w. exists []. simpl. now rewrite app_nil_r. Qed.

Lemma growing_throw {A} (e : Exn) : growing (throw e : SM A).
Proof. intros w. exists []. simpl. now rewrite app_nil_r. Qed.

Lemma growing_throwIf (c : bool) (e : Exn) : growing (throwIf c e : SM unit).
Proof. destruct c; [apply growing_throw|apply growing_ret]. Qed.

Lemma growing_now : growing now.
Proof. intros w. exists []. simpl. now rewrite app_nil_r. Qed.

Lemma growing_send (client : S3Client) (c : Command) : growing (send client c).
Proof.
  intros w. destruct (s3_send client c (w_s3 w)) as [[e|out] s'] eqn:E.
  - rewrite (send_error _ _ _ _ _ E). exists [c]. apply sentCommands_sent.
  - rewrite (send_ok _ _ _ _ _ E). exists [c]. apply sentCommands_sent.
Qed.

Lemma growing_bind {A B} (m : SM A) (k : A -> SM B) :
  growing m -> (forall a, growing (k a)) -> growing (bind m k).
Proof.
  intros Hm Hk w. unfold bind. specialize (Hm w).
  destruct (m w) as [a w1|e w1|]; simpl in *; [|exact Hm|exact Hm].
  destruct Hm as [r1 E1]. specialize (Hk a w1).
  destruct (k a w1) as [b w2|e w2|]; simpl in *; try exact Hk;
    destruct Hk as [r2 E2]; exists (r1 ++ r2);
    rewrite E2, E1; now rewrite app_assoc.
Qed.

Lemma growing_tryCatch {A} (m : SM A) (h : Exn -> SM A) :
  growing m -> (forall e, growing (h e)) -> growing (tryCatch m h).
Proof.
  intros Hm Hh w. unfold tryCatch. specialize (Hm w).
  destruct (m w) as [a w1|e w1|]; simpl in *; [exact Hm| |exact Hm].
  destruct Hm as [r1 E1]. specialize (Hh e w1).
  destruct (h e w1) as [b w2|e' w2|]; simpl in *; try exact Hh;
    destruct Hh as [r2 E2]; exists (r1 ++ r2);
    rewrite E2, E1; now rewrite app_assoc.
Qed.

Lemma growing_released (method : string) :
  growing (modify (addEffect (Released method)) : SM unit).
Proof.
  intros w. exists []. unfold modify, sentCommands. simpl.
  rewrite omap_app. reflexivity.
Qed.

Lemma growing_stamp (mountId : string) : growing (updateMountLastUsed mountId).
Proof. intros w. exists []. simpl. now rewrite app_nil_r. Qed.

Lemma growing_releaseBody (body : option BodyStream) : growing (releaseBody body).
Proof.
  unfold releaseBody. apply growing_tryCatch; [|intros; apply growing_ret].
  destruct body as [b|]; [|apply growing_ret].
  destruct (releaseMethod b); [|apply growing_ret].
  apply growing_bind; [apply growing_released|intros; apply growing_throwIf].
Qed.

Lemma growing_infoOfResponse (path : string) (mount : Mount) (key : string)
    (r : Output) : growing (infoOfResponse path mount key r).
Proof.
  unfold infoOfResponse. apply growing_bind; [apply growing_now|].
  intros. apply growing_ret.
Qed.

Lemma beginsWith_send_bind {A} (client : S3Client) (c : Command)
    (k : Output -> SM A) (w : World) :
  (forall a, growing (k a)) -> beginsWith c w (bind (send client c) k w).
Proof.
  intros Hk. unfold bind.
  destruct (s3_send client c (w_s3 w)) as [[e|out] s'] eqn:E.
  - rewrite (send_error _ _ _ _ _ E). exists []. apply sentCommands_sent.
  - rewrite (send_ok _ _ _ _ _ E).
    specialize (Hk out (setS3 s' (addEffect (Sent c) w))).
    destruct (k out _) as [b w2|e w2|]; simpl in *; try exact Hk;
      destruct Hk as [r E2]; exists r; rewrite E2, sentCommands_sent;
      now rewrite <- app_assoc.
Qed.

Lemma beginsWith_tryCatch {A} (c : Command) (m : SM A) (h : Exn -> SM A)
    (w : World) :
  beginsWith c w (m w) -> (forall e, growing (h e)) ->
  beginsWith c w (tryCatch m h w).
Proof.
  intros Hm Hh. unfold tryCatch.
  destruct (m w) as [a w1|e w1|]; simpl in *; [exact Hm| |exact Hm].
  destruct Hm as [r1 E1]. specialize (Hh e w1).
  destruct (h e w1) as [b w2|e' w2|]; simpl in *; try exact Hh;
    destruct Hh as [r2 E2]; exists (r1 ++ r2);
    rewrite E2, E1; now rewrite <- app_assoc.
Qed.

(** Whatever the endpoint answers, the probe starts with the HEAD request
    and comes to an end. *)
Lemma probeObject_head_first (path : string) (mount : Mount) (cfg : S3Config)
    (client : S3Client) (key : string) (w : World) :
  beginsWith (HeadObjectCommand (bucket_name cfg) key) w
    (probeObject path mount cfg client key w).
Proof.
  unfold probeObject.
  apply beginsWith_tryCatch; [apply beginsWith_tryCatch|].
  - apply beginsWith_send_bind. intros. apply growing_infoOfResponse.
  - intros e. destruct (headNeedsGet e); [|apply growing_throw].
    apply growing_bind; [apply growing_send|]. intros.
    apply growing_bind; [apply growing_releaseBody|]. intros.
    apply growing_infoOfResponse.
  - intros e. destruct (statusIs (metadataStatus e) 404).
    + cbv zeta. apply growing_bind; [apply growing_send|]. intros r.
      destruct (nonEmptyContents r); [|apply growing_throw].
      apply growing_bind; [apply growing_now|]. intros. apply growing_ret.
    + destruct (statusIs (metadataStatus e) 403); [apply growing_throw|].
      destruct (isHTTPException e); apply growing_throw.
Qed.

Lemma beginsWith_handleFsError {A} (c : Command) (fn : SM A) (d : string)
    (w w1 : World) :
  beginsWith c w (fn w1) -> beginsWith c w (handleFsError fn d w1).
Proof.
  unfold handleFsError, tryCatch.
  destruct (fn w1) as [a w2|e w2|]; simpl; auto.
  destruct (isHTTPException e); simpl; auto.
Qed.

(** The GET fallback of the probe. *)
Lemma probeObject_get_fallback (path : string) (mount : Mount) (cfg : S3Config)
    (client : S3Client) (key : string) (w : World) (headError : Exn)
    (s1 s2 : S3State) (getResponse : Output) :
  s3_send client (HeadObjectCommand (bucket_name cfg) key) (w_s3 w)
  = (inl headError, s1) ->
  headNeedsGet headError = true ->
  s3_send client (GetObjectCommand (bucket_name cfg) key None) s1
  = (inr getResponse, s2) ->
  exists info w',
    probeObject path mount cfg client key w = Ret info w'
    /\ sentCommands w'
       = sentCommands w
         ++ [HeadObjectCommand (bucket_name cfg) key;
             GetObjectCommand (bucket_name cfg) key None]
    /\ releaseCalls w'
       = releaseCalls w
         ++ match out_Body getResponse with
            | Some b => option_list (releaseMethod b)
            | None => []
            end.
Proof.
  intros Hhead Hneeds Hget. unfold probeObject, tryCatch.
  rewrite (bind_Throw _ _ _ _ _ (send_error _ _ _ _ _ Hhead)).
  rewrite Hneeds.
  set (w1 := setS3 s1 (addEffect (Sent (HeadObjectCommand (bucket_name cfg) key)) w)).
  assert (s3_send client (GetObjectCommand (bucket_name cfg) key None) (w_s3 w1)
          = (inr getResponse, s2)) as Hget' by exact Hget.
  rewrite (bind_Ret _ _ _ _ _ (send_ok _ _ _ _ _ Hget')).
  set (w2 := setS3 s2 (addEffect (Sent (GetObjectCommand (bucket_name cfg) key None)) w1)).
  destruct (releaseBody_run (out_Body getResponse) w2) as (w3 & Hrel & Hsent & Hcalls).
  rewrite (bind_Ret _ _ _ _ _ Hrel).
  destruct (infoOfResponse_run path mount key getResponse w3) as [info Hinfo].
  rewrite Hinfo. exists info, w3. split; [reflexivity|]. split.
  - rewrite Hsent. unfold w2, w1. rewrite !sentCommands_sent.
    now rewrite <- app_assoc.
  - rewrite Hcalls. unfold w2, w1. now rewrite !releaseCalls_sent.
Qed.

(** The directory listing of the probe after a 404. *)
Lemma probeObject_not_found (path : string) (mount : Mount) (cfg : S3Config)
    (client : S3Client) (key : string) (w : World) (headError : Exn)
    (s1 s2 : S3State) (listResponse : Output) :
  s3_send client (HeadObjectCommand (bucket_name cfg) key) (w_s3 w)
  = (inl headError, s1) ->
  headNeedsGet headError = false ->
  metadataStatus headError = Some 404 ->
  s3_send client
    (ListObjectsV2Command (bucket_name cfg) (asPrefix key) None (Some 1) None) s1
  = (inr listResponse, s2) ->
  exists w',
    sentCommands w'
    = sentCommands w
      ++ [HeadObjectCommand (bucket_name cfg) key;
          ListObjectsV2Command (bucket_name cfg) (asPrefix key) None (Some 1) None]
    /\ if nonEmptyContents listResponse
       then exists info,
              probeObject path mount cfg client key w = Ret info w'
              /\ fi_isDirectory info = true
       else probeObject path mount cfg client key w
            = Throw (HTTPException ApiStatus.NOT_FOUND "文件或目录不存在") w'.
Proof.
  intros Hhead Hneeds H404 Hlist.
  set (w1 := setS3 s1 (addEffect (Sent (HeadObjectCommand (bucket_name cfg) key)) w)).
  assert (s3_send client
            (ListObjectsV2Command (bucket_name cfg) (asPrefix key) None (Some 1) None)
            (w_s3 w1) = (inr listResponse, s2)) as Hlist' by exact Hlist.
  exists (setS3 s2
            (addEffect
               (Sent (ListObjectsV2Command (bucket_name cfg) (asPrefix key)
                        None (Some 1) None)) w1)).
  split.
  - unfold w1. rewrite !sentCommands_sent. now rewrite <- app_assoc.
  - destruct (nonEmptyContents listResponse) eqn:Hne.
    + eexists. unfold probeObject, tryCatch.
      rewrite (bind_Throw _ _ _ _ _ (send_error _ _ _ _ _ Hhead)).
      rewrite Hneeds. unfold throw at 1. rewrite H404.
      change (statusIs (Some 404) 404) with true. cbv iota zeta.
      fold w1. rewrite (bind_Ret _ _ _ _ _ (send_ok _ _ _ _ _ Hlist')).
      rewrite Hne. split; reflexivity.
    + unfold probeObject, tryCatch.
      rewrite (bind_Throw _ _ _ _ _ (send_error _ _ _ _ _ Hhead)).
      rewrite Hneeds. unfold throw at 1. rewrite H404.
      change (statusIs (Some 404) 404) with true. cbv iota zeta.
      fold w1. rewrite (bind_Ret _ _ _ _ _ (send_ok _ _ _ _ _ Hlist')).
      rewrite Hne. reflexivity.
Qed.

(** C6.  Once the mount, its configuration and a client are there,
    [getFileInfo] sends HEAD before anything else.  When HEAD fails with
    HTTP 403, or with the name or a message of an UnknownError, it sends a
    GET without Range and, the GET answered, calls the release method of the
    body (the first of destroy, cancel, close, abort that the body has) and
    returns.  When HEAD fails otherwise with HTTP 404 it lists one key under
    the key in directory form and returns a directory if the listing is not
    empty, and throws HTTP 404 if it is. *)
Theorem getFileInfo_head_get_list (path : string) (userId : UserId)
    (userType secret : string) (w : World) (mount : Mount) (subPath : string)
    (cfg : S3Config) (client : S3Client) :
  findMountPointByPath (w_db w) path userId userType = MountFound mount subPath ->
  selectS3Config (w_db w) (storage_config_id mount) = Some cfg ->
  createS3Client cfg secret = inr client ->
  let bucket := bucket_name cfg in
  let key := normalizeS3SubPath subPath cfg false in
  let head := HeadObjectCommand bucket key in
  let get := GetObjectCommand bucket key None in
  let list := ListObjectsV2Command bucket (asPrefix key) None (Some 1) None in
  beginsWith head w (getFileInfo path userId userType secret w)
  /\ forall (headError : Exn) (s1 : S3State),
      s3_send client head (w_s3 w) = (inl headError, s1) ->
      (headNeedsGet headError = true ->
       forall (getResponse : Output) (s2 : S3State),
         s3_send client get s1 = (inr getResponse, s2) ->
         exists info w',
           getFileInfo path userId userType secret w = Ret info w'
           /\ sentCommands w' = sentCommands w ++ [head; get]
           /\ releaseCalls w'
              = releaseCalls w
                ++ match out_Body getResponse with
                   | Some b => option_list (releaseMethod b)
                   | None => []
                   end)
      /\ (headNeedsGet headError = false ->
          metadataStatus headError = Some 404 ->
          forall (listResponse : Output) (s2 : S3State),
            s3_send client list s1 = (inr listResponse, s2) ->
            exists w',
              sentCommands w' = sentCommands w ++ [head; list]
              /\ if nonEmptyContents listResponse
                 then exists info,
                        getFileInfo path userId userType secret w = Ret info w'
                        /\ fi_isDirectory info = true
                 else getFileInfo path userId userType secret w
                      = Throw (HTTPException ApiStatus.NOT_FOUND
                                 "文件或目录不存在") w').
Proof.
  intros Hm Hc Hk bucket key head get list.
  rewrite (getFileInfo_reaches_probe _ _ _ _ _ _ _ _ _ Hm Hc Hk).
  fold key. set (w1 := stampMount (mount_id mount) w).
  split.
  - apply beginsWith_handleFsError.
    pose proof (probeObject_head_first path mount cfg client key w1) as Hp.
    exact Hp.
  - intros headError s1 Hhead. split.
    + intros Hneeds getResponse s2 Hget.
      destruct (probeObject_get_fallback path mount cfg client key w1
                  headError s1 s2 getResponse Hhead Hneeds Hget)
        as (info & w' & Hrun & Hsent & Hcalls).
      exists info, w'. split; [now apply handleFsError_ret|]. split; assumption.
    + intros Hneeds H404 listResponse s2 Hlist.
      destruct (probeObject_not_found path mount cfg client key w1
                  headError s1 s2 listResponse Hhead Hneeds H404 Hlist)
        as (w' & Hsent & Hres).
      exists w'. split; [exact Hsent|].
      destruct (nonEmptyContents listResponse).
      * destruct Hres as (info & Hrun & Hdir). exists info.
        split; [now apply handleFsError_ret|exact Hdir].
      * now apply handleFsError_http.
Qed.

(** ** [updateFile] and [uploadFile]: executable content *)

Lemma updateFile_reaches_body (path : string) (content : Content)
    (userId : UserId) (userType secret : string) (w : World) (mount : Mount)
    (subPath : string) (cfg : S3Config) (client : S3Client) :
  contentTooLarge content = false ->
  findMountPointByPath (w_db w) path userId userType = MountFound mount subPath ->
  selectS3Config (w_db w) (storage_config_id mount) = Some cfg ->
  createS3Client cfg secret = inr client ->
  updateFile path content userId userType secret w
  = handleFsError
      (tryCatch
         (updateBody path content mount subPath cfg client
            (normalizeS3SubPath subPath cfg false))
         updateErrors)
      "更新文件失败" (stampMount (mount_id mount) w).
Proof.
  intros Hsize Hm Hc Hk.
  unfold updateFile, handleFsError. unfold tryCatch at 1 3.
  rewrite Hsize. rewrite (bind_Ret _ _ _ _ _ (throwIf_false _ _)).
  rewrite (bind_Ret _ _ _ _ _ (findMount_found _ _ _ _ _ _ Hm)). cbv beta iota.
  rewrite (bind_Ret _ _ _ _ _ (getS3Config_found _ _ _ Hc)).
  rewrite (bind_Ret _ _ _ _ _ (newS3Client_ok _ _ _ _ Hk)). cbv zeta.
  rewrite (bind_Ret _ _ _ _ _ (updateMountLastUsed_run _ _)).
  reflexivity.
Qed.



Lemma invalidateAll_setCache (mountId : string) (paths : list string) (w : World) :
  exists n c, invalidateAll mountId paths w = Ret n (setCache c w).
Proof.
  revert w. induction paths as [|p rest IH]; intros w.
  - exists 0, (w_cache w). now destruct w.
  - cbn [invalidateAll].
    rewrite (bind_Ret _ _ _ _ _ (eq_refl : directoryCache_invalidate mountId p w = _)).
    destruct (IH (setCache (delete (mountId, p) (w_cache w)) w)) as (n & c & Hrun).
    rewrite (bind_Ret _ _ _ _ _ Hrun). eexists _, c. reflexivity.
Qed.



End ServiceProperties.

(* ===================================================================== *)
(** * [listDirectory]: the resolution of the path *)
(* ===================================================================== *)

Section VirtualListingBuilt.





End VirtualListingBuilt.

Section ListingProperties.

Context {Hb : S3Backend} {Hs : Helpers}.




End ListingProperties.

(* ===================================================================== *)
(** * Mutations and the directory cache *)
(* ===================================================================== *)

Section MutationProperties.

Context {Hb : S3Backend} {Hs : Helpers}.

Lemma bind_Ret_inv {S A B} (m : M S A) (k : A -> M S B) (s s' : S) (b : B) :
  bind m k s = Ret b s' -> exists a s1, m s = Ret a s1 /\ k a s1 = Ret b s'.
Proof.
  unfold bind. destruct (m s) as [a s1|e s1|]; try discriminate. eauto.
Qed.

Lemma tryCatch_Ret_inv {S A} (m : M S A) (h : Exn -> M S A) (s s' : S) (a : A) :
  tryCatch m h s = Ret a s' ->
  m s = Ret a s' \/ exists e s1, m s = Throw e s1 /\ h e s1 = Ret a s'.
Proof.
  unfold tryCatch. destruct (m s) as [a0 s1|e s1|]; try discriminate; eauto.
Qed.

Lemma throwIf_Ret_inv {S} (c : bool) (e : Exn) (s s' : S) (u : unit) :
  throwIf c e s = Ret u s' -> c = false /\ s' = s.
Proof. destruct c; [discriminate|]. now intros [= <-]. Qed.

Lemma ret_inv {S A} (a b : A) (s s' : S) :
  (ret a : M S A) s = Ret b s' -> b = a /\ s' = s.
Proof. now intros [= <- <-]. Qed.

Lemma findMount_inv (path : string) (userId : UserId) (userType : string)
    (w w' : World) (m : Mount) (sub : string) :
  findMount path userId userType w = Ret (m, sub) w' ->
  w' = w /\ findMountPointByPath (w_db w) path userId userType = MountFound m sub.
Proof.
  unfold findMount, bind, get.
  destruct (findMountPointByPath (w_db w) path userId userType);
    [discriminate|].
  now intros [= <- <- <-].
Qed.

Lemma getS3Config_inv (mount : Mount) (w w' : World) (c : S3Config) :
  getS3Config mount w = Ret c w' -> w' = w.
Proof.
  unfold getS3Config, bind, get.
  destruct (selectS3Config _ _); [|discriminate]. now intros [= <- <-].
Qed.

Lemma newS3Client_inv (c : S3Config) (secret : string) (w w' : World)
    (client : S3Client) :
  newS3Client c secret w = Ret client w' -> w' = w.
Proof.
  unfold newS3Client. destruct (createS3Client c secret); [discriminate|].
  now intros [= <- <-].
Qed.

Lemma endsWith_includes (s p : string) :
  JS.endsWith s p = true -> JS.includes s p = true.
Proof.
  rewrite endsWith_iff, includes_iff. intros [t ->]. exists t, "".
  now rewrite append_nil_r.
Qed.

(** What [invalidatePathAndAncestors] on the computed parent gives for the
    directories above the path, and for the path itself when it ends in a
    slash and the scan starts at its last code unit. *)
Lemma parent_invalidation (mountId s : string) (pos : Z) (w w' : World) (n : Z) :
  JS.length s - 2 <= pos ->
  directoryCache_invalidatePathAndAncestors mountId
    (JS.substring s 0 (JS.lastIndexOf s "/" pos + 1)) w = Ret n w' ->
  (forall a, isAncestorDirectory a s -> w_cache w' !! (mountId, a) = None)
  /\ (JS.endsWith s "/" = true -> JS.length s - 1 <= pos ->
      w_cache w' !! (mountId, s) = None)
  /\ cacheShrinks w w'.
Proof.
  intros Hpos Hrun.
  destruct (invalidatePathAndAncestors_run mountId
              (JS.substring s 0 (JS.lastIndexOf s "/" pos + 1)) w)
    as (n' & w2 & Hrun' & Hself & Hanc & Hshr).
  rewrite Hrun in Hrun'. injection Hrun' as -> ->.
  split; [|split; [|exact Hshr]].
  - intros a Ha.
    destruct (ancestors_covered s _ a Hpos Ha) as [->|Hab];
      [exact Hself|now apply Hanc].
  - intros He Hlast. now rewrite (parent_of_slashed s pos He Hlast) in Hself.
Qed.

(** The cache refresh at the end of a removal or a renaming. *)
Lemma refreshParent_spec (mountId s : string) (isDirectory : bool)
    (w w' : World) :
  refreshParent mountId s isDirectory w = Ret tt w' ->
  (forall a, isAncestorDirectory a s -> w_cache w' !! (mountId, a) = None)
  /\ (isDirectory = false -> JS.endsWith s "/" = true ->
      w_cache w' !! (mountId, s) = None)
  /\ cacheShrinks w w'.
Proof.
  unfold refreshParent.
  destruct (negb (String.eqb s "/") && JS.includes s "/") eqn:Hg.
  - intros H. apply bind_Ret_inv in H as (n & w1 & Hrun & Hret).
    apply ret_inv in Hret as [_ ->]. unfold parentSubPathOf in Hrun.
    apply parent_invalidation in Hrun as (Hanc & Hself & Hshr);
      [|destruct isDirectory; lia].
    split; [exact Hanc|]. split; [|exact Hshr].
    intros -> He. apply Hself; [exact He|lia].
  - assert (forall a, ~ isAncestorDirectory a s) as Hno.
    { intros a. apply andb_false_iff in Hg as [Hg|Hg].
      - apply negb_false_iff, String.eqb_eq in Hg as ->.
        apply no_ancestor_of_root.
      - now apply no_ancestor_without_slash. }
    destruct isDirectory; cbn [negb].
    + intros H. apply ret_inv in H as [_ ->].
      split; [intros a Ha; now destruct (Hno a)|].
      split; [discriminate|apply cacheShrinks_refl].
    + intros H. apply bind_Ret_inv in H as (b & w1 & Hrun & Hret).
      apply ret_inv in Hret as [_ ->].
      destruct (invalidate_run mountId "/" w) as (b' & w2 & Hrun' & Hnone & Hshr).
      rewrite Hrun in Hrun'. injection Hrun' as -> ->.
      split; [intros a Ha; now destruct (Hno a)|]. split; [|exact Hshr].
      intros _ He. apply endsWith_includes in He as Hi. rewrite Hi in Hg.
      rewrite andb_true_r in Hg.
      apply negb_false_iff, String.eqb_eq in Hg as ->. exact Hnone.
Qed.

(** The parent of a directory path is shorter than the path, the root
    apart. *)
Lemma parentOfDirectory_shorter (mountId s : string) :
  s <> "" -> s <> "/" -> shorterKey s (mountId, parentOfDirectory s).
Proof.
  intros Hne Hroot. unfold shorterKey, parentOfDirectory. cbn [snd].
  set (parent := JS.substring s 0 (JS.lastIndexOf s "/" (JS.length s - 2) + 1)).
  assert (String.prefix parent s = true) as Hpre.
  { destruct (lastSlash_cases s (JS.length s - 2)) as [H|(j & Hr & _ & _ & _)];
      fold parent in H || idtac.
    - rewrite H. apply prefix_nil.
    - unfold parent. rewrite substring_0 by lia. apply take_prefix. }
  pose proof (prefix_length _ _ Hpre) as Hle.
  destruct (Nat.eq_dec (String.length parent) (String.length s)) as [Heq|];
    [|lia].
  apply (prefix_same_length _ _ Hpre) in Heq.
  destruct (parent_is_self s (JS.length s - 2) Hne Heq) as [He Hlen].
  unfold JS.length in Hlen.
  apply endsWith_iff in He as [t Ht].
  destruct t as [|c t]; [now rewrite Ht in Hroot|].
  rewrite Ht in Hlen. simpl in Hlen. rewrite length_append in Hlen.
  simpl in Hlen. lia.
Qed.

Lemma createDirectory_cache (path : string) (userId : UserId)
    (userType secret : string) (w w' : World) (m : Mount) (s : string) :
  createDirectory path userId userType secret w = Ret tt w' ->
  findMountPointByPath (w_db w) (normalizePath path true) userId userType
  = MountFound m s ->
  forall a, isAncestorDirectory a s -> w_cache w' !! (mount_id m, a) = None.
Proof.
  intros H Hm. apply handleFsError_ret_inv in H. cbv zeta in H.
  apply bind_Ret_inv in H as ([m0 s0] & w1 & Hf & H).
  apply findMount_inv in Hf as [-> Hf]. rewrite Hm in Hf.
  injection Hf as <- <-.
  apply bind_Ret_inv in H as (cfg & w2 & Hc & H).
  apply getS3Config_inv in Hc as ->.
  apply bind_Ret_inv in H as (client & w3 & Hk & H).
  apply newS3Client_inv in Hk as ->.
  apply bind_Ret_inv in H as (u & w4 & Hparent & H).
  apply tryCatch_Ret_inv in H as [H|(e & w5 & Hhead & H)].
  { apply bind_Ret_inv in H as (o & w5 & _ & H). discriminate H. }
  destruct (statusIs (metadataStatus e) 404); [|discriminate H].
  apply bind_Ret_inv in H as (out & w6 & Hput & H).
  apply bind_Ret_inv in H as (u2 & w7 & Hst & H).
  destruct (negb (String.eqb s "/")) eqn:Hroot.
  - apply bind_Ret_inv in H as (n & w8 & Hinv & H).
    apply ret_inv in H as [_ ->].
    unfold parentOfDirectory in Hinv.
    apply parent_invalidation in Hinv as [Hanc _]; [exact Hanc|lia].
  - apply ret_inv in H as [_ ->].
    apply negb_false_iff, String.eqb_eq in Hroot as ->.
    intros a Ha. now destruct (no_ancestor_of_root a).
Qed.

(** The creation of a directory only drops entries of paths shorter than
    the sub-path: the entry of the sub-path itself stays. *)
Lemma createDirectory_frame (path : string) (userId : UserId)
    (userType secret : string) (w w' : World) (m : Mount) (s : string) :
  createDirectory path userId userType secret w = Ret tt w' ->
  findMountPointByPath (w_db w) (normalizePath path true) userId userType
  = MountFound m s ->
  s <> "" ->
  cacheDrops (shorterKey s) w w'.
Proof.
  intros H Hm Hne. apply handleFsError_ret_inv in H. cbv zeta in H.
  apply bind_Ret_inv in H as ([m0 s0] & w1 & Hf & H).
  apply findMount_inv in Hf as [-> Hf]. rewrite Hm in Hf.
  injection Hf as <- <-.
  apply bind_Ret_inv in H as (cfg & w2 & Hc & H).
  apply getS3Config_inv in Hc as ->.
  apply bind_Ret_inv in H as (client & w3 & Hk & H).
  apply newS3Client_inv in Hk as ->.
  match type of H with
  | ?rest w = _ => assert (dropsOnly (shorterKey s) rest) as Hd
  end.
  { apply dropsOnly_bind; [apply dropsOnly_keeps, keepsCache_parentCheck|].
    intros _. apply dropsOnly_tryCatch.
    - apply dropsOnly_keeps, keeps_bind; [apply keepsCache_send|].
      intros. apply keeps_throw.
    - intros e. destruct (statusIs _ _);
        [|apply dropsOnly_keeps, keeps_throw].
      apply dropsOnly_bind; [apply dropsOnly_keeps, keepsCache_send|].
      intros _.
      apply dropsOnly_bind; [apply dropsOnly_keeps, keepsCache_stamp|].
      intros _.
      destruct (negb (String.eqb s "/")) eqn:Hroot;
        [|apply dropsOnly_keeps, keeps_ret].
      apply negb_true_iff, String.eqb_neq in Hroot.
      pose proof (parentOfDirectory_shorter (mount_id m) s Hne Hroot) as Hsh.
      apply dropsOnly_bind; [|intros; apply dropsOnly_keeps, keeps_ret].
      apply dropsOnly_pathAndAncestors; [exact Hsh|].
      intros a (_ & Hp & _). apply prefix_length in Hp.
      unfold shorterKey in *. cbn [snd] in *. lia. }
  specialize (Hd w). now rewrite H in Hd.
Qed.

Lemma no_ancestor_unguarded (s a : string) :
  negb (String.eqb s "/") && JS.includes s "/" = false ->
  ~ isAncestorDirectory a s.
Proof.
  intros Hg. apply andb_false_iff in Hg as [Hg|Hg].
  - apply negb_false_iff, String.eqb_eq in Hg as ->. apply no_ancestor_of_root.
  - now apply no_ancestor_without_slash.
Qed.

Lemma uploadFile_cache (path : string) (file : File) (userId : UserId)
    (userType secret : string) (w w' : World) (m : Mount) (s : string)
    (r : UploadResult) :
  uploadFile path file userId userType secret false w = Ret r w' ->
  findMountPointByPath (w_db w) path userId userType = MountFound m s ->
  (forall a, isAncestorDirectory a s -> w_cache w' !! (mount_id m, a) = None)
  /\ (JS.endsWith s "/" = true -> w_cache w' !! (mount_id m, s) = None).
Proof.
  intros H Hm. apply handleFsError_ret_inv in H. cbv iota zeta in H.
  apply bind_Ret_inv in H as ([m0 s0] & w1 & Hf & H).
  apply findMount_inv in Hf as [-> Hf]. rewrite Hm in Hf.
  injection Hf as <- <-.
  apply bind_Ret_inv in H as (cfg & w2 & Hc & H).
  apply getS3Config_inv in Hc as ->.
  apply bind_Ret_inv in H as (client & w3 & Hk & H).
  apply newS3Client_inv in Hk as ->.
  apply bind_Ret_inv in H as (u & w4 & Hparent & H).
  apply bind_Ret_inv in H as (out & w5 & Hput & H).
  apply bind_Ret_inv in H as (u2 & w6 & Hst & H).
  apply bind_Ret_inv in H as (fid & w7 & Hid & H).
  apply bind_Ret_inv in H as (t & w8 & Ht & H).
  apply bind_Ret_inv in H as (u3 & w9 & Hins & H).
  apply bind_Ret_inv in H as (u4 & w10 & Hinv & H).
  apply ret_inv in H as [_ ->].
  destruct (negb (String.eqb s "/") && JS.includes s "/") eqn:Hg.
  - apply bind_Ret_inv in Hinv as (n & w11 & Hinv & H).
    apply ret_inv in H as [_ ->].
    unfold upToLastSlash, JS.lastIndexOfEnd in Hinv.
    apply parent_invalidation in Hinv as (Hanc & Hself & _); [|lia].
    split; [exact Hanc|]. intros He. apply Hself; [exact He|lia].
  - split; [intros a Ha; now destruct (no_ancestor_unguarded s a Hg)|].
    intros He. apply endsWith_includes in He as Hi. rewrite Hi in Hg.
    rewrite andb_true_r in Hg.
    apply negb_false_iff, String.eqb_eq in Hg as ->.
    apply bind_Ret_inv in Hinv as (b & w11 & Hinv & H).
    apply ret_inv in H as [_ ->].
    destruct (invalidate_run (mount_id m) "/" w9) as (b' & w12 & Hrun' & Hnone & _).
    rewrite Hinv in Hrun'. injection Hrun' as -> ->. exact Hnone.
Qed.

Lemma updateErrors_throws (e : Exn) (w : World) :
  exists e', updateErrors e w = Throw e' w.
Proof.
  unfold updateErrors.
  repeat match goal with
         | |- context [if ?c then _ else _] => destruct c
         end; eexists; reflexivity.
Qed.

Lemma updateFile_cache (path : string) (content : Content) (userId : UserId)
    (userType secret : string) (w w' : World) (m : Mount) (s : string)
    (r : UpdateResult) :
  updateFile path content userId userType secret w = Ret r w' ->
  findMountPointByPath (w_db w) path userId userType = MountFound m s ->
  0 < cache_ttl m ->
  (forall a, isAncestorDirectory a s -> w_cache w' !! (mount_id m, a) = None)
  /\ (JS.endsWith s "/" = true -> s <> "/" ->
      w_cache w' !! (mount_id m, s) = None).
Proof.
  intros H Hm Httl. apply handleFsError_ret_inv in H.
  apply bind_Ret_inv in H as (u0 & w0 & Hsize & H).
  apply throwIf_Ret_inv in Hsize as [_ ->].
  apply bind_Ret_inv in H as ([m0 s0] & w1 & Hf & H).
  apply findMount_inv in Hf as [-> Hf]. rewrite Hm in Hf.
  injection Hf as <- <-.
  apply bind_Ret_inv in H as (cfg & w2 & Hc & H).
  apply getS3Config_inv in Hc as ->.
  apply bind_Ret_inv in H as (client & w3 & Hk & H).
  apply newS3Client_inv in Hk as ->. cbv zeta in H.
  apply bind_Ret_inv in H as (u & w4 & Hst & H).
  apply tryCatch_Ret_inv in H as [H|(e & w5 & _ & H)].
  2:{ destruct (updateErrors_throws e w5) as [e' He]. congruence. }
  unfold updateBody in H. cbv zeta in H.
  apply bind_Ret_inv in H as (orig & w5 & Horig & H).
  apply bind_Ret_inv in H as (ct & w6 & Hct & H).
  apply bind_Ret_inv in H as (out & w7 & Hput & H).
  apply bind_Ret_inv in H as (u4 & w8 & Hinv & H).
  apply ret_inv in H as [_ ->].
  replace (0 <? cache_ttl m) with true in Hinv by lia.
  destruct (negb (String.eqb s "/") && JS.includes s "/") eqn:Hg.
  - apply bind_Ret_inv in Hinv as (n & w11 & Hinv & H).
    apply ret_inv in H as [_ ->].
    unfold upToLastSlash, JS.lastIndexOfEnd in Hinv.
    apply parent_invalidation in Hinv as (Hanc & Hself & _); [|lia].
    split; [exact Hanc|]. intros He _. apply Hself; [exact He|lia].
  - split; [intros a Ha; now destruct (no_ancestor_unguarded s a Hg)|].
    intros He Hroot. apply endsWith_includes in He as Hi. rewrite Hi in Hg.
    rewrite andb_true_r in Hg.
    now apply negb_false_iff, String.eqb_eq in Hg.
Qed.

(** An update only drops entries of directories, and none at all for a
    mount that does not cache or for the root sub-path. *)
Lemma updateFile_frame (path : string) (content : Content) (userId : UserId)
    (userType secret : string) (w w' : World) (m : Mount) (s : string)
    (r : UpdateResult) :
  updateFile path content userId userType secret w = Ret r w' ->
  findMountPointByPath (w_db w) path userId userType = MountFound m s ->
  cacheDrops (fun k => 0 < cache_ttl m /\ s <> "/" /\ directoryKey k) w w'.
Proof.
  intros H Hm. apply handleFsError_ret_inv in H.
  apply bind_Ret_inv in H as (u0 & w0 & Hsize & H).
  apply throwIf_Ret_inv in Hsize as [_ ->].
  apply bind_Ret_inv in H as ([m0 s0] & w1 & Hf & H).
  apply findMount_inv in Hf as [-> Hf]. rewrite Hm in Hf.
  injection Hf as <- <-.
  apply bind_Ret_inv in H as (cfg & w2 & Hc & H).
  apply getS3Config_inv in Hc as ->.
  apply bind_Ret_inv in H as (client & w3 & Hk & H).
  apply newS3Client_inv in Hk as ->. cbv zeta in H.
  match type of H with
  | ?rest w = _ =>
      assert (dropsOnly
                (fun k => 0 < cache_ttl m /\ s <> "/" /\ directoryKey k) rest)
        as Hd
  end.
  { apply dropsOnly_bind; [apply dropsOnly_keeps, keepsCache_stamp|].
    intros _. apply dropsOnly_tryCatch.
    2:{ intros e. apply dropsOnly_keeps. intros w0.
        destruct (updateErrors_throws e w0) as [e' ->]. reflexivity. }
    unfold updateBody. cbv zeta.
    apply dropsOnly_bind.
    { apply dropsOnly_keeps, keeps_tryCatch.
      - apply keeps_bind; [apply keepsCache_send|]. intros. apply keeps_ret.
      - intros. apply keeps_ret. }
    intros orig. apply dropsOnly_bind.
    { apply dropsOnly_keeps.
      assert (forall fileName d,
                keeps w_cache (classifyUpdate fileName d orig)) as Hcl.
      { intros fileName d. unfold classifyUpdate.
        destruct (getMimeTypeAndGroupFromFile _ _) as [mt mg].
        apply keeps_bind; [apply keeps_throwIf|]. intros. apply keeps_ret. }
      destruct content; try apply Hcl. apply keeps_throw. }
    intros ct.
    apply dropsOnly_bind; [apply dropsOnly_keeps, keepsCache_send|].
    intros result.
    apply dropsOnly_bind; [|intros; apply dropsOnly_keeps, keeps_ret].
    destruct (0 <? cache_ttl m) eqn:Httl;
      [|apply dropsOnly_keeps, keeps_ret].
    destruct (negb (String.eqb s "/")) eqn:Hroot; cbn [andb];
      [|apply dropsOnly_keeps, keeps_ret].
    destruct (JS.includes s "/"); [|apply dropsOnly_keeps, keeps_ret].
    apply negb_true_iff, String.eqb_neq in Hroot.
    apply dropsOnly_bind; [|intros; apply dropsOnly_keeps, keeps_ret].
    unfold upToLastSlash, JS.lastIndexOfEnd.
    apply dropsOnly_pathAndAncestors.
    - split; [lia|]. split; [exact Hroot|]. apply parent_shape.
    - intros a (He & _). split; [lia|]. split; [exact Hroot|]. now right. }
  specialize (Hd w). now rewrite H in Hd.
Qed.

Lemma modify_inv {S} (f : S -> S) (s s' : S) (u : unit) :
  modify f s = Ret u s' -> s' = f s.
Proof. now intros [= <-]. Qed.

Lemma removeItem_cache (fuel : nat) (path : string) (userId : UserId)
    (userType secret : string) (w w' : World) (m : Mount) (s : string) :
  removeItem fuel path userId userType secret w = Ret tt w' ->
  findMountPointByPath (w_db w) path userId userType = MountFound m s ->
  (forall a, isAncestorDirectory a s -> w_cache w' !! (mount_id m, a) = None)
  /\ (JS.endsWith path "/" || JS.endsWith s "/" = true ->
      w_cache w' !! (mount_id m, s) = None).
Proof.
  intros H Hm. apply handleFsError_ret_inv in H.
  apply bind_Ret_inv in H as ([m0 s0] & w1 & Hf & H).
  apply findMount_inv in Hf as [-> Hf]. rewrite Hm in Hf.
  injection Hf as <- <-.
  apply bind_Ret_inv in H as (cfg & w2 & Hc & H).
  apply getS3Config_inv in Hc as ->.
  apply bind_Ret_inv in H as (client & w3 & Hk & H).
  apply newS3Client_inv in Hk as ->. cbv zeta in H.
  apply bind_Ret_inv in H as (u & w4 & Hmain & H).
  apply bind_Ret_inv in H as (u1 & w5 & Hrec & H).
  apply bind_Ret_inv in H as (u2 & w6 & Hst & H).
  apply refreshParent_spec in H as (Hanc & Hself & Hshr).
  split; [exact Hanc|].
  destruct (JS.endsWith path "/") eqn:Hdir; cbn [orb];
    [intros _|now apply Hself].
  apply bind_Ret_inv in Hmain as (u3 & w7 & _ & Hmain).
  apply bind_Ret_inv in Hmain as (b & w8 & Hinv & Hmain).
  apply ret_inv in Hmain as [_ ->].
  destruct (invalidate_run (mount_id m) s w7) as (b' & w9 & Hinv' & Hnone & _).
  rewrite Hinv in Hinv'. injection Hinv' as -> ->.
  apply Hshr.
  apply modify_inv in Hst as ->.
  apply tryCatch_Ret_inv in Hrec as [Hrec|(e & w10 & Hrec & _)];
    [|discriminate Hrec].
  apply modify_inv in Hrec as ->. exact Hnone.
Qed.

Lemma shrinks_keeps_none (w w' : World) (k : string * string) :
  cacheShrinks w w' -> w_cache w !! k = None -> w_cache w' !! k = None.
Proof. intros H. apply H. Qed.

Lemma renameItem_cache (fuel : nat) (oldPath newPath : string)
    (userId : UserId) (userType secret : string) (w w' : World)
    (m1 m2 : Mount) (s1 s2 : string) :
  renameItem fuel oldPath newPath userId userType secret w = Ret tt w' ->
  findMountPointByPath (w_db w) oldPath userId userType = MountFound m1 s1 ->
  findMountPointByPath (w_db w) newPath userId userType = MountFound m2 s2 ->
  mount_id m2 = mount_id m1
  /\ (forall a, isAncestorDirectory a s1 -> w_cache w' !! (mount_id m1, a) = None)
  /\ (forall a, isAncestorDirectory a s2 -> w_cache w' !! (mount_id m1, a) = None)
  /\ (JS.endsWith oldPath "/" || JS.endsWith s1 "/" = true ->
      w_cache w' !! (mount_id m1, s1) = None)
  /\ (JS.endsWith oldPath "/" || JS.endsWith s2 "/" = true ->
      w_cache w' !! (mount_id m1, s2) = None).
Proof.
  intros H Hm1 Hm2. apply handleFsError_ret_inv in H. cbv zeta in H.
  apply bind_Ret_inv in H as (u0 & w0 & Hkind & H).
  apply throwIf_Ret_inv in Hkind as [Hkind ->].
  apply negb_false_iff, Bool.eqb_prop in Hkind.
  apply bind_Ret_inv in H as ([m0 s0] & w1 & Hf & H).
  apply findMount_inv in Hf as [-> Hf]. rewrite Hm1 in Hf.
  injection Hf as <- <-.
  apply bind_Ret_inv in H as ([m0 s0] & w1 & Hf & H).
  apply findMount_inv in Hf as [-> Hf]. rewrite Hm2 in Hf.
  injection Hf as <- <-.
  apply bind_Ret_inv in H as (u1 & w1 & Hsame & H).
  apply throwIf_Ret_inv in Hsame as [Hsame ->].
  apply negb_false_iff, String.eqb_eq in Hsame.
  apply bind_Ret_inv in H as (cfg & w2 & Hc & H).
  apply getS3Config_inv in Hc as ->.
  apply bind_Ret_inv in H as (client & w3 & Hk & H).
  apply newS3Client_inv in Hk as ->.
  apply bind_Ret_inv in H as (u2 & w4 & Hparent & H).
  apply bind_Ret_inv in H as (u3 & w5 & Hprobe & H).
  apply bind_Ret_inv in H as (u4 & w6 & Hmain & H).
  apply bind_Ret_inv in H as (u5 & w7 & Hst & H).
  apply bind_Ret_inv in H as (u6 & w8 & Hold & H).
  destruct u6.
  apply refreshParent_spec in Hold as (Hanc1 & Hself1 & Hshr1).
  apply refreshParent_spec in H as (Hanc2 & Hself2 & Hshr2).
  split; [now symmetry|]. split; [|split; [exact Hanc2|]].
  - intros a Ha. apply Hshr2. now apply Hanc1.
  - destruct (JS.endsWith oldPath "/") eqn:Hdir; cbn [orb].
    + apply bind_Ret_inv in Hmain as (u7 & w9 & _ & Hmain).
      apply bind_Ret_inv in Hmain as (b1 & w10 & Hinv1 & Hmain).
      apply bind_Ret_inv in Hmain as (b2 & w11 & Hinv2 & Hmain).
      apply ret_inv in Hmain as [_ ->].
      destruct (invalidate_run (mount_id m1) s1 w9)
        as (b1' & w10' & Hinv1' & Hnone1 & _).
      rewrite Hinv1 in Hinv1'. injection Hinv1' as <- <-.
      destruct (invalidate_run (mount_id m1) s2 w10)
        as (b2' & w11' & Hinv2' & Hnone2 & Hshr).
      rewrite Hinv2 in Hinv2'. injection Hinv2' as <- <-.
      apply modify_inv in Hst as ->.
      split; intros _; apply Hshr2, Hshr1; [now apply Hshr|exact Hnone2].
    + split; intros He.
      * apply Hshr2. now apply Hself1.
      * apply Hself2; [now symmetry|exact He].
Qed.

Lemma renameItem_resolves (fuel : nat) (oldPath newPath : string)
    (userId : UserId) (userType secret : string) (w w' : World) :
  renameItem fuel oldPath newPath userId userType secret w = Ret tt w' ->
  exists m1 s1 m2 s2,
    findMountPointByPath (w_db w) oldPath userId userType = MountFound m1 s1
    /\ findMountPointByPath (w_db w) newPath userId userType = MountFound m2 s2.
Proof.
  intros H. apply handleFsError_ret_inv in H. cbv zeta in H.
  apply bind_Ret_inv in H as (u0 & w0 & Hkind & H).
  apply throwIf_Ret_inv in Hkind as [Hkind ->].
  apply bind_Ret_inv in H as ([m1 s1] & w1 & Hf1 & H).
  apply findMount_inv in Hf1 as [-> Hf1].
  apply bind_Ret_inv in H as ([m2 s2] & w1 & Hf2 & H).
  apply findMount_inv in Hf2 as [-> Hf2].
  now exists m1, s1, m2, s2.
Qed.

Ltac kept :=
  apply dropsOnly_keeps;
  first [ apply keeps_findMount | apply keeps_getS3Config
        | apply keeps_newS3Client | apply keepsCache_parentCheck
        | apply keepsCache_send | apply keepsCache_stamp
        | apply keepsCache_freshFileId | apply keeps_now
        | apply keepsCache_insertFile | apply keeps_ret | apply keeps_throw
        | apply keeps_throwIf ].

Ltac step := apply dropsOnly_bind; [try kept|].

Lemma uploadFile_drops (path : string) (file : File) (userId : UserId)
    (userType secret : string) :
  dropsOnly directoryKey (uploadFile path file userId userType secret false).
Proof.
  unfold uploadFile. apply dropsOnly_handleFsError. cbv iota.
  step. intros [mount subPath]. step. intros cfg. step. intros client.
  cbv zeta. step. intros _. step. intros result. step. intros _.
  step. intros fileId. step. intros t. step. intros _. step; [|intros; kept].
  destruct (_ && _).
  - unfold upToLastSlash, JS.lastIndexOfEnd.
    step; [apply dropsOnly_parent|]. intros; kept.
  - step; [apply dropsOnly_invalidate; now right|]. intros; kept.
Qed.

Lemma removeItem_file_drops (fuel : nat) (path : string) (userId : UserId)
    (userType secret : string) :
  JS.endsWith path "/" = false ->
  dropsOnly directoryKey (removeItem fuel path userId userType secret).
Proof.
  intros Hfile. unfold removeItem. apply dropsOnly_handleFsError.
  step. intros [mount subPath]. step. intros cfg. step. intros client.
  cbv zeta. rewrite Hfile. step.
  { apply dropsOnly_tryCatch.
    - step. intros; kept.
    - intros e. destruct (statusIs _ _); kept. }
  intros _. apply dropsOnly_bind.
  { apply dropsOnly_keeps, keeps_tryCatch.
    - apply keeps_modify. reflexivity.
    - intros. apply keeps_ret. }
  intros _. step. intros _. apply dropsOnly_refreshParent.
Qed.

Lemma keepsCache_probeTarget (client : S3Client) (bucket key : string) :
  keeps w_cache (probeTarget client bucket key).
Proof.
  unfold probeTarget. apply keeps_tryCatch.
  - apply keeps_bind; [apply keepsCache_send|]. intros. apply keeps_throw.
  - intros e. destruct (_ && _); [apply keeps_throw|apply keeps_ret].
Qed.

Lemma renameItem_file_drops (fuel : nat) (oldPath newPath : string)
    (userId : UserId) (userType secret : string) :
  JS.endsWith oldPath "/" = false ->
  dropsOnly directoryKey
    (renameItem fuel oldPath newPath userId userType secret).
Proof.
  intros Hfile. unfold renameItem. apply dropsOnly_handleFsError.
  cbv zeta. destruct (JS.endsWith oldPath "/"); [discriminate Hfile|].
  destruct (JS.endsWith newPath "/") eqn:Hnew.
  { apply dropsOnly_keeps. intros w. reflexivity. }
  step. intros _. step. intros [oldMount oldSubPath].
  step. intros [newMount newSubPath]. step. intros _.
  step. intros cfg. step. intros client. step. intros _.
  apply dropsOnly_bind; [apply dropsOnly_keeps, keepsCache_probeTarget|].
  intros _. apply dropsOnly_bind.
  { step. intros _. step. intros; kept. }
  intros _. step. intros _.
  step; [apply dropsOnly_refreshParent|]. intros _.
  apply dropsOnly_refreshParent.
Qed.

(** C3, as the code has it.  When a mutation (direct upload, directory
    creation, removal, renaming, update) returns, and a path it resolved
    has the sub-path [s] under the mount [m]:
    - the cache holds no entry [(m, a)] for any directory [a] strictly
      above [s]; for an update this is so when the mount caches at all (its
      TTL is positive);
    - the cache holds no entry for [s] itself when the mutation is the
      removal or the renaming of a directory, or when [s] ends in a slash
      and the mutation is an upload, a removal, a renaming, or an update
      under a mount that caches with [s] other than the root;
    - in every other case, for [s] not empty, the entry of [s] is what it
      was before the mutation: in particular the creation of a directory
      never drops the listing cached for the directory itself. *)
Theorem mutation_clears_directories_above (fuel : nat) (mu : Mutation)
    (userId : UserId) (userType secret : string) (w w' : World)
    (p : string) (m : Mount) (s : string) :
  runMutation fuel mu userId userType secret w = Ret tt w' ->
  In p (mutationPaths mu) ->
  findMountPointByPath (w_db w) p userId userType = MountFound m s ->
  ((isUpdate mu = true -> 0 < cache_ttl m) ->
   forall a, isAncestorDirectory a s -> w_cache w' !! (mount_id m, a) = None)
  /\ (clearsSelf mu m s = true -> w_cache w' !! (mount_id m, s) = None)
  /\ (clearsSelf mu m s = false -> s <> "" ->
      w_cache w' !! (mount_id m, s) = w_cache w !! (mount_id m, s)).
Proof.
  intros Hrun Hp Hm.
  assert (forall id, s <> "" -> JS.endsWith s "/" = false ->
                     ~ directoryKey (id, s)) as Hnot.
  { intros id Hne He [H|H]; cbn [snd] in H; congruence. }
  destruct mu as [path file|path|path|oldPath newPath|path content];
    cbn [runMutation mutationPaths clearsSelf isUpdate] in *.
  - destruct Hp as [<-|[]].
    apply bind_Ret_inv in Hrun as (r & w1 & Hrun & Hret).
    apply ret_inv in Hret as [_ ->].
    destruct (uploadFile_cache _ _ _ _ _ _ _ _ _ _ Hrun Hm) as [Hanc Hself].
    split; [intros _; exact Hanc|]. split; [exact Hself|].
    intros He Hne. pose proof (uploadFile_drops path file userId userType secret w)
      as Hd. rewrite Hrun in Hd.
    apply (cacheDrops_other _ _ _ _ Hd). now apply Hnot.
  - destruct Hp as [<-|[]].
    split; [intros _; eapply createDirectory_cache; eauto|].
    split; [discriminate|]. intros _ Hne.
    apply (cacheDrops_other _ _ _ _
             (createDirectory_frame _ _ _ _ _ _ _ _ Hrun Hm Hne)).
    unfold shorterKey. cbn [snd]. lia.
  - destruct Hp as [<-|[]].
    destruct (removeItem_cache _ _ _ _ _ _ _ _ _ Hrun Hm) as [Hanc Hself].
    split; [intros _; exact Hanc|]. split; [exact Hself|].
    intros He Hne. apply orb_false_iff in He as [Hfile He].
    pose proof (removeItem_file_drops fuel path userId userType secret Hfile w)
      as Hd. rewrite Hrun in Hd.
    apply (cacheDrops_other _ _ _ _ Hd). now apply Hnot.
  - destruct (renameItem_resolves _ _ _ _ _ _ _ _ Hrun)
      as (m1 & s1 & m2 & s2 & Hm1 & Hm2).
    destruct (renameItem_cache _ _ _ _ _ _ _ _ _ _ _ _ Hrun Hm1 Hm2)
      as (Hid & Hanc1 & Hanc2 & Hself1 & Hself2).
    assert (clearsSelfFalse :
              JS.endsWith oldPath "/" || JS.endsWith s "/" = false ->
              s <> "" ->
              w_cache w' !! (mount_id m, s) = w_cache w !! (mount_id m, s)).
    { intros He Hne. apply orb_false_iff in He as [Hfile He].
      pose proof (renameItem_file_drops fuel oldPath newPath userId userType
                    secret Hfile w) as Hd. rewrite Hrun in Hd.
      apply (cacheDrops_other _ _ _ _ Hd). now apply Hnot. }
    destruct Hp as [<-|[<-|[]]].
    + rewrite Hm in Hm1. injection Hm1 as <- <-.
      split; [intros _; exact Hanc1|]. split; [exact Hself1|exact clearsSelfFalse].
    + rewrite Hm in Hm2. injection Hm2 as <- <-. rewrite Hid.
      rewrite Hid in clearsSelfFalse.
      split; [intros _; exact Hanc2|]. split; [exact Hself2|exact clearsSelfFalse].
  - destruct Hp as [<-|[]].
    apply bind_Ret_inv in Hrun as (r & w1 & Hrun & Hret).
    apply ret_inv in Hret as [_ ->].
    split; [|split].
    + intros Httl. eapply updateFile_cache; eauto.
    + intros Hc. apply andb_true_iff in Hc as [Hc Hroot].
      apply andb_true_iff in Hc as [Httl He].
      apply negb_true_iff, String.eqb_neq in Hroot.
      eapply updateFile_cache; eauto. lia.
    + intros Hc Hne.
      apply (cacheDrops_other _ _ _ _
               (updateFile_frame _ _ _ _ _ _ _ _ _ _ Hrun Hm)).
      intros (Httl & Hroot & [Hk|Hk]); cbn [snd] in Hk; [congruence|].
      rewrite Hk in Hc. replace (0 <? cache_ttl m) with true in Hc by lia.
      cbn [andb] in Hc. now apply negb_false_iff, String.eqb_eq in Hc.
Qed.

End MutationProperties.

(* ===================================================================== *)
(** * [batchRemoveItems] *)
(* ===================================================================== *)

Section BatchProperties.

Context {Hb : S3Backend} {Hs : Helpers}.

(** One round of the loop: the path is counted as a success or recorded as
    a failure, and no exception leaves the round. *)
Lemma batchRemove_round (fuel : nat) (path : string) (userId : UserId)
    (userType secret : string) (result : BatchResult) (w : World) :
  match
    tryCatch
      (removeItem fuel path userId userType secret ;;;
       ret (mkBatchResult (br_success result + 1) (br_failed result)))
      (fun error =>
         ret (mkBatchResult (br_success result)
                (br_failed result ++ [(path, failureText error)]))) w
  with
  | Ret r w' =>
      (removeItem fuel path userId userType secret w = Ret tt w'
       /\ r = mkBatchResult (br_success result + 1) (br_failed result))
      \/ (exists e,
            removeItem fuel path userId userType secret w = Throw e w'
            /\ r = mkBatchResult (br_success result)
                     (br_failed result ++ [(path, failureText e)]))
  | Throw _ _ => False
  | Diverge => removeItem fuel path userId userType secret w = Diverge
  end.
Proof.
  unfold tryCatch, bind.
  destruct (removeItem fuel path userId userType secret w) as [[] w1|e w1|];
    simpl; eauto.
Qed.

Lemma batchRemoveLoop_counts (fuel : nat) (paths : list string)
    (userId : UserId) (userType secret : string) (result : BatchResult)
    (w : World) :
  match batchRemoveLoop fuel paths userId userType secret result w with
  | Ret r w' =>
      br_success r + Z.of_nat (List.length (br_failed r))
      = br_success result + Z.of_nat (List.length (br_failed result))
        + Z.of_nat (List.length paths)
  | Throw _ _ => False
  | Diverge => True
  end.
Proof.
  revert result w. induction paths as [|path rest IH]; intros result w.
  - simpl. lia.
  - cbn [batchRemoveLoop]. unfold bind at 1.
    pose proof (batchRemove_round fuel path userId userType secret result w)
      as Hround.
    destruct (tryCatch _ _ w) as [r1 w1|e w1|]; [|contradiction|exact I].
    specialize (IH r1 w1).
    destruct (batchRemoveLoop fuel rest userId userType secret r1 w1)
      as [r w'|e w'|]; [|contradiction|exact I].
    rewrite IH.
    destruct Hround as [[_ ->]|(e & _ & ->)]; simpl;
      rewrite ?length_app; simpl; lia.
Qed.

(** The loop under an invariant that every removal keeps and under which
    every removal comes to an end: the loop returns, each path counted
    once, the failed paths in the order of the batch. *)
Lemma batchRemoveLoop_run (I : World -> Prop) (fuel : nat)
    (paths : list string) (userId : UserId) (userType secret : string)
    (result : BatchResult) (w : World) :
  I w ->
  (forall p, In p paths ->
     endsWithin I (removeItem fuel p userId userType secret)) ->
  exists r w' l,
    batchRemoveLoop fuel paths userId userType secret result w = Ret r w'
    /\ I w'
    /\ br_success r + Z.of_nat (List.length l)
       = br_success result + Z.of_nat (List.length paths)
    /\ br_failed r = br_failed result ++ l
    /\ List.map fst l `sublist_of` paths.
Proof.
  revert result w. induction paths as [|path rest IH]; intros result w Hw Hends.
  - exists result, w, []. cbn. rewrite app_nil_r. repeat split; auto; lia.
  - cbn [batchRemoveLoop]. unfold bind at 1.
    pose proof (batchRemove_round fuel path userId userType secret result w)
      as Hround.
    pose proof (Hends path (or_introl eq_refl) w Hw) as Hend.
    destruct (tryCatch _ _ w) as [r1 w1|e w1|]; [|contradiction|].
    2:{ now rewrite Hround in Hend. }
    assert (I w1) as Hw1.
    { destruct Hround as [[Hr _]|(e & Hr & _)]; now rewrite Hr in Hend. }
    destruct (IH r1 w1 Hw1) as (r & w' & l & Hrun & HI & Hcount & Hfailed & Hsub).
    { intros p Hp. apply Hends. now right. }
    destruct Hround as [[_ ->]|(e & _ & ->)]; cbn [br_success br_failed] in *.
    + exists r, w', l. rewrite Hrun. repeat split; auto.
      * rewrite Hcount. cbn [List.length]. lia.
      * now apply sublist_cons.
    + exists r, w', ((path, failureText e) :: l). rewrite Hrun.
      repeat split; auto.
      * cbn [List.length]. lia.
      * now rewrite Hfailed, <- app_assoc.
      * cbn [List.map fst]. now apply sublist_skip.
Qed.

End BatchProperties.

(** C4.  [batchRemoveItems] never throws, whatever its removals do, and
    when it returns every path has been counted once: the successes and
    the failures add up to the number of paths.  It returns whenever every
    removal comes to an end (here: under an invariant [I] of the world that
    the removals keep), the failed paths being recorded in the order of the
    batch.  For the empty list it returns [{success: 0, failed: []}] and
    leaves the world as it was, and so does the facade's method, which
    then resolves no driver. *)
Theorem batchRemoveItems_never_raises {Hb : S3Backend} {Hs : Helpers}
    {Any Env : Type} (C : @Collaborators Any Env) (I : World -> Prop)
    (fuel : nat) (paths : list string) (userId : UserId)
    (userType secret : string) (w : World) (user : Any) (fs : FsState) :
  (forall e w',
     batchRemoveItems fuel paths userId userType secret w <> Throw e w')
  /\ (forall r w',
        batchRemoveItems fuel paths userId userType secret w = Ret r w' ->
        br_success r + Z.of_nat (List.length (br_failed r))
        = Z.of_nat (List.length paths))
  /\ (I w ->
      (forall p, In p paths ->
         endsWithin I (removeItem fuel p userId userType secret)) ->
      exists r w',
        batchRemoveItems fuel paths userId userType secret w = Ret r w'
        /\ I w'
        /\ br_success r + Z.of_nat (List.length (br_failed r))
           = Z.of_nat (List.length paths)
        /\ List.map fst (br_failed r) `sublist_of` paths)
  /\ batchRemoveItems fuel [] userId userType secret w
     = Ret (mkBatchResult 0 []) w
  /\ (forall ps, emptyBatch ps = true ->
        FileSystem_batchRemoveItems C ps user userType fs
        = Ret (BatchRemoved 0 []) fs).
Proof.
  pose proof (batchRemoveLoop_counts fuel paths userId userType secret
                (mkBatchResult 0 []) w) as Hcounts.
  fold (batchRemoveItems fuel paths userId userType secret) in Hcounts.
  split; [|split; [|split; [|split]]].
  - intros e w' Hrun. now rewrite Hrun in Hcounts.
  - intros r w' Hrun. rewrite Hrun in Hcounts. cbn in Hcounts. lia.
  - intros Hw Hends.
    destruct (batchRemoveLoop_run I fuel paths userId userType secret
                (mkBatchResult 0 []) w Hw Hends)
      as (r & w' & l & Hrun & HI & Hcount & Hfailed & Hsub).
    cbn [br_success br_failed app] in *. subst l.
    exists r, w'. repeat split; auto; lia.
  - reflexivity.
  - intros ps Hps. now apply FileSystem_batchRemoveItems_empty.
Qed.

(* ===================================================================== *)
(** * The service on the in-memory endpoint *)
(* ===================================================================== *)

Section FakeProperties.

Context {Hs : @Helpers FakeBackend}.

Lemma bucketKeys_elem (st : FakeS3) (b k : string) :
  k ∈ bucketKeys st b <-> is_Some (fk_objects st !! (b, k)).
Proof.
  unfold bucketKeys. rewrite merge_sort_Permutation, list_elem_of_omap. split.
  - intros ([[b' k'] o] & Hin & Hk). apply elem_of_map_to_list in Hin.
    destruct (String.eqb b' b) eqn:E; [|discriminate].
    apply String.eqb_eq in E as ->. injection Hk as ->. eauto.
  - intros [o Ho]. exists ((b, k), o). split; [now apply elem_of_map_to_list|].
    now rewrite String.eqb_refl.
Qed.

Lemma matchingKeys_elem (st : FakeS3) (b prefix : string) (tok : option string)
    (k : string) :
  k ∈ matchingKeys st b prefix tok -> is_Some (fk_objects st !! (b, k)).
Proof.
  unfold matchingKeys. rewrite list_elem_of_In, filter_In, <- list_elem_of_In.
  intros [Hin _]. now apply bucketKeys_elem.
Qed.

(** A truncated page of a listing without delimiter is not empty, and its
    first key is in the store. *)
Lemma truncated_page (st : FakeS3) (b prefix : string) (tok : option string) :
  out_IsTruncated (listOutput st b prefix None None tok) = true ->
  exists o rest,
    out_Contents (listOutput st b prefix None None tok) = Some (o :: rest)
    /\ is_Some (fk_objects st !! (b, lo_Key o)).
Proof.
  unfold listOutput. cbn [out_IsTruncated out_Contents default].
  intros Ht. apply Nat.ltb_lt in Ht.
  pose proof (matchingKeys_elem st b prefix tok) as Hel.
  destruct (matchingKeys st b prefix tok) as [|k all]; [simpl in Ht; lia|].
  change (Z.to_nat 1000) with (S 999). cbn [List.firstn omap list_omap rollUp].
  destruct (Hel k) as [o Ho]; [now left|]. rewrite Ho.
  cbn [someIfNonEmpty]. eexists _, _. split; [reflexivity|]. simpl. eauto.
Qed.

(** ** Runs that add no object *)

Lemma storeBounded_le {A} (n n' : nat) (o : Outcome World A) :
  (n <= n')%nat -> storeBounded n o -> storeBounded n' o.
Proof. destruct o; simpl; lia. Qed.

Lemma safe_ret {A} (fuel : nat) (a : A) : safe fuel (ret a).
Proof. intros w _. simpl. lia. Qed.

Lemma safe_throw {A} (fuel : nat) (e : Exn) : safe fuel (throw e : SM A).
Proof. intros w _. simpl. lia. Qed.

Lemma safe_throwIf (fuel : nat) (c : bool) (e : Exn) : safe fuel (throwIf c e).
Proof. destruct c; [apply safe_throw|apply safe_ret]. Qed.

Lemma safe_bind {A B} (fuel : nat) (m : SM A) (k : A -> SM B) :
  safe fuel m -> (forall a, safe fuel (k a)) -> safe fuel (bind m k).
Proof.
  intros Hm Hk w Hw. unfold bind. specialize (Hm w Hw).
  destruct (m w) as [a w1|e w1|]; simpl in *; [|exact Hm|exact Hm].
  eapply storeBounded_le; [exact Hm|]. apply Hk. lia.
Qed.

Lemma safe_tryCatch {A} (fuel : nat) (m : SM A) (h : Exn -> SM A) :
  safe fuel m -> (forall e, safe fuel (h e)) -> safe fuel (tryCatch m h).
Proof.
  intros Hm Hh w Hw. unfold tryCatch. specialize (Hm w Hw).
  destruct (m w) as [a w1|e w1|]; simpl in *; [exact Hm| |exact Hm].
  eapply storeBounded_le; [exact Hm|]. apply Hh. lia.
Qed.

Lemma safe_modify (fuel : nat) (f : World -> World) :
  (forall w, w_s3 (f w) = w_s3 w) -> safe fuel (modify f).
Proof. intros Hf w _. simpl. unfold storeSize. now rewrite Hf. Qed.

Lemma safe_get (fuel : nat) : safe fuel get.
Proof. intros w _. simpl. lia. Qed.

Lemma fakeSend_size (c : Command) (st : FakeS3) :
  isPut c = false ->
  (size (fk_objects (snd (fakeSend tt c st))) <= size (fk_objects st))%nat.
Proof.
  intros Hc. unfold fakeSend.
  destruct (fk_fault st c); [simpl; lia|].
  destruct c; try discriminate Hc; cbn [snd fk_objects];
    try (destruct (fk_objects st !! _); cbn [snd fk_objects]; lia); try lia.
  rewrite map_size_delete. destruct (fk_objects st !! _); unfold id; lia.
Qed.

Lemma safe_send (fuel : nat) (c : Command) :
  isPut c = false -> safe fuel (send tt c).
Proof.
  intros Hc w _. pose proof (fakeSend_size c (w_s3 w) Hc) as Hsz.
  unfold send, bind, modify, liftCall. simpl.
  change (@s3_send FakeBackend tt c (w_s3 w)) with (fakeSend tt c (w_s3 w)).
  destruct (fakeSend tt c (w_s3 w)) as [[e|out] st']; simpl in *;
    unfold storeSize; simpl; exact Hsz.
Qed.

Lemma safe_findMount (fuel : nat) (path : string) (userId : UserId)
    (userType : string) : safe fuel (findMount path userId userType).
Proof.
  unfold findMount. apply safe_bind; [apply safe_get|]. intros w.
  destruct (findMountPointByPath _ _ _ _); [apply safe_throw|apply safe_ret].
Qed.

Lemma safe_getS3Config (fuel : nat) (m : Mount) : safe fuel (getS3Config m).
Proof.
  unfold getS3Config. apply safe_bind; [apply safe_get|]. intros w.
  destruct (selectS3Config _ _); [apply safe_ret|apply safe_throw].
Qed.

Lemma safe_newS3Client (fuel : nat) (c : S3Config) (secret : string) :
  safe fuel (newS3Client c secret).
Proof.
  unfold newS3Client. destruct (createS3Client c secret);
    [apply safe_throw|apply safe_ret].
Qed.

Lemma safe_invalidate (fuel : nat) (mountId p : string) :
  safe fuel (directoryCache_invalidate mountId p).
Proof. intros w _. unfold directoryCache_invalidate, storeBounded, storeSize. simpl. lia. Qed.

Lemma safe_invalidateAll (fuel : nat) (mountId : string) (paths : list string) :
  safe fuel (invalidateAll mountId paths).
Proof.
  induction paths as [|p rest IH]; [apply safe_ret|].
  cbn [invalidateAll]. apply safe_bind; [apply safe_invalidate|]. intros b.
  apply safe_bind; [exact IH|]. intros n. apply safe_ret.
Qed.

Lemma safe_refreshParent (fuel : nat) (mountId s : string) (isDirectory : bool) :
  safe fuel (refreshParent mountId s isDirectory).
Proof.
  unfold refreshParent. destruct (_ && _).
  - apply safe_bind; [apply safe_invalidateAll|]. intros. apply safe_ret.
  - destruct (negb isDirectory); [|apply safe_ret].
    apply safe_bind; [apply safe_invalidate|]. intros. apply safe_ret.
Qed.

Lemma safe_deleteFileRecords (fuel : nat) (cfgId : string) (paths : list string) :
  safe fuel (deleteFileRecords cfgId paths).
Proof.
  induction paths as [|p rest IH]; [apply safe_ret|].
  cbn [deleteFileRecords]. apply safe_bind; [|intros; exact IH].
  now apply safe_modify.
Qed.

Lemma safe_deleteObjects (fuel : nat) (bucket : string)
    (objects : list ListedObject) (deleted : list string) :
  safe fuel (deleteObjects tt bucket objects deleted).
Proof.
  revert deleted. induction objects as [|o rest IH]; intros deleted;
    [apply safe_ret|].
  cbn [deleteObjects]. apply safe_bind; [now apply safe_send|].
  intros. apply IH.
Qed.

(** Deleting a page whose first key is in the store leaves fewer objects. *)
Lemma deleteObjects_shrinks (bucket : string) (o : ListedObject)
    (rest : list ListedObject) (deleted result : list string) (w w' : World) :
  is_Some (fk_objects (w_s3 w) !! (bucket, lo_Key o)) ->
  deleteObjects tt bucket (o :: rest) deleted w = Ret result w' ->
  (storeSize w' < storeSize w)%nat.
Proof.
  intros [x Hx] Hrun. cbn [deleteObjects] in Hrun.
  unfold bind at 1 in Hrun. unfold send, bind, modify, liftCall in Hrun.
  simpl in Hrun.
  change (@s3_send FakeBackend tt (DeleteObjectCommand bucket (lo_Key o)) (w_s3 w))
    with (fakeSend tt (DeleteObjectCommand bucket (lo_Key o)) (w_s3 w)) in Hrun.
  unfold fakeSend in Hrun.
  destruct (fk_fault (w_s3 w) _); [discriminate|].
  match type of Hrun with
  | deleteObjects tt bucket rest ?d ?w1 = _ =>
      pose proof (safe_deleteObjects (S (storeSize w1)) bucket rest d w1) as Hs';
      assert (storeSize w1 = pred (storeSize w)) as Hw1
  end.
  { unfold storeSize. cbn [w_s3 setS3 addEffect fk_objects].
    now rewrite map_size_delete, Hx. }
  specialize (Hs' ltac:(lia)). rewrite Hrun in Hs'. simpl in Hs'.
  assert (storeSize w <> 0)%nat; [|lia].
  unfold storeSize. intros Hz. apply map_size_empty_inv in Hz.
  rewrite Hz in Hx. now rewrite lookup_empty in Hx.
Qed.

Lemma nonEmptyContents_cons (r : Output) (o : ListedObject)
    (rest : list ListedObject) :
  out_Contents r = Some (o :: rest) -> nonEmptyContents r = true.
Proof. unfold nonEmptyContents. now intros ->. Qed.

Lemma nextToken_truncated (r : Output) (t : string) :
  nextToken r = Some t -> out_IsTruncated r = true.
Proof. unfold nextToken. now destruct (out_IsTruncated r). Qed.

Lemma safe_handleFsError {A} (fuel : nat) (fn : SM A) (d : string) :
  safe fuel fn -> safe fuel (handleFsError fn d).
Proof.
  intros Hfn. apply safe_tryCatch; [exact Hfn|]. intros e.
  destruct (isHTTPException e); apply safe_throw.
Qed.

Lemma safe_stamp (fuel : nat) (mountId : string) :
  safe fuel (updateMountLastUsed mountId).
Proof. intros w _. rewrite updateMountLastUsed_run. simpl. unfold storeSize. simpl. lia. Qed.

(** The loop of [deleteDirectory] comes to its end on the in-memory
    endpoint when the budget exceeds the number of stored objects: a page
    that announces a next one is not empty, and deleting it removes an
    object. *)
Lemma safe_deleteDirectoryPages (fuel : nat) (bucket prefix : string)
    (tok : option string) (isEmpty : bool) (deleted : list string) :
  safe fuel (deleteDirectoryPages fuel tt bucket prefix tok isEmpty deleted).
Proof.
  revert tok isEmpty deleted.
  induction fuel as [|fuel IH]; intros tok isEmpty deleted w Hw; [lia|].
  cbn [deleteDirectoryPages]. unfold bind at 1.
  pose proof (safe_send (S fuel)
                (ListObjectsV2Command bucket prefix None None tok) eq_refl w Hw)
    as Hlist.
  destruct (send _ (ListObjectsV2Command bucket prefix None None tok) w)
    as [r w1|e w1|] eqn:Hsend; [|exact Hlist|exact Hlist].
  simpl in Hlist.
  assert (r = listOutput (w_s3 w1) bucket prefix None None tok) as Hr.
  { unfold send, bind, modify, liftCall in Hsend. simpl in Hsend.
    change (@s3_send FakeBackend tt (ListObjectsV2Command bucket prefix None None tok)
              (w_s3 w))
      with (fakeSend tt (ListObjectsV2Command bucket prefix None None tok) (w_s3 w))
      in Hsend.
    unfold fakeSend in Hsend. destruct (fk_fault (w_s3 w) _); [discriminate|].
    now injection Hsend as <- <-. }
  unfold bind at 1.
  destruct (nonEmptyContents r) eqn:Hne.
  - unfold bind at 1.
    pose proof (safe_deleteObjects (S (storeSize w1)) bucket
                  (default [] (out_Contents r)) deleted w1 ltac:(lia)) as Hdel.
    destruct (deleteObjects _ bucket (default [] (out_Contents r)) deleted w1)
      as [d w2|e w2|] eqn:Hrun; simpl in Hdel; [|simpl; lia|contradiction].
    cbn [ret]. destruct (nextToken r) as [t|] eqn:Htok; [|simpl; lia].
    apply nextToken_truncated in Htok. rewrite Hr in Htok.
    destruct (truncated_page _ _ _ _ Htok) as (o & rest & Hc & Hin).
    rewrite <- Hr in Hc. rewrite Hc in Hrun. cbn [default] in Hrun.
    pose proof (deleteObjects_shrinks bucket o rest deleted d w1 w2 Hin Hrun)
      as Hlt.
    eapply storeBounded_le; [|apply IH; lia]. lia.
  - cbn [ret]. destruct (nextToken r) as [t|] eqn:Htok; [|simpl; lia].
    apply nextToken_truncated in Htok. rewrite Hr in Htok.
    destruct (truncated_page _ _ _ _ Htok) as (o & rest & Hc & _).
    rewrite <- Hr in Hc. now rewrite (nonEmptyContents_cons _ _ _ Hc) in Hne.
Qed.

Lemma safe_deleteDirectory (fuel : nat) (bucket dirPath cfgId : string) :
  safe fuel (deleteDirectory fuel tt bucket dirPath cfgId).
Proof.
  unfold deleteDirectory. apply safe_tryCatch.
  - apply safe_bind; [apply safe_deleteDirectoryPages|]. intros [isEmpty deleted].
    apply safe_bind; [apply safe_throwIf|]. intros _.
    destruct (_ && _); [|apply safe_ret].
    apply safe_tryCatch; [apply safe_deleteFileRecords|]. intros. apply safe_ret.
  - intros e. destruct (isHTTPException e); apply safe_throw.
Qed.

(** [removeItem] comes to its end on the in-memory endpoint, and adds no
    object to it. *)
Lemma safe_removeItem (fuel : nat) (path : string) (userId : UserId)
    (userType secret : string) :
  safe fuel (removeItem fuel path userId userType secret).
Proof.
  unfold removeItem. apply safe_handleFsError.
  apply safe_bind; [apply safe_findMount|]. intros [mount subPath].
  apply safe_bind; [apply safe_getS3Config|]. intros cfg.
  apply safe_bind; [apply safe_newS3Client|]. intros []. cbv zeta.
  apply safe_bind.
  { destruct (JS.endsWith path "/").
    - apply safe_bind; [apply safe_deleteDirectory|]. intros _.
      apply safe_bind; [apply safe_invalidate|]. intros _. apply safe_ret.
    - apply safe_tryCatch.
      + apply safe_bind; [now apply safe_send|]. intros _. apply safe_ret.
      + intros e. destruct (statusIs _ _); apply safe_throw. }
  intros _. apply safe_bind.
  { apply safe_tryCatch; [now apply safe_modify|]. intros. apply safe_ret. }
  intros _. apply safe_bind; [apply safe_stamp|]. intros _.
  apply safe_refreshParent.
Qed.


(** A computation that is [safe] keeps the bound on the store. *)
Lemma safe_endsWithin {A} (fuel : nat) (m : SM A) :
  safe fuel m -> endsWithin (fun w => (storeSize w < fuel)%nat) m.
Proof.
  intros Hm w Hw. specialize (Hm w Hw).
  destruct (m w) as [a w'|e w'|]; simpl in Hm; [lia|lia|exact Hm].
Qed.

(** ** Directories on the in-memory endpoint *)

Lemma head_found (st : FakeS3) (b k : string) (o : S3Object) :
  faultless st -> fk_objects st !! (b, k) = Some o ->
  fakeSend tt (HeadObjectCommand b k) st = (inr (headOutput o), st).
Proof. intros Hf Ho. unfold fakeSend. now rewrite Hf, Ho. Qed.

Lemma head_missing (st : FakeS3) (b k : string) :
  faultless st -> fk_objects st !! (b, k) = None ->
  fakeSend tt (HeadObjectCommand b k) st
  = (inl (S3Error 404 "NotFound" "NotFound"), st).
Proof. intros Hf Ho. unfold fakeSend. now rewrite Hf, Ho. Qed.

(** A one-key listing is not empty exactly when some key has the prefix. *)
Lemma one_key_listing (st : FakeS3) (b prefix : string) :
  nonEmptyContents (listOutput st b prefix None (Some 1) None)
  = match matchingKeys st b prefix None with
    | [] => false
    | _ :: _ => true
    end.
Proof.
  unfold nonEmptyContents, listOutput. cbn [out_Contents default].
  pose proof (matchingKeys_elem st b prefix None) as Hel.
  destruct (matchingKeys st b prefix None) as [|k all]; [reflexivity|].
  change (Z.to_nat (id 1)) with 1%nat. cbn [List.firstn omap list_omap rollUp].
  destruct (Hel k) as [o Ho]; [now left|]. now rewrite Ho.
Qed.


(** [checkDirectoryExists] on an endpoint without faults: it answers
    whether the directory is there, sends no PUT and leaves the store and
    the database as they were. *)
Lemma checkDirectoryExists_fake (b d : string) (w : World) :
  faultless (w_s3 w) ->
  exists w' sent,
    checkDirectoryExists tt b d w = Ret (fakeDirectoryExists (w_s3 w) b d) w'
    /\ w_s3 w' = w_s3 w /\ w_db w' = w_db w /\ w_cache w' = w_cache w
    /\ sentCommands w' = sentCommands w ++ sent
    /\ Forall (fun c => isPut c = false) sent.
Proof.
  intros Hf. unfold checkDirectoryExists, fakeDirectoryExists, tryCatch.
  destruct (fk_objects (w_s3 w) !! (b, d)) as [o|] eqn:Ho.
  - rewrite (bind_Ret _ _ _ _ _
               (send_ok (Hb:=FakeBackend) tt _ w _ _ (head_found _ _ _ _ Hf Ho))).
    eexists _, [_]. split; [reflexivity|]. repeat split.
    + now rewrite sentCommands_sent.
    + now repeat constructor.
  - rewrite (bind_Throw _ _ _ _ _
               (send_error (Hb:=FakeBackend) tt _ w _ _ (head_missing _ _ _ Hf Ho))).
    set (w1 := setS3 (w_s3 w) (addEffect (Sent (HeadObjectCommand b d)) w)).
    assert (@s3_send FakeBackend tt
              (ListObjectsV2Command b d None (Some 1) None) (w_s3 w1)
            = (inr (listOutput (w_s3 w) b d None (Some 1) None), w_s3 w)) as Hl.
    { cbn [w_s3 w1 setS3 s3_send FakeBackend]. unfold fakeSend. now rewrite Hf. }
    rewrite (bind_Ret _ _ _ _ _ (send_ok (Hb:=FakeBackend) tt _ w1 _ _ Hl)).
    rewrite one_key_listing.
    eexists _, [_; _]. split; [reflexivity|]. repeat split.
    + unfold w1. rewrite !sentCommands_sent. now rewrite <- app_assoc.
    + now repeat constructor.
Qed.









(** ** [createDirectory] once, and again *)









End FakeProperties.
(* ===================================================================== *)
(** * Further properties of the service *)
(* ===================================================================== *)

Section PathProperties.

(** [normalizePath] gives a path that starts with a slash and, for a
    directory, ends with one; it leaves such a path as it is, so it is
    idempotent, and the directory form of the file form is the directory
    form. *)
Theorem normalizePath_normal_form (path : string) (isDirectory : bool) :
  JS.startsWith (normalizePath path isDirectory) "/" = true
  /\ JS.endsWith (normalizePath path true) "/" = true
  /\ normalizePath (normalizePath path isDirectory) isDirectory
     = normalizePath path isDirectory
  /\ normalizePath (normalizePath path false) true = normalizePath path true.
Proof.
  assert (forall p, JS.startsWith (normalizePath p false) "/" = true) as Hstart.
  { intros p. unfold normalizePath.
    destruct (JS.startsWith p "/") eqn:E; [exact E|apply startsWith_append]. }
  assert (forall p d,
            normalizePath p d
            = if d
              then if JS.endsWith (normalizePath p false) "/"
                   then normalizePath p false
                   else normalizePath p false +:+ "/"
              else normalizePath p false) as Hform.
  { intros p d. unfold normalizePath. now destruct d. }
  assert (forall p, JS.startsWith p "/" = true -> normalizePath p false = p)
    as Hfix.
  { intros p E. unfold normalizePath. now rewrite E. }
  assert (forall p, JS.endsWith (normalizePath p true) "/" = true) as Hend.
  { intros p. rewrite Hform.
    destruct (JS.endsWith (normalizePath p false) "/") eqn:E;
      [exact E|apply endsWith_append]. }
  assert (forall p d, JS.startsWith (normalizePath p d) "/" = true) as Hstart'.
  { intros p d. rewrite Hform. destruct d; [|apply Hstart].
    destruct (JS.endsWith _ "/"); [apply Hstart|].
    apply startsWith_trans_append, Hstart. }
  split; [apply Hstart'|]. split; [apply Hend|]. split.
  - rewrite (Hform (normalizePath path isDirectory)).
    rewrite (Hfix _ (Hstart' path isDirectory)).
    destruct isDirectory; [|reflexivity]. now rewrite Hend.
  - rewrite (Hform (normalizePath path false)), (Hfix _ (Hstart path)).
    now rewrite (Hform path true).
Qed.

End PathProperties.

Section ErrorProperties.

Context {Hb : S3Backend} {Hs : Helpers}.

Lemma handleFsError_http_only {A} (fn : SM A) (d : string) :
  throwsOnlyHttp (handleFsError fn d).
Proof.
  intros w e w'. unfold handleFsError, tryCatch.
  destruct (fn w) as [a s|e0 s|]; try discriminate.
  destruct (isHTTPException e0) eqn:E; intros [= <- <-]; [exact E|reflexivity].
Qed.

(** Whatever goes wrong inside them, the operations of the service throw
    nothing but [HTTPException]s: an error of another kind leaves
    [handleFsError] as an internal error (500) that carries the message of
    the error, or the default message of the operation when the error has
    none. *)
Theorem service_throws_only_http (fuel : nat) (path newPath : string)
    (file : File) (content : Content) (useMultipart : bool) (userId : UserId)
    (userType secret : string) :
  throwsOnlyHttp (listDirectory path userId userType secret)
  /\ throwsOnlyHttp (getFileInfo path userId userType secret)
  /\ throwsOnlyHttp (createDirectory path userId userType secret)
  /\ throwsOnlyHttp (uploadFile path file userId userType secret useMultipart)
  /\ throwsOnlyHttp (removeItem fuel path userId userType secret)
  /\ throwsOnlyHttp (renameItem fuel path newPath userId userType secret)
  /\ throwsOnlyHttp (updateFile path content userId userType secret)
  /\ forall (metadata : option (option Z)) (name message d : string)
       (w : World),
       handleFsError (throw (JsError metadata name message) : SM unit) d w
       = Throw (HTTPException ApiStatus.INTERNAL_ERROR (JS.orElse message d)) w.
Proof.
  repeat (split; [apply handleFsError_http_only|]). reflexivity.
Qed.

End ErrorProperties.

Section ListingProperties.

Context {Hb : S3Backend} {Hs : Helpers}.

Lemma listing_cache_hit (mount : Mount) (subPath secret : string)
    (w : World) (entry : CacheEntry) :
  0 < cache_ttl mount ->
  w_cache w !! (mount_id mount, subPath) = Some entry ->
  w_now w < ce_insertedAt entry + ce_ttl entry * 1000 ->
  getS3DirectoryListing mount subPath secret w = Ret (ce_listing entry) w.
Proof.
  intros Httl Hentry Hfresh. unfold getS3DirectoryListing.
  replace (0 <? cache_ttl mount) with true by lia.
  unfold bind at 1, directoryCache_get. rewrite Hentry.
  now replace (w_now w <? ce_insertedAt entry + ce_ttl entry * 1000) with true
    by lia.
Qed.

(** A listing that is in the cache and has not expired is returned as it
    is: the configuration is not read, the mount is not stamped and nothing
    is sent to the endpoint. *)
Theorem getS3DirectoryListing_cache_hit (mount : Mount) (subPath secret : string)
    (w : World) (entry : CacheEntry) :
  0 < cache_ttl mount ->
  w_cache w !! (mount_id mount, subPath) = Some entry ->
  w_now w < ce_insertedAt entry + ce_ttl entry * 1000 ->
  getS3DirectoryListing mount subPath secret w = Ret (ce_listing entry) w.
Proof. apply listing_cache_hit. Qed.

(** For a mount without caching (a TTL of zero or less), a listing neither
    reads nor writes the cache: whatever the outcome, the cache is as it
    was. *)
Theorem getS3DirectoryListing_uncached (mount : Mount) (subPath secret : string) :
  cache_ttl mount <= 0 ->
  keepsCache (getS3DirectoryListing mount subPath secret).
Proof.
  intros Httl. unfold getS3DirectoryListing.
  replace (0 <? cache_ttl mount) with false by lia.
  unfold keepsCache.
  apply keeps_bind; [apply keeps_ret|]. intros [l|]; [apply keeps_ret|].
  apply keeps_bind; [apply keeps_getS3Config|]. intros cfg.
  apply keeps_bind; [apply keeps_newS3Client|]. intros client.
  cbv zeta.
  apply keeps_bind; [intros w; reflexivity|]. intros _.
  apply keeps_bind; [now apply keeps_send|]. intros response.
  apply keeps_bind; [apply keeps_now|]. intros t.
  apply keeps_bind; [apply keeps_ret|]. intros _.
  apply keeps_ret.
Qed.

End ListingProperties.

Section ListingProperties2.

Context {Hb : S3Backend} {Hs : Helpers}.






End ListingProperties2.
Section RenameProperties.

Context {Hb : S3Backend} {Hs : Helpers}.

Lemma send_outcome (client : S3Client) (c : Command) (w : World) :
  exists s',
    (exists out, s3_send client c (w_s3 w) = (inr out, s')
                 /\ send client c w = Ret out (setS3 s' (addEffect (Sent c) w)))
    \/ (exists e, s3_send client c (w_s3 w) = (inl e, s')
                  /\ send client c w = Throw e (setS3 s' (addEffect (Sent c) w))).
Proof.
  destruct (s3_send client c (w_s3 w)) as [[e|out] s'] eqn:E; exists s'.
  - right. exists e. split; [reflexivity|now apply send_error].
  - left. exists out. split; [reflexivity|now apply send_ok].
Qed.

(** The test of the target in [renameItem] never reports a target that is
    there.  When HEAD succeeds, the conflict thrown in the [try] block is
    caught by the handler of the same statement, which throws again only
    an error that carries [$metadata] with a status other than 404; so the
    test returns, and an exception that leaves it is never an
    [HTTPException]: it is the error of the HEAD request itself. *)
Theorem probeTarget_never_conflicts (client : S3Client) (bucket key : string)
    (w : World) :
  let head := HeadObjectCommand bucket key in
  match s3_send client head (w_s3 w) with
  | (inr _, s') =>
      probeTarget client bucket key w
      = Ret tt (setS3 s' (addEffect (Sent head) w))
  | (inl e, s') =>
      probeTarget client bucket key w
      = (if hasMetadata e && negb (statusIs (metadataStatus e) 404)
         then Throw e else Ret tt) (setS3 s' (addEffect (Sent head) w))
  end
  /\ forall e w',
       probeTarget client bucket key w = Throw e w' ->
       isHTTPException e = false /\ metadataStatus e <> Some 404.
Proof.
  intros head.
  assert (match s3_send client head (w_s3 w) with
          | (inr _, s') =>
              probeTarget client bucket key w
              = Ret tt (setS3 s' (addEffect (Sent head) w))
          | (inl e, s') =>
              probeTarget client bucket key w
              = (if hasMetadata e && negb (statusIs (metadataStatus e) 404)
                 then Throw e else Ret tt) (setS3 s' (addEffect (Sent head) w))
          end) as Hrun.
  { unfold probeTarget, tryCatch.
    destruct (s3_send client head (w_s3 w)) as [[e|out] s'] eqn:E.
    - rewrite (bind_Throw _ _ _ _ _ (send_error _ _ _ _ _ E)).
      now destruct (hasMetadata e && negb (statusIs (metadataStatus e) 404)).
    - now rewrite (bind_Ret _ _ _ _ _ (send_ok _ _ _ _ _ E)). }
  split; [exact Hrun|].
  intros e w' Hthrow.
  destruct (s3_send client head (w_s3 w)) as [[e0|out] s'];
    rewrite Hrun in Hthrow; [|discriminate].
  destruct (hasMetadata e0 && negb (statusIs (metadataStatus e0) 404)) eqn:E;
    [|discriminate].
  injection Hthrow as <- <-. apply andb_true_iff in E as [Hmeta Hnot].
  split.
  - now destruct e0.
  - intros H404. rewrite H404 in Hnot. discriminate.
Qed.

(** The inner loop of [renameDirectory] copies before it deletes, object
    by object in the order of the listing: whatever the endpoint answers,
    the commands it has sent when it stops are an initial part of that
    sequence, and all of it when it returns.  The loop itself never stops
    without an outcome. *)
Theorem moveObjects_copies_before_deleting (client : S3Client)
    (bucket oldPrefix newPrefix : string) (objects : list ListedObject)
    (w : World) :
  let all :=
    List.concat (List.map (moveCommands bucket oldPrefix newPrefix) objects) in
  match moveObjects client bucket oldPrefix newPrefix objects w with
  | Ret _ w' => sentCommands w' = sentCommands w ++ all
  | Throw _ w' =>
      exists sent rest,
        sentCommands w' = sentCommands w ++ sent /\ all = sent ++ rest
        /\ sent <> []
  | Diverge => False
  end.
Proof.
  revert w. induction objects as [|o rest IH]; intros w.
  - cbn. now rewrite app_nil_r.
  - cbn [moveObjects List.map List.concat moveCommands]. cbv zeta.
    set (copy := CopyObjectCommand bucket
                   (encodeURIComponent (bucket +:+ "/" +:+ lo_Key o))
                   (stringReplace (lo_Key o) oldPrefix newPrefix)).
    set (del := DeleteObjectCommand bucket (lo_Key o)).
    destruct (send_outcome client copy w)
      as (s1 & [(out & _ & Hcopy)|(e & _ & Hcopy)]).
    2:{ rewrite (bind_Throw _ _ _ _ _ Hcopy). eexists [copy], _.
        rewrite sentCommands_sent. split; [reflexivity|].
        split; [reflexivity|discriminate]. }
    rewrite (bind_Ret _ _ _ _ _ Hcopy).
    set (w1 := setS3 s1 (addEffect (Sent copy) w)).
    destruct (send_outcome client del w1)
      as (s2 & [(out2 & _ & Hdel)|(e & _ & Hdel)]).
    2:{ rewrite (bind_Throw _ _ _ _ _ Hdel). eexists [copy; del], _.
        unfold w1. rewrite !sentCommands_sent, <- app_assoc.
        split; [reflexivity|]. split; [reflexivity|discriminate]. }
    rewrite (bind_Ret _ _ _ _ _ Hdel).
    set (w2 := setS3 s2 (addEffect (Sent del) w1)).
    assert (sentCommands w2 = sentCommands w ++ [copy; del]) as Hw2.
    { unfold w2, w1. now rewrite !sentCommands_sent, <- app_assoc. }
    specialize (IH w2). cbv zeta in IH.
    destruct (moveObjects client bucket oldPrefix newPrefix rest w2)
      as [u w'|e w'|]; [| |exact IH].
    + rewrite IH, Hw2, <- app_assoc. reflexivity.
    + destruct IH as (sent & more & Hsent & Hall & Hne).
      exists ([copy; del] ++ sent), more.
      rewrite Hsent, Hw2, <- app_assoc. split; [reflexivity|].
      split; [|discriminate]. cbn [app]. now rewrite Hall.
Qed.

End RenameProperties.
Section RemovalProperties.

Context {Hb : S3Backend} {Hs : Helpers}.

(** A directory whose listing is empty is reported as missing: when the
    first page holds no object and announces no further page,
    [deleteDirectory] throws HTTP 404, having sent the listing and no
    deletion, whatever the page budget. *)
Theorem deleteDirectory_empty (fuel : nat) (client : S3Client)
    (bucket dirPath cfgId : string) (w : World) (page : Output) (s' : S3State) :
  let list :=
    ListObjectsV2Command bucket (asPrefix dirPath) None None None in
  s3_send client list (w_s3 w) = (inr page, s') ->
  nonEmptyContents page = false ->
  nextToken page = None ->
  deleteDirectory (S fuel) client bucket dirPath cfgId w
  = Throw (HTTPException ApiStatus.NOT_FOUND "目录不存在或为空")
      (setS3 s' (addEffect (Sent list) w)).
Proof.
  intros list Hsend Hempty Hlast.
  assert (deleteDirectoryPages (S fuel) client bucket (asPrefix dirPath) None
            true [] w
          = Ret (true, []) (setS3 s' (addEffect (Sent list) w))) as Hpages.
  { cbn [deleteDirectoryPages]. fold list.
    rewrite (bind_Ret _ _ _ _ _ (send_ok _ _ _ _ _ Hsend)).
    rewrite Hempty, Hlast. reflexivity. }
  unfold deleteDirectory, tryCatch.
  now rewrite (bind_Ret _ _ _ _ _ Hpages).
Qed.

(** The removal of a file that the endpoint reports as missing: when the
    deletion fails with HTTP 404, [removeItem] throws HTTP 404 with the
    message of a missing file; only the deletion was sent, and the file
    records, the mounts and the cache are as they were. *)
Theorem removeItem_missing_file (fuel : nat) (path : string) (userId : UserId)
    (userType secret : string) (w : World) (mount : Mount) (subPath : string)
    (cfg : S3Config) (client : S3Client) (e : Exn) (s' : S3State) :
  JS.endsWith path "/" = false ->
  findMountPointByPath (w_db w) path userId userType = MountFound mount subPath ->
  selectS3Config (w_db w) (storage_config_id mount) = Some cfg ->
  createS3Client cfg secret = inr client ->
  let delete :=
    DeleteObjectCommand (bucket_name cfg) (normalizeS3SubPath subPath cfg false) in
  s3_send client delete (w_s3 w) = (inl e, s') ->
  metadataStatus e = Some 404 ->
  removeItem fuel path userId userType secret w
  = Throw (HTTPException ApiStatus.NOT_FOUND "文件不存在")
      (setS3 s' (addEffect (Sent delete) w)).
Proof.
  intros Hfile Hm Hc Hk delete Hsend H404.
  unfold removeItem. apply handleFsError_http.
  rewrite (bind_Ret _ _ _ _ _ (findMount_found _ _ _ _ _ _ Hm)). cbv beta iota.
  rewrite (bind_Ret _ _ _ _ _ (getS3Config_found _ _ _ Hc)).
  rewrite (bind_Ret _ _ _ _ _ (newS3Client_ok _ _ _ _ Hk)). cbv zeta.
  rewrite Hfile. fold delete.
  apply bind_Throw. unfold tryCatch.
  rewrite (bind_Throw _ _ _ _ _ (send_error _ _ _ _ _ Hsend)).
  rewrite H404. reflexivity.
Qed.

End RemovalProperties.

Section UpdateProperties.

Context {Hb : S3Backend} {Hs : Helpers}.

(** The HEAD probe of [updateFile]. *)
Lemma updateFile_probe (client : S3Client) (bucket key : string) (w : World)
    (probe : Exn + Output) (s1 : S3State) :
  s3_send client (HeadObjectCommand bucket key) (w_s3 w) = (probe, s1) ->
  tryCatch
    (let! r := send client (HeadObjectCommand bucket key) in ret (Some r))
    (fun _ => ret None) w
  = Ret (match probe with inr out => Some out | inl _ => None end)
      (setS3 s1 (addEffect (Sent (HeadObjectCommand bucket key)) w)).
Proof.
  intros Hhead. unfold tryCatch. destruct probe as [e|out].
  - now rewrite (bind_Throw _ _ _ _ _ (send_error _ _ _ _ _ Hhead)).
  - now rewrite (bind_Ret _ _ _ _ _ (send_ok _ _ _ _ _ Hhead)).
Qed.


(** What [updateFile] stores.  With content of an accepted kind that
    passes the size test, a file name outside the executable group and an
    endpoint that accepts the PUT, the call sends HEAD and then one PUT of
    the content under the MIME type of the classifier (fed with the type
    of the original object, or else [text/plain] for a string and
    [application/octet-stream] for a buffer) and with the metadata of the
    original object; it returns that type, the ETag without its quotes and
    whether the file is new, which is to say whether HEAD failed. *)
Theorem updateFile_stores (path : string) (content : Content) (userId : UserId)
    (userType secret : string) (w : World) (mount : Mount) (subPath : string)
    (cfg : S3Config) (client : S3Client) (probe : Exn + Output)
    (s1 s2 : S3State) (stored : Output) :
  contentTooLarge content = false ->
  acceptedContent content = true ->
  findMountPointByPath (w_db w) path userId userType = MountFound mount subPath ->
  selectS3Config (w_db w) (storage_config_id mount) = Some cfg ->
  createS3Client cfg secret = inr client ->
  let bucket := bucket_name cfg in
  let key := normalizeS3SubPath subPath cfg false in
  let head := HeadObjectCommand bucket key in
  let original := match probe with inr out => Some out | inl _ => None end in
  let fallback :=
    match content with
    | CString _ => "text/plain"
    | _ => "application/octet-stream"
    end in
  let classified :=
    getMimeTypeAndGroupFromFile (updatedFileName path)
      (match original with
       | Some r => JS.orElseOpt (out_ContentType r) fallback
       | None => fallback
       end) in
  let put :=
    PutObjectCommand bucket key content (fst classified)
      (match original with Some r => out_Metadata r | None => None end) in
  s3_send client head (w_s3 w) = (probe, s1) ->
  snd classified <> MIME_GROUPS_EXECUTABLE ->
  s3_send client put s1 = (inr stored, s2) ->
  exists w',
    updateFile path content userId userType secret w
    = Ret (mkUpdateResult path (cleanETag (out_ETag stored)) (fst classified)
             (match original with Some _ => false | None => true end)) w'
    /\ sentCommands w' = sentCommands w ++ [head; put]
    /\ w_s3 w' = s2.
Proof.
  intros Hsize Hacc Hm Hc Hk bucket key head original fallback classified put
    Hhead Hgroup Hput.
  rewrite (updateFile_reaches_body _ _ _ _ _ _ _ _ _ _ Hsize Hm Hc Hk).
  set (w1 := stampMount (mount_id mount) w).
  assert (s3_send client head (w_s3 w1) = (probe, s1)) as Hhead' by exact Hhead.
  set (w2 := setS3 s1 (addEffect (Sent head) w1)).
  assert (s3_send client put (w_s3 w2) = (inr stored, s2)) as Hput' by exact Hput.
  set (w3 := setS3 s2 (addEffect (Sent put) w2)).
  assert (classifyUpdate (updatedFileName path) fallback original w2
          = Ret (fst classified) w2) as Hcls.
  { unfold classifyUpdate. fold classified.
    destruct classified as [mimeType mimeGroup]. cbn [fst snd] in *.
    apply String.eqb_neq in Hgroup. now rewrite Hgroup. }
  assert (exists c,
            (if 0 <? cache_ttl mount
             then
               if negb (String.eqb subPath "/") && JS.includes subPath "/"
               then
                 directoryCache_invalidatePathAndAncestors (mount_id mount)
                   (upToLastSlash subPath) ;;;
                 ret tt
               else ret tt
             else ret tt) w3 = Ret tt (setCache c w3)) as [c Hinv].
  { assert (ret tt w3 = Ret tt (setCache (w_cache w3) w3)) as Hsame
      by now destruct w3.
    destruct (0 <? cache_ttl mount); [|now exists (w_cache w3)].
    destruct (_ && _); [|now exists (w_cache w3)].
    destruct (invalidateAll_setCache (mount_id mount)
                (upToLastSlash subPath
                 :: ancestorDirectories (upToLastSlash subPath)) w3)
      as (n & c & Hrun).
    exists c. unfold directoryCache_invalidatePathAndAncestors.
    now rewrite (bind_Ret _ _ _ _ _ Hrun). }
  exists (setCache c w3). split; [|split].
  - apply handleFsError_ret. unfold tryCatch at 1. unfold updateBody. cbv zeta.
    fold bucket key head.
    rewrite (bind_Ret _ _ _ _ _ (updateFile_probe _ _ _ _ _ _ Hhead')).
    fold original w2.
    assert ((match content with
             | CString _ =>
                 classifyUpdate (updatedFileName path) "text/plain" original
             | CArrayBuffer _ | CUint8Array _ =>
                 classifyUpdate (updatedFileName path)
                   "application/octet-stream" original
             | COther =>
                 throw (HTTPException ApiStatus.BAD_REQUEST "不支持的内容格式")
             end) w2 = Ret (fst classified) w2) as Hcls'.
    { destruct content; try discriminate Hacc; exact Hcls. }
    rewrite (bind_Ret _ _ _ _ _ Hcls'). fold put.
    rewrite (bind_Ret _ _ _ _ _ (send_ok _ _ _ _ _ Hput')). fold w3.
    rewrite (bind_Ret _ _ _ _ _ Hinv). reflexivity.
  - unfold sentCommands. cbn [w_effects setCache w3 w2 w1 setS3 addEffect stampMount setDb].
    rewrite !omap_app. cbn [omap list_omap]. now rewrite <- app_assoc.
  - reflexivity.
Qed.

End UpdateProperties.
Section FakeUploads.

Context {Hs : @Helpers FakeBackend}.

(** The parent test that [createDirectory], [uploadFile] and [renameItem]
    share, on an endpoint without faults. *)
Lemma parentCheck_fake (guard : bool) (bucket parent : string) (message : string)
    (w : World) :
  faultless (w_s3 w) ->
  exists w' sent,
    (if guard
     then
       let! parentExists := checkDirectoryExists tt bucket parent in
       throwIf (negb parentExists) (HTTPException ApiStatus.CONFLICT message)
     else ret tt) w
    = (if guard && negb (fakeDirectoryExists (w_s3 w) bucket parent)
       then Throw (HTTPException ApiStatus.CONFLICT message)
       else Ret tt) w'
    /\ w_s3 w' = w_s3 w /\ w_db w' = w_db w /\ w_cache w' = w_cache w
    /\ w_nextId w' = w_nextId w /\ w_now w' = w_now w
    /\ sentCommands w' = sentCommands w ++ sent
    /\ Forall (fun c => isPut c = false) sent.
Proof.
  intros Hf. destruct guard.
  - destruct (checkDirectoryExists_fake bucket parent w Hf)
      as (w1 & sent1 & Hrun & H1 & H2 & H3 & H4 & H5).
    exists w1, sent1. rewrite (bind_Ret _ _ _ _ _ Hrun).
    assert (w_nextId w1 = w_nextId w /\ w_now w1 = w_now w) as [H6 H7].
    { pose proof (keeps_checkDirectoryExists beyondEndpoint tt bucket parent
                    (fun _ _ _ => eq_refl) w) as Hkeep.
      rewrite Hrun in Hkeep. now injection Hkeep as _ _ -> ->. }
    destruct (fakeDirectoryExists (w_s3 w) bucket parent); simpl; auto 10.
  - exists w, []. rewrite app_nil_r. simpl. auto 10.
Qed.

(** The parent of a new directory is missing: on an endpoint without
    faults, [createDirectory] for a key of more than one segment whose
    parent directory is not there throws HTTP 409 with the message of the
    missing parent; the store is as it was and no PUT was sent. *)
Theorem createDirectory_parent_missing (path : string) (userId : UserId)
    (userType secret : string) (w : World) (mount : Mount) (subPath : string)
    (cfg : S3Config) :
  faultless (w_s3 w) ->
  findMountPointByPath (w_db w) (normalizePath path true) userId userType
  = MountFound mount subPath ->
  selectS3Config (w_db w) (storage_config_id mount) = Some cfg ->
  createS3Client cfg secret = inr tt ->
  let bucket := bucket_name cfg in
  let key := normalizeS3SubPath subPath cfg true in
  (1 <? List.length (JS.filterBoolean (JS.split key "/")))%nat = true ->
  fakeDirectoryExists (w_s3 w) bucket (parentOfDirectory key) = false ->
  exists w' sent,
    createDirectory path userId userType secret w
    = Throw (HTTPException ApiStatus.CONFLICT "父目录不存在") w'
    /\ w_s3 w' = w_s3 w
    /\ sentCommands w' = sentCommands w ++ sent
    /\ Forall (fun c => isPut c = false) sent.
Proof.
  intros Hf Hm Hc Hk bucket key Hdeep Hmissing.
  destruct (parentCheck_fake true bucket (parentOfDirectory key) "父目录不存在"
              w Hf) as (w1 & sent & Hrun & Hs3 & _ & _ & _ & _ & Hsent & Hput).
  rewrite Hmissing in Hrun. cbn [negb andb] in Hrun.
  exists w1, sent. split; [|auto].
  unfold createDirectory. apply handleFsError_http. cbv zeta.
  rewrite (bind_Ret _ _ _ _ _ (findMount_found _ _ _ _ _ _ Hm)). cbv beta iota.
  rewrite (bind_Ret _ _ _ _ _ (getS3Config_found _ _ _ Hc)).
  rewrite (bind_Ret _ _ _ _ _ (newS3Client_ok _ _ _ _ Hk)).
  fold key bucket. rewrite Hdeep. now apply bind_Throw.
Qed.


(** What a direct upload stores.  On an endpoint without faults, for a
    path that resolves and whose target directory is there, [uploadFile]
    sends one PUT of the file's bytes under the key made of the target
    directory and the file's name, with the type the browser gave (or
    [application/octet-stream]); the name of the file plays no part in
    the type.  The object is then in the store and a file record for the
    key is added to the database. *)
Theorem uploadFile_direct_stores (path : string) (file : File)
    (userId : UserId) (userType secret : string) (w : World) (mount : Mount)
    (subPath : string) (cfg : S3Config) :
  faultless (w_s3 w) ->
  findMountPointByPath (w_db w) path userId userType = MountFound mount subPath ->
  selectS3Config (w_db w) (storage_config_id mount) = Some cfg ->
  createS3Client cfg secret = inr tt ->
  let bucket := bucket_name cfg in
  let s3SubPath := normalizeS3SubPath subPath cfg true in
  let fileName := JS.orElse (file_name file) "unnamed_file" in
  let key :=
    if JS.truthy s3SubPath && negb (String.eqb (JS.trim s3SubPath) "")
    then (if JS.endsWith s3SubPath "/" then s3SubPath else s3SubPath +:+ "/")
         +:+ fileName
    else JS.orElseOpt (root_prefix cfg) ""
         +:+ JS.orElseOpt (default_folder cfg) "" +:+ fileName in
  let mimetype := JS.orElse (file_type file) "application/octet-stream" in
  let put :=
    PutObjectCommand bucket key (CArrayBuffer (file_arrayBuffer file)) mimetype
      None in
  (JS.includes key "/" = true ->
   fakeDirectoryExists (w_s3 w) bucket (upToLastSlash key) = true) ->
  exists w' sent result row,
    uploadFile path file userId userType secret false w = Ret result w'
    /\ fk_objects (w_s3 w')
       = <[(bucket, key) :=
             mkS3Object (CArrayBuffer (file_arrayBuffer file)) mimetype None]>
           (fk_objects (w_s3 w))
    /\ db_files (w_db w') = db_files (w_db w) ++ [row]
    /\ file_storage_path row = key
    /\ file_filename row = fileName
    /\ file_mimetype row = mimetype
    /\ file_size row = file_bytes file
    /\ file_s3_config_id row = s3_id cfg
    /\ sentCommands w' = sentCommands w ++ sent ++ [put]
    /\ Forall (fun c => isPut c = false) sent.
Proof.
  intros Hf Hm Hc Hk bucket s3SubPath fileName key mimetype put Hdir.
  destruct (parentCheck_fake (JS.includes key "/") bucket (upToLastSlash key)
              "父目录不存在" w Hf)
    as (w1 & sent & Hparent & Hs1 & Hd1 & Hc1 & Hn1 & Ht1 & Hsent1 & Hput1).
  assert (JS.includes key "/"
          && negb (fakeDirectoryExists (w_s3 w) bucket (upToLastSlash key))
          = false) as Hok.
  { destruct (JS.includes key "/"); [|reflexivity]. now rewrite Hdir. }
  rewrite Hok in Hparent.
  assert (faultless (w_s3 w1)) as Hf1 by now rewrite Hs1.
  set (stored := mkFakeS3
                   (<[(bucket, key) :=
                        mkS3Object (CArrayBuffer (file_arrayBuffer file))
                          mimetype None]> (fk_objects (w_s3 w1)))
                   (fk_fault (w_s3 w1))).
  set (answer := mkOutput None None None (Some fakeETag) None None None None
                   false None).
  assert (@s3_send FakeBackend tt put (w_s3 w1) = (inr answer, stored)) as Hsend.
  { cbn [s3_send FakeBackend]. unfold fakeSend. now rewrite Hf1. }
  set (w2 := @setS3 FakeBackend stored (addEffect (Sent put) w1)).
  set (w3 := stampMount (mount_id mount) w2).
  set (fileId := generateFileId (w_nextId w3)).
  set (row := mkFileRow fileId fileName key (buildS3Url cfg key) mimetype
                (file_bytes file) (s3_id cfg)
                ("M-" +:+ JS.substring fileId 0 5) (cleanETag (Some fakeETag))
                (userType +:+ ":" +:+ user_key userId)
                (getLocalTimeString (w_now w3)) (getLocalTimeString (w_now w3))).
  set (w4 := setDb (mkDB (db_mounts (w_db w3)) (db_s3_configs (w_db w3))
                      (db_files (w_db w3) ++ [row])) (bumpId w3)).
  assert (exists c,
            (if negb (String.eqb subPath "/") && JS.includes subPath "/"
             then
               directoryCache_invalidatePathAndAncestors (mount_id mount)
                 (upToLastSlash subPath) ;;;
               ret tt
             else directoryCache_invalidate (mount_id mount) "/" ;;; ret tt) w4
            = Ret tt (setCache c w4)) as [c Hinv].
  { destruct (negb (String.eqb subPath "/") && JS.includes subPath "/").
    - destruct (invalidateAll_setCache (mount_id mount)
                  (upToLastSlash subPath
                   :: ancestorDirectories (upToLastSlash subPath)) w4)
        as (n & c & Hrun).
      exists c. unfold directoryCache_invalidatePathAndAncestors.
      now rewrite (bind_Ret _ _ _ _ _ Hrun).
    - eexists. reflexivity. }
  exists (setCache c w4), sent. eexists _, row. split.
  - unfold uploadFile. apply handleFsError_ret. cbv iota zeta.
    rewrite (bind_Ret _ _ _ _ _ (findMount_found _ _ _ _ _ _ Hm)). cbv beta iota.
    rewrite (bind_Ret _ _ _ _ _ (getS3Config_found _ _ _ Hc)).
    rewrite (bind_Ret _ _ _ _ _ (newS3Client_ok _ _ _ _ Hk)).
    fold s3SubPath fileName key bucket.
    rewrite (bind_Ret _ _ _ _ _ Hparent). fold mimetype put.
    rewrite (bind_Ret _ _ _ _ _ (send_ok (Hb:=FakeBackend) tt _ w1 _ _ Hsend)).
    fold w2. rewrite (bind_Ret _ _ _ _ _ (updateMountLastUsed_run _ w2)).
    fold w3.
    rewrite (bind_Ret _ _ _ _ _
               (eq_refl : freshFileId w3 = Ret fileId (bumpId w3))).
    rewrite (bind_Ret _ _ _ _ _
               (eq_refl : now (bumpId w3) = Ret (w_now w3) (bumpId w3))).
    rewrite (bind_Ret _ _ _ _ _
               (eq_refl : insertFile row (bumpId w3) = Ret tt w4)).
    rewrite (bind_Ret _ _ _ _ _ Hinv). reflexivity.
  - cbn [w_s3 w_db setCache w4 setDb bumpId w3 stampMount w2 setS3 addEffect
           stored fk_objects db_files].
    rewrite Hs1, Hd1. repeat split; auto.
    unfold sentCommands.
    cbn [w_effects setCache w4 setDb bumpId w3 stampMount w2 setS3 addEffect].
    rewrite omap_app. fold (sentCommands w1). rewrite Hsent1.
    cbn [omap list_omap]. now rewrite <- app_assoc.
Qed.

End FakeUploads.


Section QuietProperties.

Context {Hb : S3Backend} {Hs : Helpers}.

Lemma quiet_ret {A} (a : A) : quiet (ret a : SM A).
Proof. intros w. now exists a, w. Qed.

Lemma quiet_bind {A B} (m : SM A) (k : A -> SM B) :
  quiet m -> (forall a, quiet (k a)) -> quiet (bind m k).
Proof.
  intros Hm Hk w. destruct (Hm w) as (a & w1 & Hrun & Hs1 & He1).
  destruct (Hk a w1) as (b & w2 & Hrun2 & Hs2 & He2).
  exists b, w2. rewrite (bind_Ret _ _ _ _ _ Hrun). split; [exact Hrun2|].
  split; congruence.
Qed.

Lemma quiet_tryCatch {A} (m : SM A) (h : Exn -> SM A) :
  quiet m -> quiet (tryCatch m h).
Proof.
  intros Hm w. destruct (Hm w) as (a & w1 & Hrun & Hs1 & He1).
  exists a, w1. unfold tryCatch. now rewrite Hrun.
Qed.

Lemma quiet_modify (f : World -> World) :
  (forall w, w_s3 (f w) = w_s3 w /\ w_effects (f w) = w_effects w) ->
  quiet (modify f).
Proof. intros Hf w. exists tt, (f w). split; [reflexivity|apply Hf]. Qed.

Lemma quiet_invalidate (mountId p : string) :
  quiet (directoryCache_invalidate mountId p).
Proof. intros w. eexists _, _. split; [reflexivity|]. now split. Qed.

Lemma quiet_invalidateAll (mountId : string) (paths : list string) :
  quiet (invalidateAll mountId paths).
Proof.
  induction paths as [|p rest IH]; [apply quiet_ret|].
  cbn [invalidateAll]. apply quiet_bind; [apply quiet_invalidate|]. intros b.
  apply quiet_bind; [exact IH|]. intros n. apply quiet_ret.
Qed.

Lemma quiet_refreshParent (mountId s : string) (isDirectory : bool) :
  quiet (refreshParent mountId s isDirectory).
Proof.
  unfold refreshParent.
  destruct (negb (String.eqb s "/") && JS.includes s "/").
  - apply quiet_bind; [apply quiet_invalidateAll|]. intros. apply quiet_ret.
  - destruct (negb isDirectory); [|apply quiet_ret].
    apply quiet_bind; [apply quiet_invalidate|]. intros. apply quiet_ret.
Qed.

Lemma quiet_deleteFileRecords (cfgId : string) (paths : list string) :
  quiet (deleteFileRecords cfgId paths).
Proof.
  induction paths as [|p rest IH]; [apply quiet_ret|].
  cbn [deleteFileRecords]. apply quiet_bind; [|intros; exact IH].
  now apply quiet_modify.
Qed.

Lemma quiet_stamp (mountId : string) : quiet (updateMountLastUsed mountId).
Proof. now apply quiet_modify. Qed.

End QuietProperties.

Section FakeRemoval.

Context {Hs : @Helpers FakeBackend}.

Lemma removeKeys_lookup (bucket : string) (keys : list string)
    (objects : gmap (string * string) S3Object) (b k : string) :
  removeKeys bucket keys objects !! (b, k)
  = if bool_decide (b = bucket /\ k ∈ keys) then None else objects !! (b, k).
Proof.
  unfold removeKeys. revert objects.
  induction keys as [|x keys IH]; intros objects.
  - cbn. case_bool_decide as H; [|reflexivity].
    destruct H as [_ H]. now apply elem_of_nil in H.
  - cbn [List.fold_left]. rewrite IH.
    repeat case_bool_decide; try reflexivity.
    + destruct H0. destruct H as [-> H]. split; [reflexivity|now right].
    + destruct H0 as [-> H0]. apply elem_of_cons in H0 as [->|H0].
      * apply lookup_delete_eq.
      * destruct H. now split.
    + rewrite lookup_delete_ne; [reflexivity|].
      intros [= <- <-]. apply H0. split; [reflexivity|now left].
Qed.

(** The inner loop of [deleteDirectory] on an endpoint without faults. *)
Lemma deleteObjects_fake (bucket : string) (objects : list ListedObject)
    (deleted : list string) (w : World) :
  faultless (w_s3 w) ->
  exists w',
    deleteObjects tt bucket objects deleted w
    = Ret (deleted ++ List.map lo_Key objects) w'
    /\ fk_objects (w_s3 w')
       = removeKeys bucket (List.map lo_Key objects) (fk_objects (w_s3 w))
    /\ fk_fault (w_s3 w') = fk_fault (w_s3 w)
    /\ sentCommands w'
       = sentCommands w
         ++ List.map (fun o => DeleteObjectCommand bucket (lo_Key o)) objects.
Proof.
  revert deleted w. induction objects as [|o rest IH]; intros deleted w Hf.
  - exists w. cbn. now rewrite !app_nil_r.
  - cbn [deleteObjects List.map].
    set (w1 := @setS3 FakeBackend
                 (mkFakeS3 (delete (bucket, lo_Key o) (fk_objects (w_s3 w)))
                    (fk_fault (w_s3 w)))
                 (addEffect (Sent (DeleteObjectCommand bucket (lo_Key o))) w)).
    assert (send tt (DeleteObjectCommand bucket (lo_Key o)) w = Ret emptyOutput w1)
      as Hsend.
    { apply (send_ok (Hb:=FakeBackend)). cbn [s3_send FakeBackend].
      unfold fakeSend. now rewrite Hf. }
    rewrite (bind_Ret _ _ _ _ _ Hsend).
    destruct (IH (deleted ++ [lo_Key o]) w1) as (w' & Hrun & Hobj & Hfault & Hsent);
      [exact Hf|].
    exists w'. rewrite Hrun, <- app_assoc. split; [reflexivity|].
    split; [exact Hobj|]. split; [exact Hfault|].
    rewrite Hsent. unfold w1. rewrite sentCommands_sent, <- app_assoc.
    reflexivity.
Qed.

(** A listing without delimiter that fits one page holds every key that
    has the prefix. *)
Lemma one_page_listing (st : FakeS3) (bucket prefix : string) :
  (List.length (matchingKeys st bucket prefix None) <= 1000)%nat ->
  let page := listOutput st bucket prefix None None None in
  List.map lo_Key (default [] (out_Contents page))
  = matchingKeys st bucket prefix None
  /\ out_IsTruncated page = false
  /\ nonEmptyContents page
     = match matchingKeys st bucket prefix None with
       | [] => false
       | _ :: _ => true
       end.
Proof.
  intros Hlen page. subst page. unfold listOutput, nonEmptyContents.
  cbn [out_Contents out_IsTruncated default].
  change (Z.to_nat (id 1000)) with 1000%nat.
  rewrite firstn_all2 by exact Hlen.
  pose proof (matchingKeys_elem st bucket prefix None) as Hel.
  set (f := fun k : string =>
              match rollUp prefix None k with
              | Some _ => None
              | None =>
                  match fk_objects st !! (bucket, k) with
                  | Some o =>
                      Some (mkListedObject k (Some (contentSize (obj_body o)))
                              (Some 0) (Some fakeETag))
                  | None => None
                  end
              end).
  assert (forall l, (forall k, k ∈ l -> is_Some (fk_objects st !! (bucket, k))) ->
                    List.map lo_Key (omap f l) = l) as Hmap.
  { induction l as [|k l IH]; intros Hl; [reflexivity|].
    cbn [omap list_omap]. unfold f at 1. cbn [rollUp].
    destruct (Hl k) as [o Ho]; [now left|]. rewrite Ho.
    cbn [List.map lo_Key]. f_equal. apply IH. intros x Hx. apply Hl. now right. }
  specialize (Hmap _ Hel).
  split; [|split].
  - destruct (omap f (matchingKeys st bucket prefix None)) eqn:E;
      [now rewrite <- Hmap|exact Hmap].
  - apply Nat.ltb_ge. exact Hlen.
  - destruct (matchingKeys st bucket prefix None) as [|k l]; [reflexivity|].
    destruct (omap f (k :: l)); [discriminate Hmap|reflexivity].
Qed.

End FakeRemoval.

Section FakeRemoval2.

Context {Hs : @Helpers FakeBackend}.

Lemma matchingKeys_iff (st : FakeS3) (bucket prefix k : string) :
  k ∈ matchingKeys st bucket prefix None
  <-> is_Some (fk_objects st !! (bucket, k)) /\ JS.startsWith k prefix = true.
Proof.
  unfold matchingKeys. rewrite list_elem_of_In, filter_In, <- list_elem_of_In.
  rewrite bucketKeys_elem, andb_true_r. reflexivity.
Qed.

(** The removal of a directory on an endpoint without faults, when the
    keys under the prefix fit one page of the listing: [removeItem]
    lists the prefix once and deletes every key of the listing in order;
    when it returns no key of the bucket has the prefix, and every other
    object is where it was. *)
Theorem removeItem_directory_clears (fuel : nat) (path : string)
    (userId : UserId) (userType secret : string) (w : World) (mount : Mount)
    (subPath : string) (cfg : S3Config) :
  faultless (w_s3 w) ->
  JS.endsWith path "/" = true ->
  findMountPointByPath (w_db w) path userId userType = MountFound mount subPath ->
  selectS3Config (w_db w) (storage_config_id mount) = Some cfg ->
  createS3Client cfg secret = inr tt ->
  let bucket := bucket_name cfg in
  let prefix := asPrefix (normalizeS3SubPath subPath cfg true) in
  let keys := matchingKeys (w_s3 w) bucket prefix None in
  keys <> [] ->
  (List.length keys <= 1000)%nat ->
  exists w',
    removeItem (S fuel) path userId userType secret w = Ret tt w'
    /\ (forall b k,
          fk_objects (w_s3 w') !! (b, k)
          = if bool_decide (b = bucket) && JS.startsWith k prefix
            then None
            else fk_objects (w_s3 w) !! (b, k))
    /\ sentCommands w'
       = sentCommands w
         ++ ListObjectsV2Command bucket prefix None None None
            :: List.map (DeleteObjectCommand bucket) keys.
Proof.
  intros Hf Hdir Hm Hc Hk bucket prefix keys Hsome Hone.
  set (list := ListObjectsV2Command bucket prefix None None None).
  set (page := listOutput (w_s3 w) bucket prefix None None None).
  destruct (one_page_listing (w_s3 w) bucket prefix Hone)
    as (Hkeys & Htrunc & Hne).
  fold page keys in Hkeys, Htrunc, Hne.
  assert (nonEmptyContents page = true) as Hne'.
  { rewrite Hne. destruct keys; [contradiction|reflexivity]. }
  assert (nextToken page = None) as Hlast
    by (unfold nextToken; now rewrite Htrunc).
  set (w1 := @setS3 FakeBackend (w_s3 w) (addEffect (Sent list) w)).
  assert (send tt list w = Ret page w1) as Hlist.
  { apply (send_ok (Hb:=FakeBackend)). cbn [s3_send FakeBackend].
    unfold fakeSend. now rewrite Hf. }
  destruct (deleteObjects_fake bucket (default [] (out_Contents page)) [] w1 Hf)
    as (w2 & Hdel & Hobj & Hfault & Hsent).
  rewrite Hkeys in Hdel, Hobj. cbn [app] in Hdel.
  assert (deleteDirectoryPages (S fuel) tt bucket prefix None true [] w
          = Ret (false, keys) w2) as Hpages.
  { cbn [deleteDirectoryPages]. fold list.
    rewrite (bind_Ret _ _ _ _ _ Hlist). rewrite Hne', Hlast.
    assert ((let! deleted :=
               deleteObjects tt bucket (default [] (out_Contents page)) [] in
             ret (false, deleted)) w1 = Ret (false, keys) w2) as Hinner
      by now rewrite (bind_Ret _ _ _ _ _ Hdel).
    now rewrite (bind_Ret _ _ _ _ _ Hinner). }
  assert (exists w3,
            deleteDirectory (S fuel) tt bucket
              (normalizeS3SubPath subPath cfg true) (storage_config_id mount) w
            = Ret tt w3
            /\ w_s3 w3 = w_s3 w2 /\ w_effects w3 = w_effects w2)
    as (w3 & Hdd & Hs3 & He3).
  { unfold deleteDirectory. fold prefix. unfold tryCatch at 1.
    rewrite (bind_Ret _ _ _ _ _ Hpages). cbv beta iota.
    rewrite (bind_Ret _ _ _ _ _ (throwIf_false _ _)).
    destruct (JS.truthy (storage_config_id mount)
              && (0 <? List.length keys)%nat).
    - destruct (quiet_tryCatch _ (fun _ => ret tt)
                  (quiet_deleteFileRecords (storage_config_id mount) keys) w2)
        as ([] & w3 & Hrun & H1 & H2).
      exists w3. rewrite Hrun. auto.
    - exists w2. auto. }
  assert (quiet (directoryCache_invalidate (mount_id mount) subPath ;;; ret tt))
    as Hq1.
  { apply quiet_bind; [apply quiet_invalidate|]. intros _. apply quiet_ret. }
  destruct (Hq1 w3) as ([] & w4 & Hrun1 & Hs4 & He4).
  assert (quiet
            (tryCatch
               (modify (fun w =>
                  setDb
                    (snd (deleteFileRecordByStoragePath (w_db w)
                            (storage_config_id mount)
                            (normalizeS3SubPath subPath cfg true)))
                    w))
               (fun _ => ret tt) ;;;
             updateMountLastUsed (mount_id mount) ;;;
             refreshParent (mount_id mount) subPath true)) as Hq2.
  { apply quiet_bind; [apply quiet_tryCatch; now apply quiet_modify|]. intros _.
    apply quiet_bind; [apply quiet_stamp|]. intros _.
    apply quiet_refreshParent. }
  destruct (Hq2 w4) as ([] & w5 & Hrun2 & Hs5 & He5).
  exists w5. split; [|split].
  - unfold removeItem. apply handleFsError_ret.
    rewrite (bind_Ret _ _ _ _ _ (findMount_found _ _ _ _ _ _ Hm)). cbv beta iota.
    rewrite (bind_Ret _ _ _ _ _ (getS3Config_found _ _ _ Hc)).
    rewrite (bind_Ret _ _ _ _ _ (newS3Client_ok _ _ _ _ Hk)). cbv zeta.
    rewrite Hdir. fold bucket.
    assert ((deleteDirectory (S fuel) tt bucket
               (normalizeS3SubPath subPath cfg true) (storage_config_id mount) ;;;
             directoryCache_invalidate (mount_id mount) subPath ;;; ret tt) w
            = Ret tt w4) as Hfirst
      by now rewrite (bind_Ret _ _ _ _ _ Hdd).
    rewrite (bind_Ret _ _ _ _ _ Hfirst). exact Hrun2.
  - intros b k. rewrite Hs5, Hs4, Hs3, Hobj. rewrite removeKeys_lookup.
    unfold w1. cbn [w_s3 setS3].
    destruct (decide (b = bucket)) as [->|Hnb].
    + rewrite (bool_decide_eq_true_2 (bucket = bucket)) by reflexivity.
      cbn [andb]. destruct (JS.startsWith k prefix) eqn:Hp.
      * destruct (fk_objects (w_s3 w) !! (bucket, k)) as [o|] eqn:Hlook.
        -- rewrite bool_decide_eq_true_2; [reflexivity|].
           split; [reflexivity|]. apply matchingKeys_iff.
           split; [now exists o|exact Hp].
        -- now destruct (bool_decide _).
      * rewrite bool_decide_eq_false_2; [reflexivity|].
        intros [_ Hin]. apply matchingKeys_iff in Hin as [_ Hin]. congruence.
    + rewrite (bool_decide_eq_false_2 (b = bucket)) by exact Hnb.
      cbn [andb]. rewrite bool_decide_eq_false_2; [reflexivity|].
      now intros [Heq _].
  - assert (sentCommands w5 = sentCommands w2) as ->
      by (unfold sentCommands; now rewrite He5, He4, He3).
    rewrite Hsent. unfold w1. rewrite sentCommands_sent, <- app_assoc.
    cbn [app]. rewrite <- Hkeys, List.map_map. reflexivity.
Qed.

End FakeRemoval2.
(* ===================================================================== *)
(** * Properties of the reading operations *)
(* ===================================================================== *)

Section HeaderProperties.

Lemma getHeader_setHeader_ne (name other value : string)
    (headers : list (string * string)) :
  other <> name ->
  getHeader other (setHeader name value headers) = getHeader other headers.
Proof.
  intros Hne. apply not_eq_sym, String.eqb_neq in Hne.
  induction headers as [|[n v] rest IH]; cbn [setHeader getHeader].
  - now rewrite Hne.
  - destruct (String.eqb n name) eqn:E; cbn [getHeader].
    + apply String.eqb_eq in E as ->. now rewrite Hne.
    + now rewrite IH.
Qed.

Lemma otherThanDisposition_setHeader (name value : string)
    (headers : list (string * string)) :
  name <> "Content-Disposition" ->
  otherThanDisposition (setHeader name value headers)
  = setHeader name value (otherThanDisposition headers).
Proof.
  intros Hne. unfold otherThanDisposition.
  induction headers as [|[n v] rest IH]; cbn [setHeader List.filter fst].
  - apply String.eqb_neq in Hne. now rewrite Hne.
  - destruct (String.eqb n name) eqn:E.
    + apply String.eqb_eq in E as ->. cbn [List.filter fst].
      apply String.eqb_neq in Hne. rewrite Hne. cbn [negb setHeader].
      now rewrite String.eqb_refl.
    + cbn [List.filter fst].
      destruct (String.eqb n "Content-Disposition"); cbn [negb];
        [exact IH|]. cbn [setHeader]. now rewrite E, IH.
Qed.

End HeaderProperties.

Section ReadProperties.

Context {Hb : S3Backend} {Hs : Helpers} {Hr : ReadHelpers}.

Lemma responseHeaders_disposition (response : Output) (cd : string) :
  getHeader "Content-Disposition" (responseHeaders response cd) = Some cd.
Proof.
  unfold responseHeaders. cbv zeta.
  destruct (out_ETag response) as [e|]; [destruct (JS.truthy e)|];
    rewrite ?getHeader_setHeader_ne by discriminate;
    (destruct (out_LastModified response);
     rewrite ?getHeader_setHeader_ne by discriminate;
     destruct (out_ContentLength response);
     rewrite ?getHeader_setHeader_ne by discriminate; reflexivity).
Qed.

Lemma responseHeaders_others (response : Output) (cd1 cd2 : string) :
  otherThanDisposition (responseHeaders response cd1)
  = otherThanDisposition (responseHeaders response cd2).
Proof.
  unfold responseHeaders. cbv zeta.
  destruct (out_ETag response) as [e|]; [destruct (JS.truthy e)|];
    rewrite ?otherThanDisposition_setHeader by discriminate;
    (destruct (out_LastModified response);
     rewrite ?otherThanDisposition_setHeader by discriminate;
     destruct (out_ContentLength response);
     rewrite ?otherThanDisposition_setHeader by discriminate; reflexivity).
Qed.

(** What [getFileFromS3] sends and answers.  It sends at most one
    command, a GET of the key without a range.  A response has the status
    200, the body of the object and the [Content-Disposition] of the mode
    (inline for a preview, attachment for a download).  An exception is an
    [HTTPException] with the status 404, 403 or 500, also when it is the
    making of the client that failed. *)
Theorem getFileFromS3_outcome (cfg : S3Config) (key fileName : string)
    (isPreview : bool) (secret : string) (w : World) :
  let get := GetObjectCommand (bucket_name cfg) key None in
  match getFileFromS3 cfg key fileName isPreview secret w with
  | Ret r w' =>
      resp_status r = 200
      /\ getHeader "Content-Disposition" (resp_headers r)
         = Some (contentDispositionOf fileName isPreview)
      /\ sentCommands w' = sentCommands w ++ [get]
  | Throw e w' =>
      (exnStatus e = Some ApiStatus.NOT_FOUND
       \/ exnStatus e = Some ApiStatus.FORBIDDEN
       \/ exnStatus e = Some ApiStatus.INTERNAL_ERROR)
      /\ (sentCommands w' = sentCommands w
          \/ sentCommands w' = sentCommands w ++ [get])
  | Diverge => False
  end.
Proof.
  intros get. unfold getFileFromS3, tryCatch, newS3Client. cbv zeta.
  assert (forall e w',
            match
              ((if hasMetadata e && statusIs (metadataStatus e) 404
                then throw (HTTPException ApiStatus.NOT_FOUND "文件不存在")
                else if hasMetadata e && statusIs (metadataStatus e) 403
                then throw (HTTPException ApiStatus.FORBIDDEN "没有权限访问该文件")
                else
                  throw (HTTPException ApiStatus.INTERNAL_ERROR
                           (readingWord isPreview +:+ "文件失败: "
                            +:+ JS.orElse (exnMessage e) "未知错误")))
               : SM Response) w'
            with
            | Ret r _ => False
            | Throw e' w'' =>
                (exnStatus e' = Some ApiStatus.NOT_FOUND
                 \/ exnStatus e' = Some ApiStatus.FORBIDDEN
                 \/ exnStatus e' = Some ApiStatus.INTERNAL_ERROR)
                /\ w'' = w'
            | Diverge => False
            end) as Hcatch.
  { intros e w'.
    destruct (hasMetadata e && statusIs (metadataStatus e) 404);
      [cbn; auto|].
    destruct (hasMetadata e && statusIs (metadataStatus e) 403); cbn; auto. }
  destruct (createS3Client cfg secret) as [e|client].
  - unfold bind at 1, throw at 1. specialize (Hcatch e w).
    destruct (_ w) as [r w'|e' w'|]; [contradiction| |contradiction].
    destruct Hcatch as [Hst ->]. now split; [|left].
  - unfold bind at 1, ret at 1. fold get.
    destruct (s3_send client get (w_s3 w)) as [[e|out] s'] eqn:E.
    + rewrite (bind_Throw _ _ _ _ _ (send_error _ _ _ _ _ E)).
      specialize (Hcatch e (setS3 s' (addEffect (Sent get) w))).
      destruct (_ (setS3 s' (addEffect (Sent get) w))) as [r w'|e' w'|];
        [contradiction| |contradiction].
      destruct Hcatch as [Hst ->]. split; [exact Hst|right].
      apply sentCommands_sent.
    + rewrite (bind_Ret _ _ _ _ _ (send_ok _ _ _ _ _ E)). cbn [ret].
      cbn [resp_status resp_headers]. split; [reflexivity|].
      split; [apply responseHeaders_disposition|apply sentCommands_sent].
Qed.


(** [getFileFromS3], step by step. *)
Lemma getFileFromS3_run (cfg : S3Config) (key fileName : string)
    (isPreview : bool) (secret : string) (w : World) :
  let get := GetObjectCommand (bucket_name cfg) key None in
  let failed (error : Exn) : SM Response :=
    if hasMetadata error && statusIs (metadataStatus error) 404
    then throw (HTTPException ApiStatus.NOT_FOUND "文件不存在")
    else if hasMetadata error && statusIs (metadataStatus error) 403
    then throw (HTTPException ApiStatus.FORBIDDEN "没有权限访问该文件")
    else
      throw (HTTPException ApiStatus.INTERNAL_ERROR
               (readingWord isPreview +:+ "文件失败: "
                +:+ JS.orElse (exnMessage error) "未知错误")) in
  getFileFromS3 cfg key fileName isPreview secret w
  = match createS3Client cfg secret with
    | inl e => failed e w
    | inr client =>
        match s3_send client get (w_s3 w) with
        | (inl e, s') => failed e (setS3 s' (addEffect (Sent get) w))
        | (inr out, s') =>
            Ret (mkResponse 200
                   (responseHeaders out (contentDispositionOf fileName isPreview))
                   (out_Body out))
              (setS3 s' (addEffect (Sent get) w))
        end
    end.
Proof.
  intros get failed. unfold getFileFromS3, tryCatch, newS3Client. cbv zeta.
  fold get. destruct (createS3Client cfg secret) as [e|client].
  - reflexivity.
  - unfold bind at 1, ret at 1.
    destruct (s3_send client get (w_s3 w)) as [[e|out] s'] eqn:E.
    + now rewrite (bind_Throw _ _ _ _ _ (send_error _ _ _ _ _ E)).
    + now rewrite (bind_Ret _ _ _ _ _ (send_ok _ _ _ _ _ E)).
Qed.

(** The two modes of [getFileFromS3] side by side. *)
Lemma getFileFromS3_modes (cfg : S3Config) (key fileName secret : string)
    (w : World) :
  match getFileFromS3 cfg key fileName true secret w,
        getFileFromS3 cfg key fileName false secret w with
  | Ret r1 w1, Ret r2 w2 =>
      w1 = w2
      /\ resp_status r1 = resp_status r2 /\ resp_body r1 = resp_body r2
      /\ otherThanDisposition (resp_headers r1)
         = otherThanDisposition (resp_headers r2)
      /\ getHeader "Content-Disposition" (resp_headers r1)
         = Some (contentDispositionOf fileName true)
      /\ getHeader "Content-Disposition" (resp_headers r2)
         = Some (contentDispositionOf fileName false)
  | Throw e1 w1, Throw e2 w2 =>
      w1 = w2 /\ exnStatus e1 = exnStatus e2 /\ is_Some (exnStatus e1)
  | _, _ => False
  end.
Proof.
  rewrite !getFileFromS3_run. cbv zeta.
  assert (forall st, is_Some (Some st : option Z)) as Hsome by (intros; eauto).
  destruct (createS3Client cfg secret) as [e|client].
  { destruct (hasMetadata e && statusIs (metadataStatus e) 404);
      [cbn; auto|].
    destruct (hasMetadata e && statusIs (metadataStatus e) 403); cbn; auto. }
  destruct (s3_send client (GetObjectCommand (bucket_name cfg) key None)
              (w_s3 w)) as [[e|out] s'].
  { destruct (hasMetadata e && statusIs (metadataStatus e) 404);
      [cbn; auto|].
    destruct (hasMetadata e && statusIs (metadataStatus e) 403); cbn; auto. }
  cbn [resp_status resp_headers resp_body].
  split; [reflexivity|]. split; [reflexivity|]. split; [reflexivity|].
  split; [apply responseHeaders_others|].
  split; apply responseHeaders_disposition.
Qed.

(** [previewFile] and [downloadFile], step by step. *)
Lemma readFile_run (isPreview : bool) (path : string) (userId : UserId)
    (userType secret d : string) (w : World) :
  handleFsError (readFile isPreview path userId userType secret) d w
  = match findMountPointByPath (w_db w) path userId userType with
    | MountError status msg => Throw (HTTPException status msg) w
    | MountFound mount subPath =>
        match selectS3Config (w_db w) (storage_config_id mount) with
        | None => Throw (HTTPException ApiStatus.NOT_FOUND "存储配置不存在") w
        | Some cfg =>
            handleFsError
              (getFileFromS3 cfg (normalizeS3SubPath subPath cfg false)
                 (lastSegmentOr path "file") isPreview secret)
              d (stampMount (mount_id mount) w)
        end
    end.
Proof.
  unfold readFile.
  destruct (findMountPointByPath (w_db w) path userId userType)
    as [status msg|mount subPath] eqn:Hm.
  - apply handleFsError_http.
    now rewrite (bind_Throw _ _ _ _ _ (findMount_error _ _ _ _ _ _ Hm)).
  - destruct (selectS3Config (w_db w) (storage_config_id mount)) as [cfg|] eqn:Hc.
    + unfold handleFsError, tryCatch.
      rewrite (bind_Ret _ _ _ _ _ (findMount_found _ _ _ _ _ _ Hm)).
      cbv beta iota.
      rewrite (bind_Ret _ _ _ _ _ (getS3Config_found _ _ _ Hc)). cbv zeta.
      now rewrite (bind_Ret _ _ _ _ _ (updateMountLastUsed_run _ _)).
    + apply handleFsError_http.
      rewrite (bind_Ret _ _ _ _ _ (findMount_found _ _ _ _ _ _ Hm)).
      cbv beta iota. apply bind_Throw.
      unfold getS3Config, bind, get. now rewrite Hc.
Qed.

(** A preview and a download of the same path from the same world go the
    same way.  Both return or both throw, and they leave the same world
    behind: the same stamp on the mount, the same GET.  Two responses
    have the same status, the same body and the same headers but for
    [Content-Disposition], which is inline for the preview and attachment
    for the download; two exceptions have the same HTTP status. *)
Theorem previewFile_downloadFile (path : string) (userId : UserId)
    (userType secret : string) (w : World) :
  let fileName := lastSegmentOr path "file" in
  match previewFile path userId userType secret w,
        downloadFile path userId userType secret w with
  | Ret r1 w1, Ret r2 w2 =>
      w1 = w2
      /\ resp_status r1 = resp_status r2 /\ resp_body r1 = resp_body r2
      /\ otherThanDisposition (resp_headers r1)
         = otherThanDisposition (resp_headers r2)
      /\ getHeader "Content-Disposition" (resp_headers r1)
         = Some (contentDispositionOf fileName true)
      /\ getHeader "Content-Disposition" (resp_headers r2)
         = Some (contentDispositionOf fileName false)
  | Throw e1 w1, Throw e2 w2 =>
      w1 = w2 /\ exnStatus e1 = exnStatus e2 /\ is_Some (exnStatus e1)
  | _, _ => False
  end.
Proof.
  intros fileName. unfold previewFile, downloadFile. rewrite !readFile_run.
  assert (forall st, is_Some (Some st : option Z)) as Hsome by (intros; eauto).
  destruct (findMountPointByPath (w_db w) path userId userType)
    as [status msg|mount subPath]; [cbn; auto|].
  destruct (selectS3Config (w_db w) (storage_config_id mount)) as [cfg|];
    [|cbn; auto].
  fold fileName. unfold handleFsError, tryCatch.
  set (key := normalizeS3SubPath subPath cfg false).
  set (w0 := stampMount (mount_id mount) w).
  pose proof (getFileFromS3_modes cfg key fileName secret w0) as Hmodes.
  destruct (getFileFromS3 cfg key fileName true secret w0) as [r1 w1|e1 w1|];
    destruct (getFileFromS3 cfg key fileName false secret w0) as [r2 w2|e2 w2|];
    try contradiction; [exact Hmodes|].
  destruct Hmodes as (-> & Hst & [st Hsome']).
  destruct e1 as [st1 m1|]; [|discriminate Hsome'].
  destruct e2 as [st2 m2|]; [|discriminate Hst].
  cbn [isHTTPException]. cbn. auto.
Qed.


End ReadProperties.
(* ===================================================================== *)
(** * Scenarios on the deployment *)
(* ===================================================================== *)

Lemma returned_final {Hb : S3Backend} (o : Outcome World unit) (d : World) :
  returned o = true -> o = Ret tt (finalWorld o d).
Proof. destruct o as [[] w'|e w'|]; [reflexivity|discriminate|discriminate]. Defined.



(** A writer is asked of the read-only driver and of the other one. *)
Lemma FileSystem_capability_gate_witness :
  requiredCapability (OpUploadFile "/media/x" "file" "opts") = Some WRITER
  /\ mm_getDriverByPath demoCollaborators "/media/x" "user" "admin" tt
     = (inr (readOnlyDriver, otherMount, "/x"), tt)
  /\ hasCapability readOnlyDriver WRITER = false
  /\ FileSystem_run demoCollaborators (OpUploadFile "/media/x" "file" "opts")
       "user" "admin" freshFacade
     = Throw (HTTPException 501 "存储驱动 WEBDAV 不支持写入操作")
         (mkFsState tt [GetDriverByPath "/media/x"])
  /\ storageEvents (mkFsState tt [GetDriverByPath "/media/x"] : @FsState string unit)
     = storageEvents freshFacade
  /\ hasCapability s3Driver WRITER = true
  /\ FileSystem_run demoCollaborators (OpUploadFile "/docs/x" "file" "opts")
       "user" "admin" freshFacade
     = afterCheck demoCollaborators (OpUploadFile "/docs/x" "file" "opts")
         s3Driver demoMount "/x" "user" "admin"
         (mkFsState tt [GetDriverByPath "/docs/x"]).
Proof.
  split; [reflexivity|]. split; [reflexivity|]. split; [reflexivity|].
  pose proof (FileSystem_capability_gate demoCollaborators
                (OpUploadFile "/media/x" "file" "opts") WRITER "user" "admin"
                freshFacade readOnlyDriver otherMount "/x" tt eq_refl eq_refl)
    as Hno.
  pose proof (FileSystem_capability_gate demoCollaborators
                (OpUploadFile "/docs/x" "file" "opts") WRITER "user" "admin"
                freshFacade s3Driver demoMount "/x" tt eq_refl eq_refl)
    as Hyes.
  split; [exact (proj1 (proj1 Hno eq_refl))|].
  split; [exact (proj2 (proj1 Hno eq_refl))|].
  split; [reflexivity|].
  exact (proj2 (proj2 Hyes eq_refl)).
Defined.



(** With the listings of [/], [/a/] and [/a/b/] in the cache: removing the
    directory [/docs/a/] clears the entries of [/] and of [/a/]; creating
    the directory [/docs/a/b] clears those two and keeps the entry of
    [/a/b/], the sub-path of the new directory. *)
Lemma mutation_clears_directories_above_witness :
  let removed :=
    finalWorld (removeItem 5 "/docs/a/" admin1 "admin" "secret" cachedWorld)
      cachedWorld in
  let created :=
    finalWorld (createDirectory "/docs/a/b" admin1 "admin" "secret" cachedWorld)
      cachedWorld in
  (runMutation 5 (MRemoveItem "/docs/a/") admin1 "admin" "secret" cachedWorld
   = Ret tt removed
   /\ findMountPointByPath (w_db cachedWorld) "/docs/a/" admin1 "admin"
      = MountFound demoMount "/a/"
   /\ isAncestorDirectory "/" "/a/"
   /\ clearsSelf (MRemoveItem "/docs/a/") demoMount "/a/" = true
   /\ is_Some (w_cache cachedWorld !! (mount_id demoMount, "/"))
   /\ is_Some (w_cache cachedWorld !! (mount_id demoMount, "/a/"))
   /\ w_cache removed !! (mount_id demoMount, "/") = None
   /\ w_cache removed !! (mount_id demoMount, "/a/") = None)
  /\ (runMutation 5 (MCreateDirectory "/docs/a/b") admin1 "admin" "secret"
        cachedWorld
      = Ret tt created
      /\ findMountPointByPath (w_db cachedWorld)
           (normalizePath "/docs/a/b" true) admin1 "admin"
         = MountFound demoMount "/a/b/"
      /\ isAncestorDirectory "/a/" "/a/b/"
      /\ clearsSelf (MCreateDirectory "/docs/a/b") demoMount "/a/b/" = false
      /\ w_cache created !! (mount_id demoMount, "/a/") = None
      /\ w_cache created !! (mount_id demoMount, "/a/b/")
         = Some (mkCacheEntry emptyListing 1000 60)).
Proof.
  intros removed created.
  assert (runMutation 5 (MRemoveItem "/docs/a/") admin1 "admin" "secret"
            cachedWorld = Ret tt removed) as Hrun
    by (apply returned_final; vm_compute; reflexivity).
  assert (runMutation 5 (MCreateDirectory "/docs/a/b") admin1 "admin" "secret"
            cachedWorld = Ret tt created) as Hrun'
    by (apply returned_final; vm_compute; reflexivity).
  assert (isAncestorDirectory "/" "/a/") as Hanc
    by (split; [reflexivity|split; [reflexivity|discriminate]]).
  assert (isAncestorDirectory "/a/" "/a/b/") as Hanc'
    by (split; [reflexivity|split; [reflexivity|discriminate]]).
  pose proof (mutation_clears_directories_above 5 (MRemoveItem "/docs/a/")
                admin1 "admin" "secret" cachedWorld removed "/docs/a/"
                demoMount "/a/" Hrun (or_introl eq_refl) eq_refl)
    as (Habove & Hself & _).
  pose proof (mutation_clears_directories_above 5
                (MCreateDirectory "/docs/a/b") admin1 "admin" "secret"
                cachedWorld created (normalizePath "/docs/a/b" true)
                demoMount "/a/b/" Hrun' (or_introl eq_refl) eq_refl)
    as (Habove' & _ & Hkept).
  split.
  - split; [exact Hrun|]. split; [reflexivity|]. split; [exact Hanc|].
    split; [reflexivity|].
    split; [eexists; reflexivity|]. split; [eexists; reflexivity|].
    split; [exact (Habove (fun H => ltac:(discriminate H)) "/" Hanc)
           |exact (Hself eq_refl)].
  - split; [exact Hrun'|]. split; [reflexivity|]. split; [exact Hanc'|].
    split; [reflexivity|].
    split; [exact (Habove' (fun H => ltac:(discriminate H)) "/a/" Hanc')|].
    rewrite (Hkept eq_refl ltac:(discriminate)). reflexivity.
Defined.

(** A listing of [/docs/a/b] is cached under the sub-path [/a/b/]; the
    creation of the directory [/docs/a/b] then succeeds with that sub-path
    and the entry is still in the cache when it returns. *)
Lemma createDirectory_keeps_own_entry :
  let listed :=
    finalWorld (listDirectory "/docs/a/b" admin1 "admin" "secret" demoWorld)
      demoWorld in
  let w' :=
    finalWorld (createDirectory "/docs/a/b" admin1 "admin" "secret" listed)
      listed in
  exists m,
    runMutation 5 (MCreateDirectory "/docs/a/b") admin1 "admin" "secret" listed
    = Ret tt w'
    /\ findMountPointByPath (w_db listed) (normalizePath "/docs/a/b" true)
         admin1 "admin"
       = MountFound m "/a/b/"
    /\ w_cache listed !! (mount_id m, "/a/b/") <> None
    /\ w_cache w' !! (mount_id m, "/a/b/") <> None.
Proof.
  intros listed w'. eexists. split.
  - apply returned_final. vm_compute. reflexivity.
  - split; [reflexivity|].
    split; intros H; vm_compute in H; discriminate H.
Defined.

(** The batch of four paths on the deployment: every removal ends with
    fewer than five objects in the store. *)
Lemma batchRemoveItems_never_raises_witness :
  (storeSize demoWorld < 5)%nat
  /\ exists r w',
       batchRemoveItems 5 demoBatch admin1 "admin" "secret" demoWorld = Ret r w'
       /\ (storeSize w' < 5)%nat
       /\ br_success r + Z.of_nat (List.length (br_failed r)) = 4
       /\ List.map fst (br_failed r) `sublist_of` demoBatch.
Proof.
  assert (storeSize demoWorld < 5)%nat as Hsize by (vm_compute; lia).
  split; [exact Hsize|].
  apply (proj1 (proj2 (proj2
           (batchRemoveItems_never_raises demoCollaborators
              (fun w => (storeSize w < 5)%nat) 5 demoBatch admin1 "admin"
              "secret" demoWorld "user" freshFacade)))).
  - exact Hsize.
  - intros p _. apply safe_endsWithin, safe_removeItem.
Defined.



(** On the endpoint that refuses HEAD, the information of [/docs/a/] comes
    from a GET whose body is released; on the deployment, HEAD of the key
    [a] answers 404 and the listing under [a/] is not empty, and HEAD of
    [zzz] answers 404 and the listing under [zzz/] is empty. *)
Lemma getFileInfo_head_get_list_witness :
  (exists info w',
     getFileInfo "/docs/a/" admin1 "admin" "secret" forbiddenWorld = Ret info w'
     /\ sentCommands w'
        = [HeadObjectCommand "b" "a/"; GetObjectCommand "b" "a/" None]
     /\ releaseCalls w' = ["destroy"])
  /\ (exists info w',
        getFileInfo "/docs/a" admin1 "admin" "secret" demoWorld = Ret info w'
        /\ sentCommands w'
           = [HeadObjectCommand "b" "a";
              ListObjectsV2Command "b" "a/" None (Some 1) None]
        /\ fi_isDirectory info = true)
  /\ (exists w',
        getFileInfo "/docs/zzz" admin1 "admin" "secret" demoWorld
        = Throw (HTTPException ApiStatus.NOT_FOUND "文件或目录不存在") w'
        /\ sentCommands w'
           = [HeadObjectCommand "b" "zzz";
              ListObjectsV2Command "b" "zzz/" None (Some 1) None]).
Proof.
  split; [|split].
  - destruct (proj2 (getFileInfo_head_get_list (Hb:=FakeBackend) (Hs:=demoHelpers) "/docs/a/" admin1 "admin"
                       "secret" forbiddenWorld demoMount "/a/" demoConfig tt
                       eq_refl eq_refl eq_refl)
                (S3Error 403 "Forbidden" "Forbidden") (w_s3 forbiddenWorld)
                eq_refl) as [Hget _].
    destruct (Hget eq_refl (getOutput directoryObject) (w_s3 forbiddenWorld)
                eq_refl) as (info & w' & Hrun & Hsent & Hrel).
    exists info, w'. split; [exact Hrun|]. split; [exact Hsent|exact Hrel].
  - destruct (proj2 (getFileInfo_head_get_list (Hb:=FakeBackend) (Hs:=demoHelpers) "/docs/a" admin1 "admin"
                       "secret" demoWorld demoMount "/a" demoConfig tt
                       eq_refl eq_refl eq_refl)
                (S3Error 404 "NotFound" "NotFound") (w_s3 demoWorld)
                eq_refl) as [_ Hlist].
    destruct (Hlist eq_refl eq_refl
                (listOutput (w_s3 demoWorld) "b" "a/" None (Some 1) None)
                (w_s3 demoWorld) eq_refl) as (w' & Hsent & Hrun).
    change (nonEmptyContents
              (listOutput (w_s3 demoWorld) "b" "a/" None (Some 1) None))
      with true in Hrun.
    destruct Hrun as (info & Hrun & Hdir).
    exists info, w'. split; [exact Hrun|]. split; [exact Hsent|exact Hdir].
  - destruct (proj2 (getFileInfo_head_get_list (Hb:=FakeBackend) (Hs:=demoHelpers) "/docs/zzz" admin1 "admin"
                       "secret" demoWorld demoMount "/zzz" demoConfig tt
                       eq_refl eq_refl eq_refl)
                (S3Error 404 "NotFound" "NotFound") (w_s3 demoWorld)
                eq_refl) as [_ Hlist].
    destruct (Hlist eq_refl eq_refl
                (listOutput (w_s3 demoWorld) "b" "zzz/" None (Some 1) None)
                (w_s3 demoWorld) eq_refl) as (w' & Hsent & Hrun).
    change (nonEmptyContents
              (listOutput (w_s3 demoWorld) "b" "zzz/" None (Some 1) None))
      with false in Hrun.
    exists w'. split; [exact Hrun|exact Hsent].
Defined.



(** A query of one code unit is refused; a query of two with the default
    parameters passes the validation. *)
Lemma searchFiles_validation_witness :
  rejectsSearch "a" (mkSearchParams None None None None None)
  /\ (exists msg,
        FileSystem_searchFiles demoCollaborators "a"
          (mkSearchParams None None None None None) "user" "admin" freshFacade
        = Throw (HTTPException ApiStatus.BAD_REQUEST msg) freshFacade)
  /\ ~ rejectsSearch "ab" (mkSearchParams None None None None None)
  /\ FileSystem_searchFiles demoCollaborators "ab"
       (mkSearchParams None None None None None) "user" "admin" freshFacade
     = searchValidated demoCollaborators "ab"
         (mkSearchParams None None None None None) "user" "admin" freshFacade.
Proof.
  assert (rejectsSearch "a" (mkSearchParams None None None None None)) as Hno
    by (left; vm_compute; reflexivity).
  assert (~ rejectsSearch "ab" (mkSearchParams None None None None None))
    as Hyes.
  { unfold rejectsSearch. intros [H|[H|[H|[H|H]]]];
      try (vm_compute in H; discriminate H).
    apply H. apply elem_of_cons. now left. }
  split; [exact Hno|].
  split; [exact (proj1 (searchFiles_validation demoCollaborators "a" _ "user"
                          "admin" freshFacade) Hno)|].
  split; [exact Hyes|].
  exact (proj2 (proj2 (searchFiles_validation demoCollaborators "ab" _ "user"
                         "admin" freshFacade) Hyes)).
Defined.

(** A renaming from the mount [/docs] to the mount [/media]. *)
Lemma renameItem_cross_mount_rejected_witness :
  mount_id demoMount <> mount_id otherMount
  /\ exists msg,
       renameItem 5 "/docs/a/x" "/media/x" admin1 "admin" "secret" demoWorld
       = Throw (HTTPException ApiStatus.BAD_REQUEST msg) demoWorld.
Proof.
  assert (mount_id demoMount <> mount_id otherMount) as Hne by discriminate.
  split; [exact Hne|].
  exact (renameItem_cross_mount_rejected (Hb:=FakeBackend) (Hs:=demoHelpers) 5 "/docs/a/x" "/media/x" admin1
           "admin" "secret" demoWorld demoMount otherMount "/a/x" "/x"
           eq_refl eq_refl Hne).
Defined.

(** A buffer of one byte more than 10 MiB. *)
Lemma updateFile_rejects_large_content_witness :
  byteLength (mkArrayBuffer (10 * 1024 * 1024 + 1)) > 10 * 1024 * 1024
  /\ updateFile "/docs/a/x" (CArrayBuffer (mkArrayBuffer (10 * 1024 * 1024 + 1)))
       admin1 "admin" "secret" demoWorld
     = Throw (HTTPException ApiStatus.BAD_REQUEST
                "文件内容过大，超过最大限制(10MB)") demoWorld.
Proof.
  assert (byteLength (mkArrayBuffer (10 * 1024 * 1024 + 1)) > 10 * 1024 * 1024)
    as Hbig by reflexivity.
  split; [exact Hbig|].
  apply updateFile_rejects_large_content. right.
  exists (mkArrayBuffer (10 * 1024 * 1024 + 1)). split; [reflexivity|exact Hbig].
Defined.
(* ===================================================================== *)
(** * More scenarios on the deployment *)
(* ===================================================================== *)


(** The listing of [/a/] is in the cache of the deployment and has not
    expired: it is returned as it is. *)
Lemma getS3DirectoryListing_cache_hit_witness :
  0 < cache_ttl demoMount
  /\ w_cache cachedWorld !! (mount_id demoMount, "/a/")
     = Some (mkCacheEntry emptyListing 1000 60)
  /\ w_now cachedWorld < 1000 + 60 * 1000
  /\ getS3DirectoryListing demoMount "/a/" "secret" cachedWorld
     = Ret emptyListing cachedWorld.
Proof.
  assert (0 < cache_ttl demoMount) as Httl by (cbn; lia).
  assert (w_now cachedWorld < 1000 + 60 * 1000) as Hnow by (cbn; lia).
  split; [exact Httl|]. split; [reflexivity|]. split; [exact Hnow|].
  exact (getS3DirectoryListing_cache_hit (Hb:=FakeBackend) (Hs:=demoHelpers)
           demoMount "/a/" "secret" cachedWorld
           (mkCacheEntry emptyListing 1000 60) Httl eq_refl Hnow).
Defined.

(** A listing under the mount that does not cache leaves the cache as it
    was. *)
Lemma getS3DirectoryListing_uncached_witness :
  cache_ttl uncachedMount <= 0
  /\ keepsCache (getS3DirectoryListing uncachedMount "/a/" "secret").
Proof.
  assert (cache_ttl uncachedMount <= 0) as Httl by (cbn; lia).
  split; [exact Httl|].
  exact (getS3DirectoryListing_uncached (Hb:=FakeBackend) (Hs:=demoHelpers)
           uncachedMount "/a/" "secret" Httl).
Defined.



(** Nothing of the bucket is under [zzz/]: the removal of that directory
    finds it missing. *)
Lemma deleteDirectory_empty_witness :
  let list := ListObjectsV2Command "b" (asPrefix "zzz/") None None None in
  let page := listOutput (w_s3 demoWorld) "b" (asPrefix "zzz/") None None None in
  s3_send tt list (w_s3 demoWorld) = (inr page, w_s3 demoWorld)
  /\ nonEmptyContents page = false
  /\ nextToken page = None
  /\ deleteDirectory 1 tt "b" "zzz/" "cfg1" demoWorld
     = Throw (HTTPException ApiStatus.NOT_FOUND "目录不存在或为空")
         (setS3 (w_s3 demoWorld) (addEffect (Sent list) demoWorld)).
Proof.
  intros list page.
  assert (@s3_send FakeBackend tt list (w_s3 demoWorld)
          = (inr page, w_s3 demoWorld)) as Hlist by reflexivity.
  assert (nonEmptyContents page = false) as Hempty by (vm_compute; reflexivity).
  assert (nextToken page = None) as Hlast by (vm_compute; reflexivity).
  split; [exact Hlist|]. split; [exact Hempty|]. split; [exact Hlast|].
  exact (deleteDirectory_empty (Hb:=FakeBackend) 0 tt "b"
           "zzz/" "cfg1" demoWorld page (w_s3 demoWorld) Hlist Hempty Hlast).
Defined.

(** On the endpoint that answers deletions with 404, the removal of the
    file [/docs/gone.txt] reports a missing file. *)
Lemma removeItem_missing_file_witness :
  let delete := DeleteObjectCommand "b" "gone.txt" in
  JS.endsWith "/docs/gone.txt" "/" = false
  /\ s3_send tt delete (w_s3 noDeleteWorld)
     = (inl (S3Error 404 "NoSuchKey" "NoSuchKey"), w_s3 noDeleteWorld)
  /\ metadataStatus (S3Error 404 "NoSuchKey" "NoSuchKey") = Some 404
  /\ removeItem 5 "/docs/gone.txt" admin1 "admin" "secret" noDeleteWorld
     = Throw (HTTPException ApiStatus.NOT_FOUND "文件不存在")
         (setS3 (w_s3 noDeleteWorld) (addEffect (Sent delete) noDeleteWorld)).
Proof.
  intros delete.
  split; [reflexivity|]. split; [reflexivity|]. split; [reflexivity|].
  exact (removeItem_missing_file (Hb:=FakeBackend) (Hs:=demoHelpers) 5
           "/docs/gone.txt" admin1 "admin" "secret" noDeleteWorld demoMount
           "/gone.txt" demoConfig tt (S3Error 404 "NoSuchKey" "NoSuchKey")
           (w_s3 noDeleteWorld) eq_refl eq_refl eq_refl eq_refl eq_refl
           eq_refl).
Defined.


(** The text [hi] for the new file [/docs/a/x.txt]: HEAD answers 404, the
    PUT stores the text as [text/plain] and the file is reported as new. *)
Lemma updateFile_stores_witness :
  let head := HeadObjectCommand "b" "a/x.txt" in
  let put := PutObjectCommand "b" "a/x.txt" (CString "hi") "text/plain" None in
  let stored :=
    mkOutput None None None (Some fakeETag) None None None None false None in
  let s2 :=
    mkFakeS3
      (<[("b", "a/x.txt") := mkS3Object (CString "hi") "text/plain" None]>
         (fk_objects demoS3)) noFault in
  contentTooLarge (CString "hi") = false
  /\ s3_send tt head (w_s3 demoWorld)
     = (inl (S3Error 404 "NotFound" "NotFound"), demoS3)
  /\ snd (getMimeTypeAndGroupFromFile (updatedFileName "/docs/a/x.txt")
            "text/plain")
     <> MIME_GROUPS_EXECUTABLE
  /\ s3_send tt put demoS3 = (inr stored, s2)
  /\ exists w',
       updateFile "/docs/a/x.txt" (CString "hi") admin1 "admin" "secret"
         demoWorld
       = Ret (mkUpdateResult "/docs/a/x.txt" (cleanETag (Some fakeETag))
                "text/plain" true) w'
       /\ sentCommands w' = [head; put]
       /\ w_s3 w' = s2.
Proof.
  intros head put stored s2.
  assert (snd (getMimeTypeAndGroupFromFile (updatedFileName "/docs/a/x.txt")
                 "text/plain")
          <> MIME_GROUPS_EXECUTABLE) as Hgroup by discriminate.
  split; [reflexivity|]. split; [reflexivity|]. split; [exact Hgroup|].
  split; [reflexivity|].
  exact (updateFile_stores (Hb:=FakeBackend) (Hs:=demoHelpers) "/docs/a/x.txt"
           (CString "hi") admin1 "admin" "secret" demoWorld demoMount
           "/a/x.txt" demoConfig tt (inl (S3Error 404 "NotFound" "NotFound"))
           demoS3 s2 stored eq_refl eq_refl eq_refl eq_refl eq_refl eq_refl
           Hgroup eq_refl).
Defined.

(** The directory [/docs/x] is not there: [/docs/x/y] cannot be made. *)
Lemma createDirectory_parent_missing_witness :
  faultless (w_s3 demoWorld)
  /\ (1 <? List.length (JS.filterBoolean (JS.split "x/y/" "/")))%nat = true
  /\ fakeDirectoryExists (w_s3 demoWorld) "b" (parentOfDirectory "x/y/") = false
  /\ exists w' sent,
       createDirectory "/docs/x/y" admin1 "admin" "secret" demoWorld
       = Throw (HTTPException ApiStatus.CONFLICT "父目录不存在") w'
       /\ w_s3 w' = w_s3 demoWorld
       /\ sentCommands w' = sentCommands demoWorld ++ sent
       /\ Forall (fun c => isPut c = false) sent.
Proof.
  assert (faultless (w_s3 demoWorld)) as Hf by (intros c; reflexivity).
  assert (fakeDirectoryExists (w_s3 demoWorld) "b" (parentOfDirectory "x/y/")
          = false) as Hmissing by (vm_compute; reflexivity).
  split; [exact Hf|]. split; [reflexivity|]. split; [exact Hmissing|].
  exact (createDirectory_parent_missing (Hs:=demoHelpers) "/docs/x/y" admin1
           "admin" "secret" demoWorld demoMount "/x/y/" demoConfig Hf eq_refl
           eq_refl eq_refl eq_refl Hmissing).
Defined.

(** The upload of [run.exe] into [/docs/a]: the object is in the store
    under [a/run.exe] with the type the caller gave. *)
Lemma uploadFile_direct_stores_witness :
  faultless (w_s3 demoWorld)
  /\ fakeDirectoryExists (w_s3 demoWorld) "b" (upToLastSlash "a/run.exe") = true
  /\ exists w' sent result row,
       uploadFile "/docs/a" exeFile admin1 "admin" "secret" false demoWorld
       = Ret result w'
       /\ fk_objects (w_s3 w')
          = <[("b", "a/run.exe") :=
                mkS3Object (CArrayBuffer (mkArrayBuffer 4))
                  "application/x-msdownload" None]>
              (fk_objects (w_s3 demoWorld))
       /\ db_files (w_db w') = db_files (w_db demoWorld) ++ [row]
       /\ file_storage_path row = "a/run.exe"
       /\ file_filename row = "run.exe"
       /\ file_mimetype row = "application/x-msdownload"
       /\ file_size row = 4
       /\ file_s3_config_id row = "cfg1"
       /\ sentCommands w'
          = sentCommands demoWorld ++ sent
            ++ [PutObjectCommand "b" "a/run.exe"
                  (CArrayBuffer (mkArrayBuffer 4)) "application/x-msdownload"
                  None]
       /\ Forall (fun c => isPut c = false) sent.
Proof.
  assert (faultless (w_s3 demoWorld)) as Hf by (intros c; reflexivity).
  assert (fakeDirectoryExists (w_s3 demoWorld) "b" (upToLastSlash "a/run.exe")
          = true) as Hdir by (vm_compute; reflexivity).
  split; [exact Hf|]. split; [exact Hdir|].
  exact (uploadFile_direct_stores (Hs:=demoHelpers) "/docs/a" exeFile admin1
           "admin" "secret" demoWorld demoMount "/a" demoConfig Hf eq_refl
           eq_refl eq_refl (fun _ => Hdir)).
Defined.

(** The removal of the directory [/docs/a/]: its one key is listed and
    deleted, and nothing of the bucket is left under [a/]. *)
Lemma removeItem_directory_clears_witness :
  faultless (w_s3 demoWorld)
  /\ JS.endsWith "/docs/a/" "/" = true
  /\ matchingKeys (w_s3 demoWorld) "b" (asPrefix "a/") None = ["a/"]
  /\ exists w',
       removeItem 1 "/docs/a/" admin1 "admin" "secret" demoWorld = Ret tt w'
       /\ (forall b k,
             fk_objects (w_s3 w') !! (b, k)
             = if bool_decide (b = "b") && JS.startsWith k (asPrefix "a/")
               then None
               else fk_objects (w_s3 demoWorld) !! (b, k))
       /\ sentCommands w'
          = sentCommands demoWorld
            ++ ListObjectsV2Command "b" (asPrefix "a/") None None None
               :: List.map (DeleteObjectCommand "b")
                    (matchingKeys (w_s3 demoWorld) "b" (asPrefix "a/") None).
Proof.
  assert (faultless (w_s3 demoWorld)) as Hf by (intros c; reflexivity).
  assert (matchingKeys (w_s3 demoWorld) "b" (asPrefix "a/") None = ["a/"])
    as Hkeys by (vm_compute; reflexivity).
  split; [exact Hf|]. split; [reflexivity|]. split; [exact Hkeys|].
  apply (removeItem_directory_clears (Hs:=demoHelpers) 0 "/docs/a/" admin1
           "admin" "secret" demoWorld demoMount "/a/" demoConfig Hf eq_refl
           eq_refl eq_refl eq_refl).
  - change (matchingKeys (w_s3 demoWorld) "b" (asPrefix "a/") None <> []).
    rewrite Hkeys. discriminate.
  - change (List.length (matchingKeys (w_s3 demoWorld) "b" (asPrefix "a/") None)
            <= 1000)%nat.
    rewrite Hkeys. cbn. lia.
Defined.
